(** * Leads-generator: pipeline orchestrator, batch validator and store

    A shallow embedding of
      - [leads/lead_validator.py]        (class LeadValidator),
      - [leads/sqlite_manager.py]        (class SQLiteManager),
      - [leads/pipeline_orchestrator.py] (class PipelineOrchestrator),
    with the properties the specification states about them, and of
      - [utils.py]                 (clean_filename, clean_phone,
                                    sanitize_for_csv),
      - [config.py]                (class LeadPipelineConfig),
      - [google_places_scraper.py] (_search_places),
      - [api_server.py]            (find_free_port, run_pipeline_task),
    with further properties of the code.

    Modelling conventions.
      - A Python value is a [pyval]; a dictionary handed around as a lead,
        an update or a table row is a [gmap string pyval]; a dictionary
        stored inside a value (details, stage payloads) is an association
        list in insertion order.
      - Python [str] is a Rocq [string] whose characters are the code
        points below 256.
      - Python floats are exact rationals ([Q]); rounding errors of the
        binary representation are not modelled.
      - An exception is an [exn]; a function that can raise returns a
        [result].
      - The libraries and services the code calls (email_validator,
        phonenumbers, DNS, HTTP, the places search, the exporter, json,
        the clock) are parameters: functions of their arguments. *)

From Stdlib Require Import ZArith QArith String Ascii List Bool Lia.
From stdpp Require Import base option list gmap strings fin_maps pretty.

Local Open Scope string_scope.
Local Open Scope Z_scope.

(** ** Python values *)

#[local] Set Warnings "-register-all".

Inductive pyval : Type :=
| VNone
| VBool (b : bool)
| VInt (z : Z)
| VFloat (q : Q)
| VStr (s : string)
| VList (l : list pyval)
| VDict (d : list (string * pyval)).

Abbreviation dict := (gmap string pyval).
Abbreviation adict := (list (string * pyval)).

(** [bool(v)] *)
Definition truthy (v : pyval) : bool :=
  match v with
  | VNone => false
  | VBool b => b
  | VInt z => negb (z =? 0)
  | VFloat q => negb (Qnum q =? 0)
  | VStr s => negb (String.eqb s "")
  | VList l => match l with [] => false | _ => true end
  | VDict d => match d with [] => false | _ => true end
  end.

(** [type(v).__name__] *)
Definition type_name (v : pyval) : string :=
  match v with
  | VNone => "NoneType"
  | VBool _ => "bool"
  | VInt _ => "int"
  | VFloat _ => "float"
  | VStr _ => "str"
  | VList _ => "list"
  | VDict _ => "dict"
  end.

(** [d.get(k)] and [d.get(k, default)] *)
Definition dict_get (d : dict) (k : string) : pyval := default VNone (d !! k).
Definition dict_get_or (d : dict) (k : string) (dflt : pyval) : pyval :=
  default dflt (d !! k).

(** [d.update(u)] *)
Definition dict_update (d u : dict) : dict := u ∪ d.

(** Assignment [d[k] = v] on an insertion-ordered dictionary. *)
Fixpoint adict_set (k : string) (v : pyval) (d : adict) : adict :=
  match d with
  | [] => [(k, v)]
  | (k', v') :: d' =>
      if String.eqb k k' then (k, v) :: d' else (k', v') :: adict_set k v d'
  end.

Definition adict_update (d u : adict) : adict :=
  fold_left (fun acc kv => adict_set (fst kv) (snd kv) acc) u d.

(** ** Exceptions *)

Record exn : Type := mkExn { exn_class : string; exn_msg : string }.

(** [str(e)] *)
Definition str_of_exn (e : exn) : string := exn_msg e.

Inductive result (A : Type) : Type :=
| Ok (a : A)
| Raise (e : exn).
Arguments Ok {A} a.
Arguments Raise {A} e.

Definition attribute_error (v : pyval) (attr : string) : exn :=
  mkExn "AttributeError"
        ("'" ++ type_name v ++ "' object has no attribute '" ++ attr ++ "'").

(** ** Strings *)

Module PyStr.

Definition code (c : ascii) : N := N_of_ascii c.

Definition in_range (lo hi : N) (c : ascii) : bool :=
  ((lo <=? code c) && (code c <=? hi))%N.

(** [str.isspace] on the code points below 256. *)
Definition is_space (c : ascii) : bool :=
  in_range 9 13 c || in_range 28 32 c || (code c =? 133)%N || (code c =? 160)%N.

(** [str.lower] on one code point below 256. *)
Definition lower_char (c : ascii) : ascii :=
  if in_range 65 90 c || (in_range 192 222 c && negb (code c =? 215)%N)
  then ascii_of_N (code c + 32)
  else c.

Fixpoint lower (s : string) : string :=
  match s with
  | EmptyString => EmptyString
  | String c r => String (lower_char c) (lower r)
  end.

Fixpoint lstrip (s : string) : string :=
  match s with
  | EmptyString => EmptyString
  | String c r => if is_space c then lstrip r else s
  end.

Fixpoint rstrip (s : string) : string :=
  match s with
  | EmptyString => EmptyString
  | String c r =>
      let r' := rstrip r in
      if is_space c && String.eqb r' "" then EmptyString else String c r'
  end.

(** [s.strip()] *)
Definition strip (s : string) : string := rstrip (lstrip s).

(** [len(s)] *)
Definition len (s : string) : Z := Z.of_nat (String.length s).

(** [s[:n]] *)
Definition take (n : nat) (s : string) : string := String.substring 0 n s.

(** [s.startswith(p)] *)
Definition startswith (p s : string) : bool := String.prefix p s.

End PyStr.

(** ** Regular expressions

    The fragment of [re] that the validator's e-mail pattern uses, matched
    with Brzozowski derivatives. *)

Module Re.

Inductive regex : Type :=
| Void
| Eps
| Class (p : ascii -> bool)
| Cat (r s : regex)
| Alt (r s : regex)
| Star (r : regex).

Fixpoint nullable (r : regex) : bool :=
  match r with
  | Void => false
  | Eps => true
  | Class _ => false
  | Cat r s => nullable r && nullable s
  | Alt r s => nullable r || nullable s
  | Star _ => true
  end.

Fixpoint deriv (c : ascii) (r : regex) : regex :=
  match r with
  | Void => Void
  | Eps => Void
  | Class p => if p c then Eps else Void
  | Cat r s =>
      if nullable r then Alt (Cat (deriv c r) s) (deriv c s)
      else Cat (deriv c r) s
  | Alt r s => Alt (deriv c r) (deriv c s)
  | Star r => Cat (deriv c r) (Star r)
  end.

Fixpoint fullmatch (r : regex) (s : string) : bool :=
  match s with
  | EmptyString => nullable r
  | String c s' => fullmatch (deriv c r) s'
  end.

Definition Chr (c : ascii) : regex := Class (Ascii.eqb c).
Definition Plus (r : regex) : regex := Cat r (Star r).

(** [re.compile('^' r '$').match(s)]: the match starts at the first
    character; [$] stands at the end of [s] or before a line feed that
    ends [s]. *)
Definition match_anchored (r : regex) (s : string) : bool :=
  fullmatch (Cat r (Alt Eps (Chr "010"%char))) s.

End Re.

(** ** Batch validator ([leads/lead_validator.py]) *)

Module Validator.

(** What [email_validator.validate_email] returns or raises. *)
Record email_info : Type := mkEmailInfo {
  ei_email : string;
  ei_local : string;
  ei_domain : string;
  ei_ascii_email : string;
  ei_ascii_local : string;
  ei_ascii_domain : string
}.

Inductive email_lib_result : Type :=
| EmailOk (i : email_info)
| EmailNotValidError (msg : string)
| EmailOtherError (msg : string).

(** [phonenumbers.PhoneNumberType] *)
Inductive PhoneNumberType : Type :=
| FIXED_LINE | MOBILE | FIXED_LINE_OR_MOBILE | TOLL_FREE | PREMIUM_RATE
| SHARED_COST | VOIP | PERSONAL_NUMBER | PAGER | UAN | VOICEMAIL
| UNKNOWN.

(** What [phonenumbers.parse] and the queries on the parsed number give. *)
Record phone_info : Type := mkPhoneInfo {
  pi_is_valid : bool;
  pi_is_possible : bool;
  pi_international : string;
  pi_national : string;
  pi_e164 : string;
  pi_country_code : Z;
  pi_national_number : Z;
  pi_number_type : PhoneNumberType
}.

Inductive phone_lib_result : Type :=
| PhoneParsed (i : phone_info)
| NumberParseException (msg : string)
| PhoneOtherError (msg : string).

(** What [requests.Session.get] returns or raises. *)
Record http_response : Type := mkResponse {
  status_code : Z;
  url : string;
  header_content_type : string;
  header_server : string;
  elapsed_seconds : Q;
  text : string
}.

Inductive http_result : Type :=
| HttpResponse (r : http_response)
| HttpTimeout
| HttpConnectionError
| HttpRequestException (msg : string)
| HttpOtherError (msg : string).

(** The outside world of the validator. *)
Record services : Type := mkServices {
  (** [email_validator.validate_email(email)] *)
  validate_email : string -> email_lib_result;
  (** [socket.gethostbyname(domain)]: [true] when it returns *)
  gethostbyname : string -> bool;
  (** [phonenumbers.parse(phone, country_code)] and the queries on it *)
  phonenumbers_parse : string -> pyval -> phone_lib_result;
  (** [session.get(website, timeout, allow_redirects=True)] *)
  session_get : string -> http_result;
  (** the title search on the first 1000 characters of a page:
      group 1 of [<title[^>]*>(.*?)</title>] when the page has a
      [<title>] and the search matches *)
  title_search : string -> option string
}.

(** Calls that leave the process while an e-mail address is validated. *)
Inductive net_event : Type :=
| CallValidateEmail (email : string)
| CallGetHostByName (domain : string).

Definition local_class (c : ascii) : bool :=
  PyStr.in_range 97 122 c || PyStr.in_range 65 90 c || PyStr.in_range 48 57 c
  || Ascii.eqb c "." || Ascii.eqb c "_" || Ascii.eqb c "%"
  || Ascii.eqb c "+" || Ascii.eqb c "-".

Definition domain_class (c : ascii) : bool :=
  PyStr.in_range 97 122 c || PyStr.in_range 65 90 c || PyStr.in_range 48 57 c
  || Ascii.eqb c "." || Ascii.eqb c "-".

Definition alpha_class (c : ascii) : bool :=
  PyStr.in_range 97 122 c || PyStr.in_range 65 90 c.

(** [^[a-zA-Z0-9._%+-]+@[a-zA-Z0-9.-]+\.[a-zA-Z]{2,}$] *)
Definition email_pattern : Re.regex :=
  Re.Cat (Re.Plus (Re.Class local_class))
    (Re.Cat (Re.Chr "@")
      (Re.Cat (Re.Plus (Re.Class domain_class))
        (Re.Cat (Re.Chr ".")
          (Re.Cat (Re.Class alpha_class)
            (Re.Cat (Re.Class alpha_class) (Re.Star (Re.Class alpha_class))))))).


Definition _get_phone_type (t : PhoneNumberType) : string :=
  match t with
  | FIXED_LINE => "Fixed Line"
  | MOBILE => "Mobile"
  | FIXED_LINE_OR_MOBILE => "Fixed Line or Mobile"
  | TOLL_FREE => "Toll Free"
  | PREMIUM_RATE => "Premium Rate"
  | SHARED_COST => "Shared Cost"
  | VOIP => "VoIP"
  | PERSONAL_NUMBER => "Personal Number"
  | PAGER => "Pager"
  | UAN => "UAN"
  | VOICEMAIL => "Voicemail"
  | UNKNOWN => "Unknown"
  end.

Section WithServices.

Variable W : services.

(** [_check_domain_exists] *)
Definition _check_domain_exists (domain : string) : bool :=
  gethostbyname W domain.

(** [_validate_email]: the pair it returns, and the outside calls it
    made, in order. *)
Definition _validate_email (email : pyval)
  : (bool * option adict) * list net_event :=
  match email with
  | VStr raw =>
      if negb (truthy email) then ((false, None), [])
      else
        let email := PyStr.lower (PyStr.strip raw) in
        if negb (Re.match_anchored email_pattern email)
        then ((false, Some [("error", VStr "Invalid email format")]), [])
        else
          match validate_email W email with
          | EmailOk i =>
              let details :=
                [("normalized_email", VStr (ei_email i));
                 ("local_part", VStr (ei_local i));
                 ("domain", VStr (ei_domain i));
                 ("ascii_email", VStr (ei_ascii_email i));
                 ("ascii_local", VStr (ei_ascii_local i));
                 ("ascii_domain", VStr (ei_ascii_domain i))] in
              let domain_valid := _check_domain_exists (ei_domain i) in
              ((true, Some (adict_set "domain_exists" (VBool domain_valid) details)),
               [CallValidateEmail email; CallGetHostByName (ei_domain i)])
          | EmailNotValidError msg =>
              ((false, Some [("error", VStr msg)]), [CallValidateEmail email])
          | EmailOtherError _ =>
              ((false, Some [("error", VStr "Validation service error")]),
               [CallValidateEmail email])
          end
  | _ => ((false, None), [])
  end.

(** [_validate_phone] *)
Definition _validate_phone (phone country_code : pyval)
  : bool * option adict :=
  match phone with
  | VStr raw =>
      if negb (truthy phone) then (false, None)
      else
        let phone := PyStr.strip raw in
        match phonenumbers_parse W phone country_code with
        | PhoneParsed i =>
            if pi_is_valid i then
              (true,
               Some [("international_format", VStr (pi_international i));
                     ("national_format", VStr (pi_national i));
                     ("e164_format", VStr (pi_e164 i));
                     ("country_code", VInt (pi_country_code i));
                     ("national_number", VInt (pi_national_number i));
                     ("number_type", VStr (_get_phone_type (pi_number_type i)));
                     ("is_possible", VBool (pi_is_possible i))])
            else
              (false,
               Some [("error", VStr "Invalid phone number");
                     ("is_possible", VBool (pi_is_possible i))])
        | NumberParseException msg =>
            (false, Some [("error", VStr ("Parse error: " ++ msg))])
        | PhoneOtherError _ =>
            (false, Some [("error", VStr "Validation service error")])
        end
  | _ => (false, None)
  end.

(** [_check_website_async] *)
Definition _check_website_async (website : pyval)
  : result (bool * option adict) :=
  if negb (truthy website) then Ok (false, None)
  else
    match website with
    | VStr w =>
        let website :=
          if PyStr.startswith "http://" w || PyStr.startswith "https://" w
          then w else "https://" ++ w in
        match session_get W website with
        | HttpResponse r =>
            let details :=
              [("status_code", VInt (status_code r));
               ("final_url", VStr (url r));
               ("content_type", VStr (header_content_type r));
               ("server", VStr (header_server r));
               ("response_time", VFloat (elapsed_seconds r))] in
            let is_valid := (200 <=? status_code r) && (status_code r <? 400) in
            let details :=
              if is_valid then
                match title_search W (PyStr.take 1000 (text r)) with
                | Some t =>
                    adict_set "page_title"
                      (VStr (PyStr.take 100 (PyStr.strip t))) details
                | None => details
                end
              else details in
            Ok (is_valid, Some details)
        | HttpTimeout => Ok (false, Some [("error", VStr "Website timeout")])
        | HttpConnectionError =>
            Ok (false, Some [("error", VStr "Connection failed")])
        | HttpRequestException msg =>
            Ok (false,
                Some [("error", VStr ("Request error: " ++ PyStr.take 100 msg))])
        | HttpOtherError _ =>
            Ok (false, Some [("error", VStr "Validation service error")])
        end
    | _ => Raise (attribute_error website "startswith")
    end.

(** The tail of [_validate_company_async], from the test on the
    company name on. *)
Definition company_name_fallback (company_name : pyval) (details : adict)
  : result (bool * option adict) :=
  if truthy company_name then
    match company_name with
    | VStr n =>
        if 2 <? PyStr.len (PyStr.strip n) then
          let details := adict_set "has_company_name" (VBool true) details in
          let details :=
            adict_set "company_name_length"
              (VInt (PyStr.len (PyStr.strip n))) details in
          Ok (true, Some details)
        else Ok (false, Some details)
    | _ => Raise (attribute_error company_name "strip")
    end
  else Ok (false, Some details).

(** [_validate_company_async] *)
Definition _validate_company_async (website company_name : pyval)
  : result (bool * option adict) :=
  if negb (truthy website) && negb (truthy company_name) then Ok (false, None)
  else
    let details := [] in
    if truthy website then
      match _check_website_async website with
      | Raise e => Raise e
      | Ok (website_valid, website_details) =>
          let details := adict_update details (default [] website_details) in
          if website_valid then Ok (true, Some details)
          else company_name_fallback company_name details
      end
    else company_name_fallback company_name details.

(** [if details: validated_lead[key] = details] *)
Definition set_details (key : string) (details : option adict) (d : dict)
  : dict :=
  if truthy (from_option VDict VNone details)
  then <[key := from_option VDict VNone details]> d
  else d.

(** [_validate_single_lead_async]; the semaphore and the pacing delay
    order the work and do not enter the result. *)
Definition _validate_single_lead_async (lead : dict) : result dict :=
  let validated_lead := lead in
  let '(email_valid, email_details) :=
    fst (_validate_email (dict_get_or lead "email" (VStr ""))) in
  let validated_lead := <["email_valid" := VBool email_valid]> validated_lead in
  let validated_lead :=
    set_details "email_validation_details" email_details validated_lead in
  let '(phone_valid, phone_details) :=
    _validate_phone (dict_get_or lead "phone" (VStr ""))
                    (dict_get_or lead "country" (VStr "US")) in
  let validated_lead := <["phone_valid" := VBool phone_valid]> validated_lead in
  let validated_lead :=
    set_details "phone_validation_details" phone_details validated_lead in
  match _validate_company_async (dict_get_or lead "website" (VStr ""))
                                (dict_get_or lead "name" (VStr "")) with
  | Raise e => Raise e
  | Ok (company_valid, company_details) =>
      let validated_lead :=
        <["company_valid" := VBool company_valid]> validated_lead in
      let validated_lead :=
        set_details "company_validation_details" company_details validated_lead in
      let validated_lead := <["is_validated" := VBool true]> validated_lead in
      Ok (<["validation_score" :=
              VInt (Z.b2z email_valid + Z.b2z phone_valid + Z.b2z company_valid)]>
            validated_lead)
  end.

(** The record that replaces a lead whose validation raised. *)
Definition failed_lead (lead : dict) (e : exn) : dict :=
  dict_update lead
    (<["email_valid" := VBool false]>
       (<["phone_valid" := VBool false]>
          (<["company_valid" := VBool false]>
             {["validation_error" := VStr (str_of_exn e)]}))).

(** The loop [for i, result in enumerate(validated_leads)], from
    index [i] on. *)
Fixpoint collect_results (leads : list dict) (i : nat)
         (validated : list (result dict)) : result (list dict) :=
  match validated with
  | [] => Ok []
  | r :: rest =>
      let item :=
        match r with
        | Raise e =>
            match leads !! i with
            | Some lead => Ok (failed_lead lead e)
            | None => Raise (mkExn "IndexError" "list index out of range")
            end
        | Ok v => Ok v
        end in
      match item with
      | Raise e => Raise e
      | Ok x =>
          match collect_results leads (S i) rest with
          | Raise e => Raise e
          | Ok xs => Ok (x :: xs)
          end
      end
  end.

(** [validate_leads_batch]; [asyncio.gather] with
    [return_exceptions=True] gives the outcome of every task, a value
    or the exception it raised, in the order of the tasks. *)
Definition validate_leads_batch (leads : list dict) : result (list dict) :=
  match leads with
  | [] => Ok []
  | _ =>
      let validated_leads := map _validate_single_lead_async leads in
      collect_results leads 0 validated_leads
  end.

End WithServices.

(** [sum(1 for lead in leads if p(lead))] *)
Definition count_where (p : dict -> bool) (leads : list dict) : Z :=
  Z.of_nat (length (List.filter p leads)).

Definition flag (k : string) (lead : dict) : bool :=
  truthy (dict_get_or lead k (VBool false)).

Definition has_value (k : string) (lead : dict) : bool :=
  truthy (dict_get lead k).

(** The number a value stands for in an addition, if any. *)
Definition py_number (v : pyval) : option Q :=
  match v with
  | VBool b => Some (inject_Z (Z.b2z b))
  | VInt z => Some (inject_Z z)
  | VFloat q => Some q
  | _ => None
  end.

(** [sum(vs)], from the accumulator [acc] on. *)
Fixpoint py_sum (acc : Q) (vs : list pyval) : result Q :=
  match vs with
  | [] => Ok acc
  | v :: vs' =>
      match py_number v with
      | Some q => py_sum (acc + q)%Q vs'
      | None =>
          Raise (mkExn "TypeError"
                   ("unsupported operand type(s) for +: 'int' and '"
                    ++ type_name v ++ "'"))
      end
  end.

(** Nearest integer, ties to the even one. *)
Definition round_half_even (q : Q) : Z :=
  let n := Qnum q in
  let d := Z.pos (Qden q) in
  let fl := n / d in
  let r := n mod d in
  match (2 * r) ?= d with
  | Lt => fl
  | Gt => fl + 1
  | Eq => if Z.even fl then fl else fl + 1
  end.

(** [round(q, 2)] *)
Definition round2 (q : Q) : Q := Qmake (round_half_even (q * 100)%Q) 100.

(** [get_validation_summary]; [None] stands for the empty dictionary
    returned for an empty list. *)
Definition get_validation_summary (validated_leads : list dict)
  : result (option adict) :=
  match validated_leads with
  | [] => Ok None
  | _ =>
      let total := Z.of_nat (length validated_leads) in
      let email_stats :=
        [("total_with_email", VInt (count_where (has_value "email") validated_leads));
         ("valid_emails", VInt (count_where (flag "email_valid") validated_leads));
         ("invalid_emails",
          VInt (count_where
                  (fun lead => has_value "email" lead && negb (flag "email_valid" lead))
                  validated_leads))] in
      let phone_stats :=
        [("total_with_phone", VInt (count_where (has_value "phone") validated_leads));
         ("valid_phones", VInt (count_where (flag "phone_valid") validated_leads));
         ("invalid_phones",
          VInt (count_where
                  (fun lead => has_value "phone" lead && negb (flag "phone_valid" lead))
                  validated_leads))] in
      let company_stats :=
        [("total_with_website", VInt (count_where (has_value "website") validated_leads));
         ("valid_companies", VInt (count_where (flag "company_valid") validated_leads));
         ("invalid_companies",
          VInt (count_where (fun lead => negb (flag "company_valid" lead))
                  validated_leads))] in
      match py_sum 0%Q
              (map (fun lead => dict_get_or lead "validation_score" (VInt 0))
                   validated_leads) with
      | Raise e => Raise e
      | Ok total_validations =>
          let max_possible := total * 3 in
          let quality_score :=
            if 0 <? max_possible
            then (total_validations / inject_Z max_possible * 100)%Q
            else 0%Q in
          Ok (Some [("total_leads", VInt total);
                    ("email_validation", VDict email_stats);
                    ("phone_validation", VDict phone_stats);
                    ("company_validation", VDict company_stats);
                    ("overall_quality_score", VFloat (round2 quality_score))])
      end
  end.


End Validator.

(** ** Persistent store ([leads/sqlite_manager.py])

    A table is the list of its rows in [rowid] order and a row maps
    column names to the values stored.  A statement that fails raises and
    leaves the tables as they were: every method runs in one transaction
    that is rolled back when an exception leaves its [with] block.
    SQLite's column affinity (its coercion between texts and numbers) is
    not modelled. *)

Module Store.

Record db : Type := mkDb {
  campaigns : list dict;
  leads : list dict;
  pipeline_runs : list dict;
  (** last [id] handed out by AUTOINCREMENT *)
  leads_seq : Z;
  pipeline_runs_seq : Z
}.

(** What the store takes from outside: the clock and [json]. *)
Record engine : Type := mkEngine {
  (** SQL [CURRENT_TIMESTAMP] *)
  CURRENT_TIMESTAMP : string;
  (** [datetime.now().strftime('%Y%m%d_%H%M%S')] *)
  now_compact : string;
  (** [datetime.now()], as [sqlite3] stores it *)
  now_stored : string;
  json_dumps : pyval -> string;
  (** [json.loads]; [None] when it raises [JSONDecodeError] *)
  json_loads : string -> option pyval
}.

Definition campaign_columns : list string :=
  ["id"; "name"; "business_type"; "location"; "max_results"; "status";
   "created_at"; "updated_at"; "completed_at"; "from_email"; "total_leads";
   "validated_leads"; "enriched_leads"; "personalized_leads";
   "campaign_created"; "error_message"].

Definition campaign_not_null : list string :=
  ["name"; "business_type"; "location"; "max_results"; "status"].

Definition lead_columns : list string :=
  ["id"; "campaign_id"; "place_id"; "name"; "address"; "city"; "state";
   "postal_code"; "country"; "phone"; "email"; "website"; "category";
   "rating"; "reviews_count"; "latitude"; "longitude"; "status";
   "email_valid"; "phone_valid"; "company_valid"; "linkedin_profile";
   "research_data"; "personalized_message"; "created_at"; "updated_at"].

Definition lead_not_null : list string := ["campaign_id"; "name"].

Definition json_fields : list string :=
  ["linkedin_profile"; "research_data"; "personalized_message"].

Definition mem (k : string) (ks : list string) : bool :=
  existsb (String.eqb k) ks.

(** The SQL value a Python value is bound as. *)
Definition sql_adapt (v : pyval) : result pyval :=
  match v with
  | VBool b => Ok (VInt (Z.b2z b))
  | VInt z =>
      if (- 2 ^ 63 <=? z) && (z <? 2 ^ 63) then Ok v
      else Raise (mkExn "OverflowError"
                    "Python int too large to convert to SQLite INTEGER")
  | VList _ | VDict _ =>
      Raise (mkExn "sqlite3.ProgrammingError"
               ("Error binding parameter: type '" ++ type_name v
                ++ "' is not supported"))
  | _ => Ok v
  end.

(** SQL [a = b] between a stored value and a bound one: never true of
    NULL. *)
Definition sql_eq (a b : pyval) : bool :=
  match a, b with
  | VInt x, VInt y => x =? y
  | VStr x, VStr y => String.eqb x y
  | VFloat x, VFloat y => Qeq_bool x y
  | VInt x, VFloat y => Qeq_bool (inject_Z x) y
  | VFloat x, VInt y => Qeq_bool x (inject_Z y)
  | _, _ => false
  end.

(** SQL [a < b] between stored values: never true of NULL; a number
    sorts before a text; texts compare code point by code point. *)
Definition sql_lt (a b : pyval) : bool :=
  match a, b with
  | VInt x, VInt y => x <? y
  | VInt x, VFloat y => negb (Qle_bool y (inject_Z x))
  | VFloat x, VInt y => negb (Qle_bool (inject_Z y) x)
  | VFloat x, VFloat y => negb (Qle_bool y x)
  | VInt _, VStr _ | VFloat _, VStr _ => true
  | VStr x, VStr y => String.ltb x y
  | _, _ => false
  end.

(** Bind every value of a parameter list; the first one that cannot be
    bound raises. *)
Fixpoint adapt_values (kvs : list (string * pyval))
  : result (list (string * pyval)) :=
  match kvs with
  | [] => Ok []
  | (k, v) :: rest =>
      match sql_adapt v with
      | Raise e => Raise e
      | Ok v' =>
          match adapt_values rest with
          | Raise e => Raise e
          | Ok rest' => Ok ((k, v') :: rest')
          end
      end
  end.

(** The first NOT NULL column that a list of assignments sets to NULL. *)
Definition null_violation (not_null : list string)
           (kvs : list (string * pyval)) : option string :=
  fst <$> List.find
    (fun kv => mem (fst kv) not_null
               && match snd kv with VNone => true | _ => false end) kvs.

Definition integrity_error (msg : string) : exn :=
  mkExn "sqlite3.IntegrityError" msg.

(** [WHERE k = ? AND ...] on a row, given the bound parameters. *)
Definition where_holds (cond : list (string * pyval)) (row : dict) : bool :=
  forallb (fun kv => sql_eq (dict_get row (fst kv)) (snd kv)) cond.

(** [UPDATE table SET k = ?, ..., updated_at = CURRENT_TIMESTAMP WHERE
    c = ? AND ...].  The statement is prepared (an unknown column
    raises), its parameters are bound in order, then the rows are
    visited; of several assignments to one column the rightmost
    counts. *)
Definition sql_update (E : engine) (table : string)
           (columns not_null : list string) (assign : dict)
           (cond : list (string * pyval)) (rows : list dict)
  : result (list dict) :=
  match List.find (fun k => negb (mem k columns)) (fst <$> map_to_list assign) with
  | Some k => Raise (mkExn "sqlite3.OperationalError" ("no such column: " ++ k))
  | None =>
      match adapt_values (map_to_list assign) with
      | Raise e => Raise e
      | Ok bound =>
          match adapt_values cond with
          | Raise e => Raise e
          | Ok cond =>
              if existsb (where_holds cond) rows then
                match null_violation not_null bound with
                | Some k =>
                    Raise (integrity_error
                             ("NOT NULL constraint failed: " ++ table ++ "." ++ k))
                | None =>
                    Ok (map (fun row =>
                               if where_holds cond row
                               then <["updated_at" := VStr (CURRENT_TIMESTAMP E)]>
                                      (dict_update row (list_to_map bound))
                               else row) rows)
                end
              else Ok rows
          end
      end
  end.

(** [INSERT INTO table (k, ...) VALUES (?, ...)]: the row made of the
    bound values over the column defaults. *)
Definition sql_insert (table : string) (not_null : list string)
           (values : list (string * pyval)) (defaults : dict) : result dict :=
  match adapt_values values with
  | Raise e => Raise e
  | Ok bound =>
      match null_violation not_null bound with
      | Some k =>
          Raise (integrity_error
                   ("NOT NULL constraint failed: " ++ table ++ "." ++ k))
      | None => Ok (dict_update defaults (list_to_map bound))
      end
  end.

(** Two rows of a table carry the same non-NULL [id]. *)
Fixpoint has_duplicate_id (rows : list dict) : bool :=
  match rows with
  | [] => false
  | row :: rest =>
      existsb (fun r => sql_eq (dict_get r "id") (dict_get row "id")) rest
      || has_duplicate_id rest
  end.

Section WithEngine.

Variable E : engine.

Definition campaign_defaults : dict :=
  list_to_map
    [("status", VStr "pending");
     ("created_at", VStr (CURRENT_TIMESTAMP E));
     ("updated_at", VStr (CURRENT_TIMESTAMP E));
     ("completed_at", VNone);
     ("from_email", VNone);
     ("total_leads", VInt 0);
     ("validated_leads", VInt 0);
     ("enriched_leads", VInt 0);
     ("personalized_leads", VInt 0);
     ("campaign_created", VInt 0);
     ("error_message", VNone)].

(** The parameters [create_campaign] binds. *)
Definition campaign_values (campaign_id : pyval) (campaign_data : dict)
  : list (string * pyval) :=
  [("id", campaign_id);
   ("name", dict_get_or campaign_data "name" (VStr ""));
   ("business_type", dict_get_or campaign_data "business_type" (VStr ""));
   ("location", dict_get_or campaign_data "location" (VStr ""));
   ("max_results", dict_get_or campaign_data "max_results" (VInt 25));
   ("from_email", dict_get campaign_data "from_email");
   ("status", VStr "pending")].

(** [create_campaign]: the new table and the id it returns. *)
Definition create_campaign (campaign_data : dict) (d : db)
  : result (pyval * db) :=
  let campaign_id :=
    if truthy (dict_get campaign_data "id") then dict_get campaign_data "id"
    else VStr ("campaign_" ++ now_compact E) in
  match sql_insert "campaigns" campaign_not_null
          (campaign_values campaign_id campaign_data) campaign_defaults with
  | Raise e => Raise e
  | Ok row =>
      if existsb (fun r => sql_eq (dict_get r "id") (dict_get row "id"))
                 (campaigns d)
      then Raise (integrity_error "UNIQUE constraint failed: campaigns.id")
      else
        Ok (campaign_id,
            mkDb (campaigns d ++ [row]) (leads d) (pipeline_runs d)
                 (leads_seq d) (pipeline_runs_seq d))
  end.

(** [update_campaign] *)
Definition update_campaign (campaign_id : pyval) (updates : dict) (d : db)
  : result db :=
  if bool_decide (updates = ∅) then Ok d
  else
    match sql_update E "campaigns" campaign_columns campaign_not_null
            updates [("id", campaign_id)] (campaigns d) with
    | Raise e => Raise e
    | Ok rows =>
        if match updates !! "id" with
           | Some _ => has_duplicate_id rows
           | None => false
           end
        then Raise (integrity_error "UNIQUE constraint failed: campaigns.id")
        else Ok (mkDb rows (leads d) (pipeline_runs d)
                      (leads_seq d) (pipeline_runs_seq d))
    end.

Definition lead_defaults (id : Z) : dict :=
  list_to_map
    [("id", VInt id);
     ("status", VStr "new");
     ("email_valid", VInt 0);
     ("phone_valid", VInt 0);
     ("company_valid", VInt 0);
     ("linkedin_profile", VNone);
     ("research_data", VNone);
     ("personalized_message", VNone);
     ("created_at", VStr (CURRENT_TIMESTAMP E));
     ("updated_at", VStr (CURRENT_TIMESTAMP E))].

(** The loop of [insert_leads]: rows appended so far and the last id
    given. *)
Fixpoint insert_lead_rows (campaign_id : pyval) (new_leads : list dict)
         (rows : list dict) (seq : Z) : result (list dict * Z) :=
  match new_leads with
  | [] => Ok (rows, seq)
  | lead :: rest =>
      match sql_insert "leads" lead_not_null
              [("campaign_id", campaign_id);
               ("place_id", dict_get lead "place_id");
               ("name", dict_get_or lead "name" (VStr ""));
               ("address", dict_get lead "address");
               ("city", dict_get lead "city");
               ("state", dict_get lead "state");
               ("postal_code", dict_get lead "postal_code");
               ("country", dict_get lead "country");
               ("phone", dict_get lead "phone");
               ("email", dict_get lead "email");
               ("website", dict_get lead "website");
               ("category", dict_get lead "category");
               ("rating", dict_get lead "rating");
               ("reviews_count", dict_get lead "reviews_count");
               ("latitude", dict_get lead "latitude");
               ("longitude", dict_get lead "longitude");
               ("status", VStr "new")]
              (lead_defaults (seq + 1)) with
      | Raise e => Raise e
      | Ok row => insert_lead_rows campaign_id rest (rows ++ [row]) (seq + 1)
      end
  end.

(** [insert_leads] *)
Definition insert_leads (campaign_id : pyval) (new_leads : list dict) (d : db)
  : result db :=
  match new_leads with
  | [] => Ok d
  | _ =>
      match insert_lead_rows campaign_id new_leads (leads d) (leads_seq d) with
      | Raise e => Raise e
      | Ok (rows, seq) =>
          Ok (mkDb (campaigns d) rows (pipeline_runs d) seq (pipeline_runs_seq d))
      end
  end.

(** The JSON columns of a row read back, column by column. *)
Fixpoint parse_json_fields (fields : list string) (lead : dict) : result dict :=
  match fields with
  | [] => Ok lead
  | field :: rest =>
      if truthy (dict_get lead field) then
        match dict_get lead field with
        | VStr s =>
            parse_json_fields rest
              (<[field := default VNone (json_loads E s)]> lead)
        | v =>
            Raise (mkExn "TypeError"
                     ("the JSON object must be str, bytes or bytearray, not "
                      ++ type_name v))
        end
      else parse_json_fields rest lead
  end.

Fixpoint parse_rows (rows : list dict) : result (list dict) :=
  match rows with
  | [] => Ok []
  | row :: rest =>
      match parse_json_fields json_fields row with
      | Raise e => Raise e
      | Ok lead =>
          match parse_rows rest with
          | Raise e => Raise e
          | Ok leads => Ok (lead :: leads)
          end
      end
  end.

(** [get_leads_by_campaign(campaign_id, status)]; [status] is [VNone]
    when the caller leaves it out.  The table is kept in [id] order. *)
Definition get_leads_by_campaign (campaign_id status : pyval) (d : db)
  : result (list dict) :=
  let cond :=
    if truthy status
    then [("campaign_id", campaign_id); ("status", status)]
    else [("campaign_id", campaign_id)] in
  match adapt_values cond with
  | Raise e => Raise e
  | Ok cond => parse_rows (List.filter (where_holds cond) (leads d))
  end.

(** The values [update_leads_batch] binds for one entry, once its
    ['id'] is taken out. *)
Definition processed_updates (update : dict) : dict :=
  map_imap
    (fun key value =>
       Some (if mem key json_fields
                && negb match value with VNone => true | _ => false end
             then VStr (json_dumps E value)
             else value))
    update.

(** The loop of [update_leads_batch]. *)
Fixpoint update_lead_rows (campaign_id : pyval) (updates : list dict)
         (rows : list dict) : result (list dict) :=
  match updates with
  | [] => Ok rows
  | update :: rest =>
      let lead_id := dict_get update "id" in
      let update := delete "id" update in
      if negb (truthy lead_id) then update_lead_rows campaign_id rest rows
      else
        if bool_decide (processed_updates update = ∅)
        then update_lead_rows campaign_id rest rows
        else
          match sql_update E "leads" lead_columns lead_not_null
                  (processed_updates update)
                  [("id", lead_id); ("campaign_id", campaign_id)] rows with
          | Raise e => Raise e
          | Ok rows' => update_lead_rows campaign_id rest rows'
          end
  end.

(** [update_leads_batch] *)
Definition update_leads_batch (campaign_id : pyval) (updates : list dict)
           (d : db) : result db :=
  match updates with
  | [] => Ok d
  | _ =>
      match update_lead_rows campaign_id updates (leads d) with
      | Raise e => Raise e
      | Ok rows =>
          Ok (mkDb (campaigns d) rows (pipeline_runs d)
                   (leads_seq d) (pipeline_runs_seq d))
      end
  end.

Definition of_option {A} (f : A -> pyval) (o : option A) : pyval :=
  from_option f VNone o.

(** [record_pipeline_run] *)
Definition record_pipeline_run (campaign_id : pyval) (stage status : string)
           (duration : option Q) (processed success errors : Z)
           (error_message : option string) (d : db) : result db :=
  match sql_insert "pipeline_runs" ["campaign_id"; "stage"; "status"]
          [("campaign_id", campaign_id);
           ("stage", VStr stage);
           ("status", VStr status);
           ("completed_at",
            if String.eqb status "completed" then VStr (now_stored E) else VNone);
           ("duration_seconds", of_option VFloat duration);
           ("processed_count", VInt processed);
           ("success_count", VInt success);
           ("error_count", VInt errors);
           ("error_message", of_option VStr error_message)]
          (list_to_map
             [("id", VInt (pipeline_runs_seq d + 1));
              ("started_at", VStr (CURRENT_TIMESTAMP E))]) with
  | Raise e => Raise e
  | Ok row =>
      Ok (mkDb (campaigns d) (leads d) (pipeline_runs d ++ [row])
               (leads_seq d) (pipeline_runs_seq d + 1))
  end.

(** [SUM(CASE WHEN p THEN 1 ELSE 0 END)]: NULL over no row. *)
Definition sum_case (p : dict -> bool) (rows : list dict) : pyval :=
  match rows with
  | [] => VNone
  | _ => VInt (Z.of_nat (length (List.filter p rows)))
  end.

Definition not_null (k : string) (row : dict) : bool :=
  match dict_get row k with VNone => false | _ => true end.

(** The lead statistics of [get_campaign_stats]: the ['leads'] entry
    of its result, the one the orchestrator reads.  The ['campaign']
    and ['pipeline_runs'] entries are left out. *)
Definition get_campaign_stats (campaign_id : pyval) (d : db) : result adict :=
  match adapt_values [("id", campaign_id)] with
  | Raise e => Raise e
  | Ok cond =>
      if negb (existsb (where_holds cond) (campaigns d)) then Ok []
      else
        match adapt_values [("campaign_id", campaign_id)] with
        | Raise e => Raise e
        | Ok cond =>
            let rows := List.filter (where_holds cond) (leads d) in
            Ok [("leads",
                 VDict
                   [("total_leads", VInt (Z.of_nat (length rows)));
                    ("valid_emails",
                     sum_case (fun r => sql_eq (dict_get r "email_valid") (VInt 1)) rows);
                    ("valid_phones",
                     sum_case (fun r => sql_eq (dict_get r "phone_valid") (VInt 1)) rows);
                    ("enriched_leads", sum_case (not_null "linkedin_profile") rows);
                    ("researched_leads", sum_case (not_null "research_data") rows);
                    ("personalized_leads",
                     sum_case (not_null "personalized_message") rows)])]
        end
  end.



(** [cleanup_old_campaigns]: the number of campaigns deleted and the new
    tables.  [datetime_now k m] is the value of SQL [datetime('now', m)]
    in the [k]-th of the three statements. *)
Definition cleanup_old_campaigns (datetime_now : nat -> string -> pyval)
           (days_old : Z) (d : db) : Z * db :=
  let modifier := "-" ++ pretty days_old ++ " days" in
  let old (k : nat) (campaign : dict) : bool :=
    sql_lt (dict_get campaign "created_at") (datetime_now k modifier) in
  let of_old (k : nat) (row : dict) : bool :=
    existsb (fun campaign =>
               old k campaign
               && sql_eq (dict_get row "campaign_id") (dict_get campaign "id"))
            (campaigns d) in
  let runs := List.filter (fun r => negb (of_old 0%nat r)) (pipeline_runs d) in
  let rows := List.filter (fun r => negb (of_old 1%nat r)) (leads d) in
  let kept := List.filter (fun c => negb (old 2%nat c)) (campaigns d) in
  (Z.of_nat (length (campaigns d)) - Z.of_nat (length kept),
   mkDb kept rows runs (leads_seq d) (pipeline_runs_seq d)).

End WithEngine.

End Store.

(** ** Pipeline orchestrator ([leads/pipeline_orchestrator.py]) *)

Module Orchestrator.

Import Store.

(** The stage flags of [LeadPipelineConfig]. *)
Record config : Type := mkConfig {
  enable_validation : bool;
  enable_linkedin_enrichment : bool;
  enable_research : bool;
  enable_personalization : bool
}.

(** What the orchestrator takes from outside. *)
Record collaborators : Type := mkCollaborators {
  (** [GooglePlacesScraper.search_businesses(query, location, max_results)] *)
  search_businesses : string -> string -> Z -> result (list dict);
  (** [LeadExporter.export_leads(leads, filename, format='csv')] *)
  export_leads : list dict -> string -> result string;
  (** the services of the validator *)
  services : Validator.services;
  (** [time.time() - start_time] *)
  elapsed : Q;
  (** [datetime.now().isoformat()] *)
  now_iso : string;
  (** [str(v)] of a value that is not a string *)
  format_other : pyval -> string
}.

(** The state a run works on: the store and the "Step" lines
    [run_complete_pipeline] has logged, oldest first. *)
Record world : Type := mkWorld {
  store : db;
  log : list string
}.

(** Computations that read and write the world and may raise. *)
Definition M (A : Type) : Type := world -> world * result A.

Definition ret {A} (a : A) : M A := fun w => (w, Ok a).

Definition raise {A} (e : exn) : M A := fun w => (w, Raise e).

Definition bind {A B} (m : M A) (k : A -> M B) : M B :=
  fun w =>
    match m w with
    | (w', Ok a) => k a w'
    | (w', Raise e) => (w', Raise e)
    end.

(** [try: m  except Exception as e: handler(e)] *)
Definition try_except {A} (m : M A) (handler : exn -> M A) : M A :=
  fun w =>
    match m w with
    | (w', Ok a) => (w', Ok a)
    | (w', Raise e) => handler e w'
    end.

(** A value or an exception computed without touching the world. *)
Definition lift {A} (r : result A) : M A := fun w => (w, r).

(** A store method that returns nothing. *)
Definition db_write (op : db -> result db) : M unit :=
  fun w =>
    match op (store w) with
    | Ok d => (mkWorld d (log w), Ok tt)
    | Raise e => (w, Raise e)
    end.

(** A store method that returns a value and leaves the store alone. *)
Definition db_read {A} (op : db -> result A) : M A :=
  fun w => (w, op (store w)).

(** [logger.info(line)] for a "Step" line. *)
Definition logger_info (line : string) : M unit :=
  fun w => (mkWorld (store w) (log w ++ [line]), Ok tt).

Declare Scope pipeline_scope.
Delimit Scope pipeline_scope with pipeline.
Notation "x <- m ;; k" := (bind m (fun x => k))
  (at level 100, m at next level, right associativity) : pipeline_scope.
Notation "m ;; k" := (bind m (fun _ => k))
  (at level 100, right associativity) : pipeline_scope.
Local Open Scope pipeline_scope.

(** [when flag: m] *)
Definition when (flag : bool) (m : M unit) : M unit :=
  if flag then m else ret tt.

(** [str(v)], as an f-string renders it. *)
Definition py_format (C : collaborators) (v : pyval) : string :=
  match v with
  | VStr s => s
  | _ => format_other C v
  end.

(** [d[k]] *)
Definition dict_index (d : dict) (k : string) : result pyval :=
  match d !! k with
  | Some v => Ok v
  | None => Raise (mkExn "KeyError" ("'" ++ k ++ "'"))
  end.

(** [[f(x) for x in xs]] where [f] may raise. *)
Fixpoint map_result {A B} (f : A -> result B) (xs : list A) : result (list B) :=
  match xs with
  | [] => Ok []
  | x :: rest =>
      match f x with
      | Raise e => Raise e
      | Ok y =>
          match map_result f rest with
          | Raise e => Raise e
          | Ok ys => Ok (y :: ys)
          end
      end
  end.

(** [d.get(k, dflt)] on an insertion-ordered dictionary. *)
Fixpoint adict_get_or (d : adict) (k : string) (dflt : pyval) : pyval :=
  match d with
  | [] => dflt
  | (k', v) :: d' => if String.eqb k k' then v else adict_get_or d' k dflt
  end.

Section WithCollaborators.

Variable cfg : config.
Variable E : engine.
Variable C : collaborators.

(** [_create_campaign] *)
Definition _create_campaign (business_type location : string) (max_results : Z)
           (campaign_name from_email : option string) : M pyval :=
  let campaign_data : dict :=
    list_to_map
      [("name",
        if truthy (of_option VStr campaign_name) then of_option VStr campaign_name
        else VStr (business_type ++ " in " ++ location));
       ("business_type", VStr business_type);
       ("location", VStr location);
       ("max_results", VInt max_results);
       ("from_email", of_option VStr from_email)] in
  fun w =>
    match create_campaign E campaign_data (store w) with
    | Ok (campaign_id, d) => (mkWorld d (log w), Ok campaign_id)
    | Raise e => (w, Raise e)
    end.

(** [_scrape_businesses] *)
Definition _scrape_businesses (campaign_id : pyval)
           (business_type location : string) (max_results : Z)
  : M (list dict) :=
  try_except
    (businesses <- lift (search_businesses C business_type location max_results) ;;
     db_write (record_pipeline_run E campaign_id "scraping" "completed" None
                 (Z.of_nat (length businesses)) (Z.of_nat (length businesses))
                 0 None) ;;
     ret businesses)
    (fun e =>
       db_write (record_pipeline_run E campaign_id "scraping" "failed" None
                   0 0 0 (Some (str_of_exn e))) ;;
       raise e).

(** The update [_validate_leads] writes for one validated lead. *)
Definition validation_update (lead : dict) : result dict :=
  match dict_index lead "id" with
  | Raise e => Raise e
  | Ok id =>
      Ok (list_to_map
            [("id", id);
             ("email_valid", dict_get_or lead "email_valid" (VBool false));
             ("phone_valid", dict_get_or lead "phone_valid" (VBool false));
             ("company_valid", dict_get_or lead "company_valid" (VBool false));
             ("status", VStr "validated")])
  end.

(** [_validate_leads] *)
Definition _validate_leads (campaign_id : pyval) : M unit :=
  leads <- db_read (get_leads_by_campaign E campaign_id VNone) ;;
  match leads with
  | [] => ret tt
  | _ =>
      try_except
        (validated_leads <-
           lift (Validator.validate_leads_batch (services C) leads) ;;
         updates <- lift (map_result validation_update validated_leads) ;;
         db_write (update_leads_batch E campaign_id updates) ;;
         let valid_leads :=
           Validator.count_where (Validator.flag "email_valid") validated_leads in
         db_write (update_campaign E campaign_id
                     {["validated_leads" := VInt valid_leads]}) ;;
         db_write (record_pipeline_run E campaign_id "validation" "completed"
                     (Some (elapsed C)) (Z.of_nat (length leads))
                     (Z.of_nat (length validated_leads)) 0 None))
        (fun e =>
           db_write (record_pipeline_run E campaign_id "validation" "failed"
                       (Some (elapsed C)) 0 0 0 (Some (str_of_exn e))) ;;
           raise e)
  end.

(** The update [_enrich_linkedin_profiles] writes for one lead. *)
Definition enrichment_update (lead : dict) : result dict :=
  let linkedin_profile :=
    [("inferred", VBool true);
     ("company_name", dict_get_or lead "name" (VStr ""));
     ("industry", dict_get_or lead "category" (VStr ""));
     ("location", dict_get_or lead "city" (VStr ""));
     ("confidence_score", VFloat (7 # 10));
     ("profile_url", VNone)] in
  match dict_index lead "id" with
  | Raise e => Raise e
  | Ok id =>
      Ok (list_to_map
            [("id", id);
             ("linkedin_profile", VDict linkedin_profile);
             ("status", VStr "enriched")])
  end.

(** [_enrich_linkedin_profiles] *)
Definition _enrich_linkedin_profiles (campaign_id : pyval) : M unit :=
  leads <- db_read (get_leads_by_campaign E campaign_id (VStr "validated")) ;;
  match leads with
  | [] => ret tt
  | _ =>
      try_except
        (updates <- lift (map_result enrichment_update leads) ;;
         db_write (update_leads_batch E campaign_id updates) ;;
         db_write (update_campaign E campaign_id
                     {["enriched_leads" := VInt (Z.of_nat (length updates))]}) ;;
         db_write (record_pipeline_run E campaign_id "linkedin_enrichment"
                     "completed" (Some (elapsed C)) (Z.of_nat (length leads))
                     (Z.of_nat (length updates)) 0 None))
        (fun e =>
           db_write (record_pipeline_run E campaign_id "linkedin_enrichment"
                       "failed" (Some (elapsed C)) 0 0 0 (Some (str_of_exn e))) ;;
           raise e)
  end.

(** The update [_research_companies] writes for one lead. *)
Definition research_update (lead : dict) : result dict :=
  let research_data :=
    [("company_overview",
      VStr ("Research overview for "
            ++ py_format C (dict_get_or lead "name" (VStr "Unknown Company"))));
     ("industry_insights",
      VStr ("Industry insights for "
            ++ py_format C (dict_get_or lead "category" (VStr "Unknown Industry"))));
     ("key_challenges",
      VList [VStr "Market competition"; VStr "Digital transformation";
             VStr "Customer acquisition"]);
     ("recent_news", VList [VStr "Recent expansion"; VStr "New product launch"]);
     ("research_timestamp", VStr (now_iso C));
     ("confidence_score", VFloat (8 # 10))] in
  match dict_index lead "id" with
  | Raise e => Raise e
  | Ok id =>
      Ok (list_to_map
            [("id", id);
             ("research_data", VDict research_data);
             ("status", VStr "researched")])
  end.

(** [_research_companies] *)
Definition _research_companies (campaign_id : pyval) : M unit :=
  leads <- db_read (get_leads_by_campaign E campaign_id (VStr "enriched")) ;;
  match leads with
  | [] => ret tt
  | _ =>
      try_except
        (updates <- lift (map_result research_update leads) ;;
         db_write (update_leads_batch E campaign_id updates) ;;
         db_write (record_pipeline_run E campaign_id "research" "completed"
                     (Some (elapsed C)) (Z.of_nat (length leads))
                     (Z.of_nat (length updates)) 0 None))
        (fun e =>
           db_write (record_pipeline_run E campaign_id "research" "failed"
                       (Some (elapsed C)) 0 0 0 (Some (str_of_exn e))) ;;
           raise e)
  end.

Definition nl : string := String "010"%char EmptyString.

(** The update [_personalize_messages] writes for one lead. *)
Definition personalization_update (lead : dict) : result dict :=
  let personalized_message :=
    [("subject",
      VStr ("Partnership opportunity for "
            ++ py_format C (dict_get_or lead "name" (VStr "your company"))));
     ("message",
      VStr ("Hello," ++ nl ++ "                    " ++ nl
            ++ "I noticed "
            ++ py_format C (dict_get_or lead "name" (VStr "your company"))
            ++ " in "
            ++ py_format C (dict_get_or lead "city" (VStr "your area"))
            ++ " and was impressed by your work in "
            ++ py_format C (dict_get_or lead "category" (VStr "your industry"))
            ++ "." ++ nl ++ nl
            ++ "Based on our research, I believe there could be a valuable partnership opportunity that could help address some of the common challenges in your industry."
            ++ nl ++ nl
            ++ "Would you be open to a brief conversation to explore this further?"
            ++ nl ++ nl
            ++ "Best regards," ++ nl
            ++ "[Your Name]"));
     ("template_used", VStr "professional");
     ("personalization_elements",
      VDict [("company_name", dict_get lead "name");
             ("location", dict_get lead "city");
             ("industry", dict_get lead "category")]);
     ("created_at", VStr (now_iso C))] in
  match dict_index lead "id" with
  | Raise e => Raise e
  | Ok id =>
      Ok (list_to_map
            [("id", id);
             ("personalized_message", VDict personalized_message);
             ("status", VStr "personalized")])
  end.

(** [_personalize_messages] *)
Definition _personalize_messages (campaign_id : pyval) : M unit :=
  leads <- db_read (get_leads_by_campaign E campaign_id (VStr "researched")) ;;
  match leads with
  | [] => ret tt
  | _ =>
      try_except
        (updates <- lift (map_result personalization_update leads) ;;
         db_write (update_leads_batch E campaign_id updates) ;;
         db_write (update_campaign E campaign_id
                     {["personalized_leads" := VInt (Z.of_nat (length updates))]}) ;;
         db_write (record_pipeline_run E campaign_id "personalization"
                     "completed" (Some (elapsed C)) (Z.of_nat (length leads))
                     (Z.of_nat (length updates)) 0 None))
        (fun e =>
           db_write (record_pipeline_run E campaign_id "personalization"
                       "failed" (Some (elapsed C)) 0 0 0 (Some (str_of_exn e))) ;;
           raise e)
  end.

(** One lead flattened for the export. *)
Definition flattened (lead : dict) : dict :=
  list_to_map
    [("campaign_id", dict_get lead "campaign_id");
     ("name", dict_get lead "name");
     ("address", dict_get lead "address");
     ("city", dict_get lead "city");
     ("state", dict_get lead "state");
     ("phone", dict_get lead "phone");
     ("email", dict_get lead "email");
     ("website", dict_get lead "website");
     ("category", dict_get lead "category");
     ("rating", dict_get lead "rating");
     ("reviews_count", dict_get lead "reviews_count");
     ("status", dict_get lead "status");
     ("email_valid", dict_get lead "email_valid");
     ("phone_valid", dict_get lead "phone_valid");
     ("company_valid", dict_get lead "company_valid");
     ("linkedin_enriched", VBool (truthy (dict_get lead "linkedin_profile")));
     ("research_completed", VBool (truthy (dict_get lead "research_data")));
     ("message_personalized",
      VBool (truthy (dict_get lead "personalized_message")))].

(** [_export_results] *)
Definition _export_results (campaign_id : pyval) : M string :=
  leads <- db_read (get_leads_by_campaign E campaign_id VNone) ;;
  let export_data := map flattened leads in
  let filename :=
    "leads_" ++ py_format C campaign_id ++ "_" ++ now_compact E in
  lift (export_leads C export_data filename).

Definition step1 : string := "Step 1: Scraping businesses with Google Places API".
Definition step2 : string := "Step 2: Storing initial leads in database".
Definition step3 : string := "Step 3: Validating leads".
Definition step4 : string := "Step 4: LinkedIn profile inference".
Definition step5 : string := "Step 5: AI company research".
Definition step6 : string := "Step 6: Personalizing messages".
Definition step7 : string := "Step 7: Exporting results".

(** The [try] block of [run_complete_pipeline]. *)
Definition pipeline_body (campaign_id : pyval)
           (business_type location : string) (max_results : Z) : M adict :=
  db_write (update_campaign E campaign_id {["status" := VStr "running"]}) ;;
  logger_info step1 ;;
  businesses <- _scrape_businesses campaign_id business_type location max_results ;;
  match businesses with
  | [] => raise (mkExn "Exception" "No businesses found")
  | _ =>
      logger_info step2 ;;
      db_write (insert_leads E campaign_id businesses) ;;
      db_write (update_campaign E campaign_id
                  {["total_leads" := VInt (Z.of_nat (length businesses))]}) ;;
      when (enable_validation cfg)
           (logger_info step3 ;; _validate_leads campaign_id) ;;
      when (enable_linkedin_enrichment cfg)
           (logger_info step4 ;; _enrich_linkedin_profiles campaign_id) ;;
      when (enable_research cfg)
           (logger_info step5 ;; _research_companies campaign_id) ;;
      when (enable_personalization cfg)
           (logger_info step6 ;; _personalize_messages campaign_id) ;;
      logger_info step7 ;;
      csv_file <- _export_results campaign_id ;;
      final_stats <- db_read (get_campaign_stats campaign_id) ;;
      db_write (update_campaign E campaign_id
                  (<["status" := VStr "completed"]>
                     {["completed_at" := VStr (now_iso C)]})) ;;
      let lead_stats :=
        match adict_get_or final_stats "leads" (VDict []) with
        | VDict d => d
        | _ => []
        end in
      ret [("campaign_id", campaign_id);
           ("status", VStr "completed");
           ("execution_time", VFloat (elapsed C));
           ("total_leads", VInt (Z.of_nat (length businesses)));
           ("validated_leads", adict_get_or lead_stats "valid_emails" (VInt 0));
           ("enriched_leads", adict_get_or lead_stats "enriched_leads" (VInt 0));
           ("csv_export", VStr csv_file);
           ("stats", VDict final_stats)]
  end.

(** [run_complete_pipeline] *)
Definition run_complete_pipeline (business_type location : string)
           (max_results : Z) (campaign_name from_email : option string)
  : M adict :=
  campaign_id <- _create_campaign business_type location max_results
                   campaign_name from_email ;;
  try_except
    (pipeline_body campaign_id business_type location max_results)
    (fun e =>
       db_write (update_campaign E campaign_id
                   (<["status" := VStr "failed"]>
                      {["error_message" := VStr (str_of_exn e)]})) ;;
       raise e).

End WithCollaborators.

(** The stages of the pipeline. *)
Inductive stage : Type :=
| Scrape | Validate | Enrich | Research | Personalize | Export.

(** The stage a "Step" line announces. *)
Definition stage_of_step (line : string) : option stage :=
  if String.eqb line step1 then Some Scrape
  else if String.eqb line step3 then Some Validate
  else if String.eqb line step4 then Some Enrich
  else if String.eqb line step5 then Some Research
  else if String.eqb line step6 then Some Personalize
  else if String.eqb line step7 then Some Export
  else None.

(** The stages a log shows as attempted, in order. *)
Definition stages_attempted (lines : list string) : list stage :=
  omap stage_of_step lines.

End Orchestrator.

(** ** Text helpers ([utils.py]) *)

Module Utils.

(** [re.sub('[...]', rep, s)] for a class of single characters. *)
Fixpoint sub_class (p : ascii -> bool) (rep : string) (s : string) : string :=
  match s with
  | EmptyString => EmptyString
  | String c r =>
      if p c then rep ++ sub_class p rep r else String c (sub_class p rep r)
  end.

(** [re.sub('\s+', rep, s)]; [in_run] says that the character before
    was whitespace, already replaced. *)
Fixpoint sub_spaces_from (in_run : bool) (rep : string) (s : string) : string :=
  match s with
  | EmptyString => EmptyString
  | String c r =>
      if PyStr.is_space c then
        if in_run then sub_spaces_from true rep r
        else rep ++ sub_spaces_from true rep r
      else String c (sub_spaces_from false rep r)
  end.

Definition sub_spaces (rep : string) (s : string) : string :=
  sub_spaces_from false rep s.

Fixpoint lstrip_chars (p : ascii -> bool) (s : string) : string :=
  match s with
  | EmptyString => EmptyString
  | String c r => if p c then lstrip_chars p r else s
  end.

Fixpoint rstrip_chars (p : ascii -> bool) (s : string) : string :=
  match s with
  | EmptyString => EmptyString
  | String c r =>
      let r' := rstrip_chars p r in
      if p c && String.eqb r' "" then EmptyString else String c r'
  end.

(** [s.strip(chars)], for the characters that satisfy [p]. *)
Definition strip_chars (p : ascii -> bool) (s : string) : string :=
  rstrip_chars p (lstrip_chars p s).

Definition quote : ascii := "034"%char.

(** The class of [clean_filename]: the characters less-than,
    greater-than, colon, double quote, slash, backslash, bar, question
    mark and star. *)
Definition unsafe_char (c : ascii) : bool :=
  Ascii.eqb c "<" || Ascii.eqb c ">" || Ascii.eqb c ":" || Ascii.eqb c quote
  || Ascii.eqb c "/" || Ascii.eqb c "\" || Ascii.eqb c "|" || Ascii.eqb c "?"
  || Ascii.eqb c "*".

(** [clean_filename] *)
Definition clean_filename (filename : string) : string :=
  if String.eqb filename "" then "output"
  else
    let filename := sub_class unsafe_char "_" filename in
    let filename := sub_spaces "_" filename in
    let filename :=
      strip_chars (fun c => Ascii.eqb c "." || Ascii.eqb c "_") filename in
    let filename :=
      if 100 <? PyStr.len filename then PyStr.take 100 filename else filename in
    if String.eqb filename "" then "output" else filename.



(** [s.replace(old, new)] for a single character [old]. *)
Definition replace_char (old : ascii) (new : string) (s : string) : string :=
  sub_class (Ascii.eqb old) new s.

(** [c in s] *)
Fixpoint contains (c : ascii) (s : string) : bool :=
  match s with
  | EmptyString => false
  | String c' r => Ascii.eqb c c' || contains c r
  end.

(** [sanitize_for_csv], on a string. *)
Definition sanitize_for_csv (text : string) : string :=
  if String.eqb text "" then ""
  else
    let text := replace_char "013"%char " " (replace_char "010"%char " " text) in
    let text := sub_spaces " " (PyStr.strip text) in
    if contains quote text
    then replace_char quote (String quote (String quote EmptyString)) text
    else text.

End Utils.

(** ** Configuration ([config.py], class LeadPipelineConfig) *)

Module Config.

(** The fields of [LeadPipelineConfig] that its methods read or write. *)
Record LeadPipelineConfig : Type := mkLeadPipelineConfig {
  google_places_api_key : string;
  perplexity_api_key : string;
  anthropic_api_key : string;
  instantly_api_key : string;
  linkedin_email : string;
  linkedin_password : string;
  max_leads : Z;
  enable_research : bool;
  enable_personalization : bool;
  enable_campaign_creation : bool;
  validation_workers : Z;
  research_workers : Z;
  personalization_workers : Z;
  instantly_from_email : string
}.

(** [os.getenv(name, default)] in the environment [env]. *)
Definition getenv (env : string -> option string) (name default : string)
  : string :=
  match env name with Some v => v | None => default end.

Definition nonempty (s : string) : bool := negb (String.eqb s "").

(** [__post_init__] *)
Definition __post_init__ (env : string -> option string)
           (self : LeadPipelineConfig) : LeadPipelineConfig :=
  let google := getenv env "GOOGLE_PLACES_API_KEY" (google_places_api_key self) in
  let perplexity := getenv env "PERPLEXITY_API_KEY" (perplexity_api_key self) in
  let anthropic := getenv env "ANTHROPIC_API_KEY" (anthropic_api_key self) in
  let instantly := getenv env "INSTANTLY_API_KEY" (instantly_api_key self) in
  let from_email := getenv env "INSTANTLY_FROM_EMAIL" (instantly_from_email self) in
  let email := getenv env "LINKEDIN_EMAIL" (linkedin_email self) in
  let password := getenv env "LINKEDIN_PASSWORD" (linkedin_password self) in
  mkLeadPipelineConfig google perplexity anthropic instantly email password
    (max_leads self) (enable_research self) (enable_personalization self)
    (if nonempty instantly && nonempty from_email then true
     else enable_campaign_creation self)
    (validation_workers self) (research_workers self)
    (personalization_workers self) from_email.

(** [errors.append(msg)] when [cond] holds. *)
Definition append_if (cond : bool) (msg : string) (errors : list string)
  : list string :=
  if cond then (errors ++ [msg])%list else errors.

(** [validate] *)
Definition validate (self : LeadPipelineConfig) : list string :=
  let errors := [] in
  let errors :=
    append_if (negb (nonempty (google_places_api_key self)))
      "Google Places API key is required" errors in
  let errors :=
    append_if (enable_research self && negb (nonempty (perplexity_api_key self)))
      "Perplexity API key is required for research" errors in
  let errors :=
    append_if (enable_personalization self
               && negb (nonempty (anthropic_api_key self)))
      "Anthropic API key is required for personalization" errors in
  let errors :=
    if enable_campaign_creation self then
      let errors :=
        append_if (negb (nonempty (instantly_api_key self)))
          "Instantly API key is required for campaign creation" errors in
      append_if (negb (nonempty (instantly_from_email self)))
        "From email is required for campaign creation" errors
    else errors in
  let errors :=
    append_if ((max_leads self <? 1) || (1000 <? max_leads self))
      "max_leads must be between 1 and 1000" errors in
  let errors :=
    append_if ((validation_workers self <? 1) || (20 <? validation_workers self))
      "validation_workers must be between 1 and 20" errors in
  let errors :=
    append_if ((research_workers self <? 1) || (10 <? research_workers self))
      "research_workers must be between 1 and 10" errors in
  append_if ((personalization_workers self <? 1)
             || (5 <? personalization_workers self))
    "personalization_workers must be between 1 and 5" errors.

(** [get_missing_configs] *)
Definition get_missing_configs (self : LeadPipelineConfig) : list string :=
  let missing := [] in
  let missing :=
    append_if (negb (nonempty (google_places_api_key self)))
      "GOOGLE_PLACES_API_KEY" missing in
  let missing :=
    append_if (enable_research self && negb (nonempty (perplexity_api_key self)))
      "PERPLEXITY_API_KEY" missing in
  let missing :=
    append_if (enable_personalization self
               && negb (nonempty (anthropic_api_key self)))
      "ANTHROPIC_API_KEY" missing in
  let missing :=
    append_if (enable_campaign_creation self
               && negb (nonempty (instantly_api_key self)))
      "INSTANTLY_API_KEY" missing in
  append_if (enable_campaign_creation self
             && negb (nonempty (instantly_from_email self)))
    "INSTANTLY_FROM_EMAIL" missing.

End Config.

(** ** Places search ([google_places_scraper.py], class GooglePlacesScraper) *)

Module Scraper.

(** What one text search request gives: the decoded reply, or an
    exception (of [requests], of [raise_for_status], of the decoding). *)
Inductive search_reply : Type :=
| SearchData (status : string) (results : list dict)
             (next_page_token : option string)
| SearchError.

(** [places[:n]] *)
Definition slice_to (n : Z) (places : list dict) : list dict :=
  if 0 <=? n then firstn (Z.to_nat n) places
  else firstn (Z.to_nat (Z.of_nat (length places) + n)) places.

Section WithSearch.

(** The reply to the [k]-th request of a search, made with the page
    token [token]. *)
Variable textsearch : nat -> option string -> search_reply.

(** The [while] loop of [_search_places] after [k] requests, for at most
    [fuel] more requests; [None] when the loop is still running after
    them. *)
Fixpoint search_loop (fuel : nat) (k : nat) (places : list dict)
         (next_page_token : option string) (max_results : Z)
  : option (list dict) :=
  if Z.of_nat (length places) <? max_results then
    match fuel with
    | O => None
    | S fuel' =>
        match textsearch k next_page_token with
        | SearchError => Some places
        | SearchData status results token =>
            if negb (String.eqb status "OK") then
              if String.eqb status "ZERO_RESULTS" then Some places
              else search_loop fuel' (S k) places next_page_token max_results
            else
              let places := (places ++ results)%list in
              match token with
              | Some t =>
                  if String.eqb t "" then Some places
                  else search_loop fuel' (S k) places (Some t) max_results
              | None => Some places
              end
        end
    end
  else Some places.

(** [_search_places], given [fuel] requests. *)
Definition _search_places (fuel : nat) (max_results : Z) : option (list dict) :=
  match search_loop fuel 0 [] None max_results with
  | Some places => Some (slice_to max_results places)
  | None => None
  end.

End WithSearch.

End Scraper.

(** ** API server ([api_server.py]) *)

Module Api.

Import Store Orchestrator.

(** [find_free_port]; [can_bind port] says whether [s.bind] returns
    rather than raises [OSError]. *)
Fixpoint try_ports (can_bind : Z -> bool) (port : Z) (count : nat) : result Z :=
  match count with
  | O => Raise (mkExn "RuntimeError" "No free ports available")
  | S count' =>
      if (port <? 0) || (65535 <? port)
      then Raise (mkExn "OverflowError" "bind(): port must be 0-65535.")
      else if can_bind port then Ok port
      else try_ports can_bind (port + 1) count'
  end.

Definition find_free_port (can_bind : Z -> bool) (start_port : Z) : result Z :=
  try_ports can_bind start_port 100.

(** The fields of [LeadGenerationRequest]. *)
Record LeadGenerationRequest : Type := mkLeadGenerationRequest {
  business_name : string;
  location : string;
  leads_count : Z;
  campaign_name : option string;
  from_email : option string;
  include_research : bool;
  include_personalization : bool
}.

(** The state of the server: the tasks it tracks and the world of its
    orchestrator. *)
Record server : Type := mkServer {
  active_tasks : gmap string dict;
  pipeline : world
}.

(** [active_tasks[task_id].update(u)] *)
Definition task_update (task_id : string) (u : dict) (tasks : gmap string dict)
  : result (gmap string dict) :=
  match tasks !! task_id with
  | Some task => Ok (<[task_id := dict_update task u]> tasks)
  | None => Raise (mkExn "KeyError" ("'" ++ task_id ++ "'"))
  end.

Section WithOrchestrator.

Variable cfg : config.
Variable E : engine.
Variable C : collaborators.

(** [run_pipeline_task], run to its end with no other request in
    between; [started] and [ended] are the times [datetime.now()] gives
    at its start and at its end. *)
Definition run_pipeline_task (started ended : string) (task_id : string)
           (request : LeadGenerationRequest) (s : server)
  : server * result unit :=
  let attempt : server * result unit :=
    match task_update task_id
            (list_to_map [("status", VStr "running");
                          ("progress", VInt 0);
                          ("current_step", VStr "Starting pipeline");
                          ("started_at", VStr started)])
            (active_tasks s) with
    | Raise e => (s, Raise e)
    | Ok tasks =>
        match run_complete_pipeline cfg E C (business_name request)
                (location request) (leads_count request)
                (Some ("API Campaign " ++ task_id)) (from_email request)
                (pipeline s) with
        | (w, Raise e) => (mkServer tasks w, Raise e)
        | (w, Ok results) =>
            match task_update task_id
                    (list_to_map [("status", VStr "completed");
                                  ("progress", VInt 100);
                                  ("current_step", VStr "Completed");
                                  ("results", VDict results);
                                  ("completed_at", VStr ended)])
                    tasks with
            | Raise e => (mkServer tasks w, Raise e)
            | Ok tasks' => (mkServer tasks' w, Ok tt)
            end
        end
    end in
  match attempt with
  | (s', Ok _) => (s', Ok tt)
  | (s', Raise e) =>
      match task_update task_id
              (list_to_map [("status", VStr "failed");
                            ("error_message", VStr (str_of_exn e));
                            ("completed_at", VStr ended)])
              (active_tasks s') with
      | Raise e' => (s', Raise e')
      | Ok tasks => (mkServer tasks (pipeline s'), Ok tt)
      end
  end.

End WithOrchestrator.

End Api.

(** * Vocabulary of the properties *)

Import Validator Store Orchestrator.
Local Open Scope list_scope.
Local Open Scope pipeline_scope.

(** ** Batch validator *)

(** The keys a validation may add to a lead or overwrite. *)
Definition annotation_keys : list string :=
  ["email_valid"; "email_validation_details"; "phone_valid";
   "phone_validation_details"; "company_valid"; "company_validation_details";
   "is_validated"; "validation_score"; "validation_error"].

(** What [validate_leads_batch] returns for one lead: the validated
    record, or the record that marks the failure. *)
Definition lead_outcome (W : Validator.services) (lead : dict) : dict :=
  match _validate_single_lead_async W lead with
  | Ok v => v
  | Raise e => failed_lead lead e
  end.




(** ** Store *)
(** ** Triples over the pipeline monad *)

(** From a world in [P], [m] ends in [Q] when it returns and in [R] when
    it raises. *)
Definition hoare {A} (P : world → Prop) (m : M A)
           (Q : A → world → Prop) (R : exn → world → Prop) : Prop :=
  ∀ w, P w →
    match m w with
    | (w', Ok a) => Q a w'
    | (w', Raise e) => R e w'
    end.

Definition preserves {A} (I : world → Prop) (m : M A) : Prop :=
  hoare I m (fun _ => I) (fun _ => I).

(** The entry carries an id, and it is the id of the row. *)
Definition names_row (update row : dict) : bool :=
  truthy (dict_get update "id")
  && match sql_adapt (dict_get update "id") with
     | Ok id => sql_eq (dict_get row "id") id
     | Raise _ => false
     end.

(** The row belongs to the campaign. *)
Definition in_campaign (campaign_id : pyval) (row : dict) : bool :=
  match sql_adapt campaign_id with
  | Ok cid => sql_eq (dict_get row "campaign_id") cid
  | Raise _ => false
  end.

(** A row of the campaign whose id some entry carries. *)
Definition targeted (campaign_id : pyval) (updates : list dict) (row : dict) : bool :=
  in_campaign campaign_id row && existsb (fun u => names_row u row) updates.


(** The common shape of the four stages that follow the scrape. *)
Record stage_plan : Type := mkPlan {
  plan_status : pyval;
  plan_name : string;
  (** the updates, the success count and the campaign counter to write *)
  plan_build : list dict → result (list dict * Z * option dict)
}.

Definition plan_attempt (E : engine) (C : collaborators) (p : stage_plan)
           (campaign_id : pyval) (leads : list dict) : M unit :=
  try_except
    (built <- lift (plan_build p leads) ;;
     db_write (update_leads_batch E campaign_id (fst (fst built))) ;;
     match snd built with
     | Some counter => db_write (update_campaign E campaign_id counter)
     | None => ret tt
     end ;;
     db_write (record_pipeline_run E campaign_id (plan_name p) "completed"
                 (Some (elapsed C)) (Z.of_nat (length leads))
                 (snd (fst built)) 0 None))
    (fun e =>
       db_write (record_pipeline_run E campaign_id (plan_name p) "failed"
                   (Some (elapsed C)) 0 0 0 (Some (str_of_exn e))) ;;
       raise e).

Definition run_plan (E : engine) (C : collaborators) (p : stage_plan)
           (campaign_id : pyval) : M unit :=
  leads <- db_read (get_leads_by_campaign E campaign_id (plan_status p)) ;;
  match leads with
  | [] => ret tt
  | _ => plan_attempt E C p campaign_id leads
  end.

Definition validation_plan (C : collaborators) : stage_plan :=
  mkPlan VNone "validation"
    (fun leads =>
       match Validator.validate_leads_batch (services C) leads with
       | Raise e => Raise e
       | Ok validated_leads =>
           match map_result validation_update validated_leads with
           | Raise e => Raise e
           | Ok updates =>
               Ok (updates, Z.of_nat (length validated_leads),
                   Some {["validated_leads" :=
                            VInt (Validator.count_where
                                    (Validator.flag "email_valid") validated_leads)]})
           end
       end).

Definition enrichment_plan : stage_plan :=
  mkPlan (VStr "validated") "linkedin_enrichment"
    (fun leads =>
       match map_result enrichment_update leads with
       | Raise e => Raise e
       | Ok updates =>
           Ok (updates, Z.of_nat (length updates),
               Some {["enriched_leads" := VInt (Z.of_nat (length updates))]})
       end).

Definition research_plan (C : collaborators) : stage_plan :=
  mkPlan (VStr "enriched") "research"
    (fun leads =>
       match map_result (research_update C) leads with
       | Raise e => Raise e
       | Ok updates => Ok (updates, Z.of_nat (length updates), None)
       end).

Definition personalization_plan (C : collaborators) : stage_plan :=
  mkPlan (VStr "researched") "personalization"
    (fun leads =>
       match map_result (personalization_update C) leads with
       | Raise e => Raise e
       | Ok updates =>
           Ok (updates, Z.of_nat (length updates),
               Some {["personalized_leads" := VInt (Z.of_nat (length updates))]})
       end).


(** Stages whose attempts the store records: all but the export. *)
Definition recorded (s : stage) : bool :=
  match s with Export => false | _ => true end.

Definition count_recorded (lines : list string) : Z :=
  Z.of_nat (length (List.filter recorded (stages_attempted lines))).

(** Since the world [(rs0, l0)]: rows appended to [pipeline_runs], lines
    appended to the log, and [k] more recorded stages announced than rows
    written. *)
Definition progress (rs0 : list dict) (l0 : list string) (k : Z) (w : world)
  : Prop :=
  ∃ new extra,
    pipeline_runs (store w) = rs0 ++ new ∧ log w = l0 ++ extra ∧
    Z.of_nat (length new) + k ≤ count_recorded extra.


(** The bound value, when the value can be bound. *)
Definition adapted (v : pyval) : option pyval :=
  match sql_adapt v with Ok v' => Some v' | Raise _ => None end.

(** A row after an [UPDATE] that binds [bound]. *)
Definition updated_row (E : engine) (bound : list (string * pyval)) (row : dict) : dict :=
  <["updated_at" := VStr (CURRENT_TIMESTAMP E)]> (dict_update row (list_to_map bound)).

(** ** Rows appended to [pipeline_runs] *)

Definition runs_are (rs : list dict) (l : list string) (w : world) : Prop :=
  pipeline_runs (store w) = rs ∧ log w = l.

Definition one_more_run (rs : list dict) (l : list string) (name : string)
           (w : world) : Prop :=
  log w = l ∧
  ∃ r, pipeline_runs (store w) = rs ++ [r] ∧ r !! "stage" = Some (VStr name).


Definition at_most_one_more_run (rs : list dict) (l : list string) (w : world)
  : Prop :=
  log w = l ∧
  (pipeline_runs (store w) = rs ∨ ∃ r, pipeline_runs (store w) = rs ++ [r]).

(** A computation that appends at most one row to [pipeline_runs] and
    nothing to the log, whether it returns or raises. *)
Definition writes_at_most_one_run {A} (m : M A) : Prop :=
  ∀ rs l, hoare (runs_are rs l) m
            (fun _ => at_most_one_more_run rs l)
            (fun _ => at_most_one_more_run rs l).



(** ** The campaign row of a run *)

Definition row_has (cols : list (string * pyval)) (row : dict) : Prop :=
  Forall (fun kv => row !! fst kv = Some (snd kv)) cols.

(** The campaigns table is [old] followed by the row of campaign [c],
    which holds the values [cols]. *)
Definition campaign_is (c : string) (old : list dict)
           (cols : list (string * pyval)) (w : world) : Prop :=
  ∃ row, campaigns (store w) = old ++ [row] ∧ row !! "id" = Some (VStr c) ∧
         row_has cols row.

(** Writing [u] to a row that holds [cols] gives a row that holds [cols']. *)
Definition sets (u : dict) (cols cols' : list (string * pyval)) : Prop :=
  Forall (fun kv =>
            fst kv ≠ "updated_at" ∧
            ((∃ v, u !! fst kv = Some v ∧ sql_adapt v = Ok (snd kv))
             ∨ (u !! fst kv = None ∧ kv ∈ cols))) cols'.

Definition other_campaigns (c : string) (old : list dict) : Prop :=
  Forall (fun r => sql_eq (dict_get r "id") (VStr c) = false) old.


(** What the campaign row holds from its creation to the end of the
    stages, when the run completes, and when it fails with [e]. *)
Definition cols_running (bt loc : string) : list (string * pyval) :=
  [("business_type", VStr bt); ("location", VStr loc); ("completed_at", VNone)].

Definition cols_completed (C : collaborators) (bt loc : string)
  : list (string * pyval) :=
  [("business_type", VStr bt); ("location", VStr loc);
   ("status", VStr "completed"); ("completed_at", VStr (now_iso C))].

Definition cols_failed (bt loc : string) (e : exn) : list (string * pyval) :=
  [("business_type", VStr bt); ("location", VStr loc); ("completed_at", VNone);
   ("status", VStr "failed"); ("error_message", VStr (str_of_exn e))].


(** The leads table is [ls] and the run has appended to [pipeline_runs]
    and to the log what [rows] and [lines] say. *)
Definition leads_are (ls : list dict) (w : world) : Prop :=
  leads (store w) = ls.

Definition no_businesses : exn := mkExn "Exception" "No businesses found".


(** ** The leads a stage works on *)

(** The row belongs to campaign [c] and, when a status is given, has
    that status: the rows [get_leads_by_campaign] selects. *)
Definition reads (c : string) (status : option string) (row : dict) : bool :=
  sql_eq (dict_get row "campaign_id") (VStr c)
  && match status with
     | Some st => sql_eq (dict_get row "status") (VStr st)
     | None => true
     end.

Definition status_arg (status : option string) : pyval :=
  match status with Some st => VStr st | None => VNone end.

(** The [id] column is an INTEGER PRIMARY KEY AUTOINCREMENT: every row has
    a positive integer id and no two rows share one. *)
Definition primary_key (rows : list dict) : Prop :=
  ∃ ids : list Z,
    Forall2 (fun row n => row !! "id" = Some (VInt n)) rows ids ∧ NoDup ids
    ∧ Forall (fun n => 0 < n) ids.

(** Every row outside the set a stage reads is where and as it was. *)
Definition untouched_outside (c : string) (status : option string)
           (rows : list dict) (w : world) : Prop :=
  length (leads (store w)) = length rows ∧
  ∀ i row, rows !! i = Some row → reads c status row = false →
           leads (store w) !! i = Some row.

(** The updates a plan builds carry the ids of the leads it was given. *)
Definition ids_from_leads (p : stage_plan) : Prop :=
  ∀ leads built,
    plan_build p leads = Ok built →
    Forall (fun u => ∃ lead, lead ∈ leads ∧ lead !! "id" = Some (dict_get u "id"))
           (fst (fst built)).

(** Every row the stage reads is in its place, with the id it had and
    the status [next]. *)
Definition moved_to (c : string) (status : option string) (next : string)
           (rows : list dict) (w : world) : Prop :=
  ∀ i row, rows !! i = Some row → reads c status row = true →
    ∃ row', leads (store w) !! i = Some row'
            ∧ row' !! "id" = row !! "id"
            ∧ row' !! "status" = Some (VStr next).

(** An update that sets the status [next] and leaves the campaign of
    the row alone. *)
Definition sets_status (next : string) (u : dict) : Prop :=
  u !! "status" = Some (VStr next) ∧ u !! "campaign_id" = None.

(** The plan builds, for each lead it was given, an update with the id
    of that lead, and every update it builds sets the status [next]. *)
Definition advances (p : stage_plan) (next : string) : Prop :=
  ∀ leads built,
    plan_build p leads = Ok built →
    Forall (sets_status next) (fst (fst built)) ∧
    ∀ lead, lead ∈ leads →
      ∃ u, u ∈ fst (fst built) ∧ lead !! "id" = Some (dict_get u "id").

(** A stage that finds leads to work on appends one row that bears its
    name, whether it completes or fails; a stage that finds none, or
    cannot read them, leaves the world as it was. *)
Definition records_attempt (E : engine) (c : string) (status : pyval)
           (name : string) (m : M unit) : Prop :=
  ∀ w,
    match get_leads_by_campaign E (VStr c) status (store w) with
    | Ok (_ :: _) =>
        one_more_run (pipeline_runs (store w)) (log w) name (fst (m w))
    | _ => fst (m w) = w
    end.

(** The id [create_campaign] gives a campaign. *)
Definition new_campaign_id (E : engine) : string :=
  "campaign_" ++ now_compact E.

(** ** Concrete worlds *)

Module Examples.

(** Every e-mail address and phone number is accepted by its library, no
    website answers. *)
Definition W0 : Validator.services :=
  mkServices
    (fun email => EmailOk (mkEmailInfo email "info" "example.com"
                                       email "info" "example.com"))
    (fun _ => true)
    (fun _ _ => PhoneParsed (mkPhoneInfo true true "+1 206-555-0100"
                                         "(206) 555-0100" "+12065550100"
                                         1 2065550100 FIXED_LINE_OR_MOBILE))
    (fun _ => HttpConnectionError)
    (fun _ => None).

Definition E0 : engine :=
  mkEngine "2024-01-01 00:00:00" "20240101_000000" "2024-01-01 00:00:00.000000"
           (fun _ => "{}") (fun _ => Some (VDict [])).

(** The search returns [found]; the export succeeds. *)
Definition C0 (found : list dict) : collaborators :=
  mkCollaborators (fun _ _ _ => Ok found) (fun _ filename => Ok (filename ++ ".csv")%string)
                  W0 1 "2024-01-01T00:00:00" (fun _ => "None").

Definition all_stages : config := mkConfig true true true true.

Definition empty_world : world := mkWorld (mkDb [] [] [] 0 0) [].

Definition acme : dict :=
  list_to_map [("name", VStr "Acme Corp"); ("email", VStr "info@example.com");
               ("phone", VStr "+1 206 555 0100")].

(** A record whose website is a number: its validation raises. *)
Definition numeric_website : dict :=
  list_to_map [("name", VStr "Acme Corp"); ("website", VInt 5)].

Definition no_phone : dict :=
  list_to_map [("name", VStr "Acme Corp"); ("email", VStr "info@example.com")].



Definition lead_row (id : Z) (campaign status : string) : dict :=
  list_to_map [("id", VInt id); ("campaign_id", VStr campaign);
               ("status", VStr status); ("name", VStr "Acme Corp");
               ("email", VStr "info@example.com");
               ("linkedin_profile", VNone); ("research_data", VNone);
               ("personalized_message", VNone)].

(** Campaign c1 has a validated lead and a new one, campaign c2 a
    validated one. *)
Definition two_campaigns : world :=
  mkWorld (mkDb [] [lead_row 1 "c1" "validated"; lead_row 2 "c1" "new";
                    lead_row 3 "c2" "validated"] [] 3 0) [].




End Examples.

(** ** Vocabulary of the further properties *)

(** AUTOINCREMENT: the last id handed out is not negative; every row has
    an integer id, positive and no larger than the last one handed out,
    and no two rows share one. *)
Definition autoincrement (rows : list dict) (seq : Z) : Prop :=
  0 ≤ seq ∧
  ∃ ids : list Z,
    Forall2 (fun row n => row !! "id" = Some (VInt n)) rows ids ∧ NoDup ids
    ∧ Forall (fun n => 0 < n ≤ seq) ids.

(** The keys of the three tables are in order. *)
Definition consistent (d : db) : Prop :=
  autoincrement (leads d) (leads_seq d) ∧
  autoincrement (pipeline_runs d) (pipeline_runs_seq d) ∧
  has_duplicate_id (campaigns d) = false.

(** Every key of the dictionary is a column, spelled as in the schema. *)
Definition keys_among (columns : list string) (u : dict) : Prop :=
  ∀ k, is_Some (u !! k) → k ∈ columns.

(** The property of a world that its store has the property [I]. *)
Definition on_store (I : db → Prop) (w : world) : Prop := I (store w).

(** A property of the store that its write methods keep. *)
Definition kept_by_writes (E : engine) (I : db → Prop) : Prop :=
  (∀ data cid d d', create_campaign E data d = Ok (cid, d') → I d → I d') ∧
  (∀ cid u d d', update_campaign E cid u d = Ok d' → I d → I d') ∧
  (∀ cid new d d', insert_leads E cid new d = Ok d' → I d → I d') ∧
  (∀ cid us d d', update_leads_batch E cid us d = Ok d' → I d → I d') ∧
  (∀ cid stage status dur p s e msg d d',
      record_pipeline_run E cid stage status dur p s e msg d = Ok d' → I d → I d').

(** *** Leads inserted and read back *)

(** The columns [insert_leads] copies from a lead as they are. *)
Definition copied_columns : list string :=
  ["place_id"; "address"; "city"; "state"; "postal_code"; "country"; "phone";
   "email"; "website"; "category"; "rating"; "reviews_count"; "latitude";
   "longitude"].

(** The row [insert_leads] stores for [lead] under the id [id]. *)
Definition stored_as (cid : pyval) (id : Z) (lead row : dict) : Prop :=
  row !! "id" = Some (VInt id) ∧
  row !! "campaign_id" = adapted cid ∧
  row !! "name" = adapted (dict_get_or lead "name" (VStr "")) ∧
  (∀ k, k ∈ copied_columns → row !! k = adapted (dict_get lead k)) ∧
  row !! "status" = Some (VStr "new") ∧
  row !! "email_valid" = Some (VInt 0) ∧
  row !! "phone_valid" = Some (VInt 0) ∧
  row !! "company_valid" = Some (VInt 0) ∧
  row !! "linkedin_profile" = Some VNone ∧
  row !! "research_data" = Some VNone ∧
  row !! "personalized_message" = Some VNone.

(** *** Cleaning up old campaigns *)

(** The row refers to a campaign of the list. *)
Definition refers_to (cs : list dict) (row : dict) : bool :=
  existsb (fun c => sql_eq (dict_get row "campaign_id") (dict_get c "id")) cs.

(** Every lead and every run refers to a campaign of the store. *)
Definition references_hold (d : db) : Prop :=
  Forall (fun row => refers_to (campaigns d) row = true) (leads d) ∧
  Forall (fun row => refers_to (campaigns d) row = true) (pipeline_runs d).

(** The campaign was created before [cutoff]. *)
Definition older_than (cutoff : pyval) (campaign : dict) : bool :=
  sql_lt (dict_get campaign "created_at") cutoff.

(** The three statements of a cleanup read the same time. *)
Definition steady (clock : nat → string → pyval) (days_old : Z) (cutoff : pyval)
  : Prop :=
  ∀ k, clock k ("-" ++ pretty days_old ++ " days")%string = cutoff.

(** *** Stages in sequence *)

(** Every lead of campaign [c] in the table has the status [st]. *)
Definition campaign_leads_are (c st : string) (rows : list dict) : Prop :=
  Forall (fun row => sql_eq (dict_get row "campaign_id") (VStr c) = true →
                     row !! "status" = Some (VStr st)) rows.

(** What a stage that reads the leads with [status] needs of the table. *)
Definition ready_for (c : string) (status : option string) (rows : list dict)
  : Prop :=
  primary_key rows ∧
  match status with
  | Some st => campaign_leads_are c st rows
  | None => True
  end.

(** The number of leads of campaign [c] in a table. *)
Definition campaign_count (c : string) (rows : list dict) : Z :=
  Z.of_nat (length (List.filter
                      (fun row => sql_eq (dict_get row "campaign_id") (VStr c))
                      rows)).

(** What the summary of a run says under [k]. *)
Definition summary_get (summary : adict) (k : string) : pyval :=
  adict_get_or summary k VNone.

(** *** Stages that are switched off *)

(** The stage that records its runs under [name] is run by a pipeline
    configured with [cfg]. *)
Definition stage_enabled (cfg : config) (name : string) : bool :=
  String.eqb name "scraping"
  || (String.eqb name "validation" && enable_validation cfg)
  || (String.eqb name "linkedin_enrichment" && enable_linkedin_enrichment cfg)
  || (String.eqb name "research" && enable_research cfg)
  || (String.eqb name "personalization" && enable_personalization cfg).

(** The rows appended to [pipeline_runs] since [rs0] bear the names of
    stages that [cfg] enables. *)
Definition runs_of_enabled (cfg : config) (rs0 : list dict) (w : world) : Prop :=
  ∃ new,
    pipeline_runs (store w) = rs0 ++ new ∧
    Forall (fun r : dict =>
              ∃ name, r !! "stage" = Some (VStr name)
                      ∧ stage_enabled cfg name = true) new.

(** The three counts of one entry of a summary. *)
Definition summary_counts (summary : adict) (entry : string) : option (Z * Z * Z) :=
  match adict_get_or summary entry VNone with
  | VDict [(_, VInt total); (_, VInt valid); (_, VInt invalid)] =>
      Some (total, valid, invalid)
  | _ => None
  end.

(** The address [_check_website_async] requests for [w]. *)
Definition requested_url (w : string) : string :=
  if PyStr.startswith "http://" w || PyStr.startswith "https://" w
  then w else "https://" ++ w.

(** *** Text helpers *)

(** Every character of the string satisfies [p]. *)
Fixpoint all_chars (p : ascii → bool) (s : string) : bool :=
  match s with
  | EmptyString => true
  | String c r => p c && all_chars p r
  end.

(** The number of occurrences of [c] in the string. *)
Fixpoint count_char (c : ascii) (s : string) : Z :=
  match s with
  | EmptyString => 0
  | String c' r => (if Ascii.eqb c c' then 1 else 0) + count_char c r
  end.

(** The string begins with a character that satisfies [p]. *)
Definition begins_with (p : ascii → bool) (s : string) : bool :=
  match s with
  | EmptyString => false
  | String c _ => p c
  end.

(** A character that may stand in a file name. *)
Definition filename_char (c : ascii) : bool :=
  negb (Utils.unsafe_char c) && negb (PyStr.is_space c).

(** A character that is a space, or no whitespace at all. *)
Definition plain_space (c : ascii) : bool :=
  negb (PyStr.is_space c) || Ascii.eqb c " ".



(** *** Configuration *)

(** The numeric settings of the configuration are in their ranges. *)
Definition settings_in_range (self : Config.LeadPipelineConfig) : Prop :=
  1 ≤ Config.max_leads self ≤ 1000 ∧
  1 ≤ Config.validation_workers self ≤ 20 ∧
  1 ≤ Config.research_workers self ≤ 10 ∧
  1 ≤ Config.personalization_workers self ≤ 5.

(** *** Places search *)

(** A reply that lets the search go on or end: an error, the status
    ZERO_RESULTS, or the status OK with at least one place. *)
Definition productive (r : Scraper.search_reply) : Prop :=
  match r with
  | Scraper.SearchError => True
  | Scraper.SearchData status results _ =>
      status = "ZERO_RESULTS" ∨ (status = "OK" ∧ results ≠ [])
  end.

(** A reply with a status other than OK and ZERO_RESULTS. *)
Definition refused (r : Scraper.search_reply) : Prop :=
  match r with
  | Scraper.SearchError => False
  | Scraper.SearchData status _ _ => status ≠ "OK" ∧ status ≠ "ZERO_RESULTS"
  end.

(** *** API server *)

(** A port number that [bind] accepts. *)
Definition valid_port (port : Z) : Prop := 0 ≤ port ≤ 65535.

(** The call returned. *)
Definition is_ok {A} (r : result A) : bool :=
  match r with Ok _ => true | Raise _ => false end.

(** The call returned a value other than [None]. *)
Definition is_ok_some {A} (r : result (option A)) : bool :=
  match r with Ok (Some _) => true | _ => false end.

Module StoreExamples.

Import Examples.

(** The data of a campaign with the id c1. *)
Definition spring : dict :=
  list_to_map [("id", VStr "c1"); ("name", VStr "Spring");
               ("business_type", VStr "coffee shops");
               ("location", VStr "Seattle, WA"); ("max_results", VInt 5)].

(** The empty store after the campaign c1 is created. *)
Definition with_spring : db :=
  match create_campaign E0 spring (store empty_world) with
  | Ok (_, d) => d
  | Raise _ => store empty_world
  end.






(** A clock that stays at the first of June 2024, whatever the modifier. *)
Definition june (k : nat) (modifier : string) : pyval :=
  VStr "2024-06-01 00:00:00".

(** A run with all stages and one business found, from the empty store. *)
Definition after_run : world :=
  fst (run_complete_pipeline all_stages E0 (C0 [acme]) "coffee shops"
         "Seattle, WA" 5 None None empty_world).

Definition run_summary : adict :=
  match snd (run_complete_pipeline all_stages E0 (C0 [acme]) "coffee shops"
               "Seattle, WA" 5 None None empty_world) with
  | Ok summary => summary
  | Raise _ => []
  end.

Definition validated_pair : list dict :=
  match validate_leads_batch W0 [acme; no_phone] with
  | Ok results => results
  | Raise _ => []
  end.

Definition pair_summary : adict :=
  match get_validation_summary validated_pair with
  | Ok (Some summary) => summary
  | _ => []
  end.

(** The configuration as the dataclass declares it. *)
Definition default_config : Config.LeadPipelineConfig :=
  Config.mkLeadPipelineConfig "" "" "" "" "" "" 100 true true false 10 4 3 "".

(** A search that always has one more page of one place. *)
Definition endless_pages (k : nat) (token : option string) : Scraper.search_reply :=
  Scraper.SearchData "OK" [acme] (Some "next").

(** A search that is always over its quota. *)
Definition over_quota (k : nat) (token : option string) : Scraper.search_reply :=
  Scraper.SearchData "OVER_QUERY_LIMIT" [] None.

Definition coffee_request : Api.LeadGenerationRequest :=
  Api.mkLeadGenerationRequest "coffee shops" "Seattle, WA" 5 None None true true.

Definition pending_task : dict :=
  list_to_map [("task_id", VStr "task_1"); ("status", VStr "pending");
               ("progress", VInt 0); ("current_step", VStr "Initializing")].

Definition one_task : Api.server :=
  Api.mkServer {["task_1" := pending_task]} empty_world.

Definition no_task : Api.server := Api.mkServer ∅ empty_world.

End StoreExamples.

(** * Properties *)

(** ** The batch validator *)

Lemma lookup_set_details_ne key details (d : dict) k :
  key ≠ k → set_details key details d !! k = d !! k.
Proof.
  intros Hne. unfold set_details.
  destruct (truthy _); [by rewrite lookup_insert_ne|done].
Qed.

Lemma collect_results_map W (pre suf : list dict) :
  collect_results (pre ++ suf) (length pre) (map (_validate_single_lead_async W) suf)
  = Ok (map (lead_outcome W) suf).
Proof.
  revert pre. induction suf as [|x suf IH]; intros pre; [done|].
  cbn [map collect_results].
  specialize (IH (pre ++ [x])).
  rewrite <- app_assoc, length_app in IH. cbn in IH.
  replace (length pre + 1)%nat with (S (length pre)) in IH by lia.
  rewrite IH.
  assert (Hx : lead_outcome W x =
               match _validate_single_lead_async W x with
               | Ok v => v | Raise e => failed_lead x e end) by done.
  rewrite Hx. clear Hx.
  destruct (_validate_single_lead_async W x) as [v|e]; [done|].

  rewrite lookup_app_r by lia. by rewrite Nat.sub_diag.
Qed.

Lemma validate_leads_batch_map W (leads : list dict) :
  validate_leads_batch W leads = Ok (map (lead_outcome W) leads).
Proof.
  destruct leads as [|x leads]; [done|].
  unfold validate_leads_batch. apply (collect_results_map W []).
Qed.

Lemma single_lead_frame W (lead r : dict) k :
  _validate_single_lead_async W lead = Ok r →
  k ∉ annotation_keys → r !! k = lead !! k.
Proof.
  unfold _validate_single_lead_async, annotation_keys. intros Hr Hk.
  rewrite !not_elem_of_cons in Hk. destruct_and!.
  destruct (fst (_validate_email _ _)) as [ev ed].
  destruct (_validate_phone _ _ _) as [pv pd].
  destruct (_validate_company_async _ _ _) as [[cv cd]|e]; [|done].
  injection Hr as <-.
  repeat first [rewrite lookup_insert_ne by done | rewrite lookup_set_details_ne by done].
  done.
Qed.


Lemma failed_lead_lookup (lead : dict) e :
  failed_lead lead e !! "email_valid" = Some (VBool false) ∧
  failed_lead lead e !! "phone_valid" = Some (VBool false) ∧
  failed_lead lead e !! "company_valid" = Some (VBool false) ∧
  failed_lead lead e !! "validation_error" = Some (VStr (str_of_exn e)).
Proof.
  unfold failed_lead, dict_update.
  repeat split; apply lookup_union_Some_l; by simplify_map_eq.
Qed.

Lemma failed_lead_frame (lead : dict) e k :
  k ≠ "email_valid" → k ≠ "phone_valid" → k ≠ "company_valid" →
  k ≠ "validation_error" →
  failed_lead lead e !! k = lead !! k.
Proof.
  intros. unfold failed_lead, dict_update.
  apply lookup_union_r. by simplify_map_eq.
Qed.

Lemma not_annotation_key k :
  k ∉ annotation_keys →
  k ≠ "email_valid" ∧ k ≠ "email_validation_details" ∧ k ≠ "phone_valid" ∧
  k ≠ "phone_validation_details" ∧ k ≠ "company_valid" ∧
  k ≠ "company_validation_details" ∧ k ≠ "is_validated" ∧
  k ≠ "validation_score" ∧ k ≠ "validation_error".
Proof.
  unfold annotation_keys. rewrite !not_elem_of_cons. tauto.
Qed.

(** C2.  For every list of leads, [validate_leads_batch] returns, and it
    returns one result per lead, in the order of the input: the result
    at index [i] is the outcome of validating the lead at index [i], and
    it agrees with that lead on every key that is not a validation
    annotation. *)
Theorem validate_leads_batch_order W (leads : list dict) :
  ∃ results,
    validate_leads_batch W leads = Ok results ∧
    length results = length leads ∧
    ∀ i lead, leads !! i = Some lead →
      ∃ r, results !! i = Some r ∧ r = lead_outcome W lead ∧
           ∀ k, k ∉ annotation_keys → r !! k = lead !! k.
Proof.
  exists (map (lead_outcome W) leads). split; [apply validate_leads_batch_map|].
  split; [apply length_map|].
  intros i lead Hi. exists (lead_outcome W lead).
  split; [by rewrite list_lookup_fmap, Hi|]. split; [done|].
  intros k Hk. unfold lead_outcome.
  destruct (_validate_single_lead_async W lead) as [v|e] eqn:E.
  - by eapply single_lead_frame.
  - apply not_annotation_key in Hk. destruct_and!. by apply failed_lead_frame.
Qed.

(** C3.  When the validation of one lead of a batch raises, the batch
    still returns a result for every lead.  The result of the failing
    lead is its original record with [email_valid], [phone_valid] and
    [company_valid] false and [validation_error] set to the message of
    the exception; the results of the leads before and after it are the
    ones these leads get without it. *)
Theorem validate_leads_batch_isolation W (before after : list dict) (x : dict) e :
  _validate_single_lead_async W x = Raise e →
  ∃ rb ra bad,
    validate_leads_batch W before = Ok rb ∧
    validate_leads_batch W after = Ok ra ∧
    validate_leads_batch W (before ++ x :: after) = Ok (rb ++ bad :: ra) ∧
    bad !! "email_valid" = Some (VBool false) ∧
    bad !! "phone_valid" = Some (VBool false) ∧
    bad !! "company_valid" = Some (VBool false) ∧
    bad !! "validation_error" = Some (VStr (str_of_exn e)) ∧
    ∀ k, k ≠ "email_valid" → k ≠ "phone_valid" → k ≠ "company_valid" →
         k ≠ "validation_error" → bad !! k = x !! k.
Proof.
  intros Hx.
  exists (map (lead_outcome W) before), (map (lead_outcome W) after), (failed_lead x e).
  rewrite !validate_leads_batch_map.
  split; [done|]. split; [done|]. split.
  - rewrite map_app. cbn [map]. unfold lead_outcome at 2. by rewrite Hx.
  - destruct (failed_lead_lookup x e) as (?&?&?&?).
    repeat split; try done. intros. by apply failed_lead_frame.
Qed.




(** ** The quality score *)













(** ** The pipeline monad *)

Section Hoare.
Context {A B : Type}.

Lemma hoare_ret (P : world → Prop) (a : A) Q R :
  (∀ w, P w → Q a w) → hoare P (ret a) Q R.
Proof. intros H w Hw. by apply H. Qed.

Lemma hoare_raise (P : world → Prop) e (Q : A → world → Prop) R :
  (∀ w, P w → R e w) → hoare P (raise e) Q R.
Proof. intros H w Hw. by apply H. Qed.

Lemma hoare_bind (P : world → Prop) (m : M A) (k : A → M B) Q' Q R :
  hoare P m Q' R → (∀ a, hoare (Q' a) (k a) Q R) → hoare P (bind m k) Q R.
Proof.
  intros Hm Hk w Hw. specialize (Hm w Hw). unfold bind.
  destruct (m w) as [w' [a|e]]; [by apply Hk|done].
Qed.

Lemma hoare_try (P : world → Prop) (m : M A) (h : exn → M A) Q R' R :
  hoare P m Q R' → (∀ e, hoare (R' e) (h e) Q R) → hoare P (try_except m h) Q R.
Proof.
  intros Hm Hh w Hw. specialize (Hm w Hw). unfold try_except.
  destruct (m w) as [w' [a|e]]; [done|by apply Hh].
Qed.

Lemma hoare_lift (P : world → Prop) (r : result A) Q R :
  (∀ w, P w → match r with Ok a => Q a w | Raise e => R e w end) →
  hoare P (lift r) Q R.
Proof. intros H w Hw. by apply H. Qed.

Lemma hoare_db_read (P : world → Prop) (op : db → result A) Q R :
  (∀ w, P w → match op (store w) with Ok a => Q a w | Raise e => R e w end) →
  hoare P (db_read op) Q R.
Proof. intros H w Hw. by apply H. Qed.

Lemma hoare_conseq (P P' : world → Prop) (m : M A) (Q Q' : A → world → Prop)
      (R R' : exn → world → Prop) :
  hoare P' m Q' R' → (∀ w, P w → P' w) → (∀ a w, Q' a w → Q a w) →
  (∀ e w, R' e w → R e w) → hoare P m Q R.
Proof.
  intros Hm HP HQ HR w Hw. specialize (Hm w (HP w Hw)).
  destruct (m w) as [w' [a|e]]; auto.
Qed.
End Hoare.

Lemma hoare_db_write (P : world → Prop) (op : db → result db) Q R :
  (∀ w, P w → match op (store w) with
               | Ok d => Q tt (mkWorld d (log w))
               | Raise e => R e w
               end) →
  hoare P (db_write op) Q R.
Proof.
  intros H w Hw. specialize (H w Hw). unfold db_write.
  by destruct (op (store w)).
Qed.

Lemma hoare_logger_info (P : world → Prop) line Q R :
  (∀ w, P w → Q tt (mkWorld (store w) (log w ++ [line]))) →
  hoare P (logger_info line) Q R.
Proof. intros H w Hw. by apply H. Qed.

Lemma preserves_bind {A B} (I : world → Prop) (m : M A) (k : A → M B) :
  preserves I m → (∀ a, preserves I (k a)) → preserves I (bind m k).
Proof. intros Hm Hk. eapply hoare_bind; [apply Hm|apply Hk]. Qed.

Lemma preserves_try {A} (I : world → Prop) (m : M A) (h : exn → M A) :
  preserves I m → (∀ e, preserves I (h e)) → preserves I (try_except m h).
Proof. intros Hm Hh. eapply hoare_try; [apply Hm|apply Hh]. Qed.

Lemma preserves_ret {A} (I : world → Prop) (a : A) : preserves I (ret a).
Proof. by apply hoare_ret. Qed.

Lemma preserves_raise {A} (I : world → Prop) e : preserves I (@raise A e).
Proof. by apply hoare_raise. Qed.

Lemma preserves_lift {A} (I : world → Prop) (r : result A) : preserves I (lift r).
Proof. apply hoare_lift. intros. by destruct r. Qed.

Lemma preserves_db_read {A} (I : world → Prop) (op : db → result A) :
  preserves I (db_read op).
Proof. apply hoare_db_read. intros. by destruct (op _). Qed.

Lemma preserves_db_write (I : world → Prop) (op : db → result db) :
  (∀ w d, I w → op (store w) = Ok d → I (mkWorld d (log w))) →
  preserves I (db_write op).
Proof.
  intros H. apply hoare_db_write. intros w Hw.
  destruct (op (store w)) eqn:E; [by eapply H|done].
Qed.

Lemma preserves_when (I : world → Prop) b m :
  preserves I m → preserves I (when b m).
Proof. intros. destruct b; [done|apply preserves_ret]. Qed.

Lemma hoare_bind_inv {A B} (I : world → Prop) (m : M A) (k : A → M B) Q :
  preserves I m → (∀ a, hoare I (k a) Q (fun _ => I)) →
  hoare I (bind m k) Q (fun _ => I).
Proof. intros Hm Hk. eapply hoare_bind; [apply Hm|apply Hk]. Qed.

(** Store lemmas *)



Lemma adapt_values_lookup kvs bound k :
  adapt_values kvs = Ok bound →
  (list_to_map bound : dict) !! k = (list_to_map kvs : dict) !! k ≫= adapted.
Proof.
  revert bound. induction kvs as [|[k' v] kvs IH]; intros bound H; cbn in H.
  - by injection H as <-.
  - destruct (sql_adapt v) as [v'|] eqn:Ev; [|done].
    destruct (adapt_values kvs) as [rest|]; [|done].
    injection H as <-. cbn [list_to_map foldr uncurry Datatypes.uncurry].
    destruct (decide (k' = k)) as [->|Hne].
    + rewrite !lookup_insert_eq. cbn. unfold adapted. by rewrite Ev.
    + rewrite !lookup_insert_ne by done. by apply IH.
Qed.

Lemma adapt_values_map_lookup (u : dict) bound k :
  adapt_values (map_to_list u) = Ok bound →
  (list_to_map bound : dict) !! k = u !! k ≫= adapted.
Proof.
  intros H. rewrite (adapt_values_lookup _ _ _ H). by rewrite list_to_map_to_list.
Qed.

Lemma updated_row_lookup_ne E (u : dict) bound row k :
  adapt_values (map_to_list u) = Ok bound →
  u !! k = None → k ≠ "updated_at" →
  updated_row E bound row !! k = row !! k.
Proof.
  intros H Hk Hne. unfold updated_row, dict_update.
  rewrite lookup_insert_ne by done.
  apply lookup_union_r. rewrite (adapt_values_map_lookup _ _ _ H). by rewrite Hk.
Qed.

Lemma updated_row_lookup E (u : dict) bound row k v v' :
  adapt_values (map_to_list u) = Ok bound →
  u !! k = Some v → sql_adapt v = Ok v' → k ≠ "updated_at" →
  updated_row E bound row !! k = Some v'.
Proof.
  intros H Hk Hv Hne. unfold updated_row, dict_update.
  rewrite lookup_insert_ne by done.
  apply lookup_union_Some_l. rewrite (adapt_values_map_lookup _ _ _ H), Hk.
  cbn. unfold adapted. by rewrite Hv.
Qed.

Lemma map_if_none {X} (p : X → bool) (f : X → X) (l : list X) :
  existsb p l = false → map (fun x => if p x then f x else x) l = l.
Proof.
  induction l as [|x l IH]; [done|]. cbn. intros H.
  apply orb_false_iff in H as [-> H]. by rewrite IH.
Qed.

Lemma sql_update_spec E table columns not_null assign cond rows rows' :
  sql_update E table columns not_null assign cond rows = Ok rows' →
  ∃ bound cond',
    adapt_values (map_to_list assign) = Ok bound ∧
    adapt_values cond = Ok cond' ∧
    rows' = map (fun row => if where_holds cond' row
                            then updated_row E bound row else row) rows.
Proof.
  unfold sql_update. intros H.
  destruct (List.find _ _); [done|].
  destruct (adapt_values (map_to_list assign)) as [bound|]; [|done].
  destruct (adapt_values cond) as [cond'|]; [|done].
  exists bound, cond'. split; [done|]. split; [done|].
  destruct (existsb (where_holds cond') rows) eqn:Hex.
  - destruct (null_violation _ _); [done|]. by injection H as <-.
  - injection H as <-. by rewrite map_if_none.
Qed.

Lemma sql_update_ok E table columns not_null assign cond rows bound cond' :
  List.find (fun k => negb (mem k columns)) (fst <$> map_to_list assign) = None →
  adapt_values (map_to_list assign) = Ok bound →
  adapt_values cond = Ok cond' →
  null_violation not_null bound = None →
  sql_update E table columns not_null assign cond rows
  = Ok (map (fun row => if where_holds cond' row
                        then updated_row E bound row else row) rows).
Proof.
  intros Hc Hb Hw Hn. unfold sql_update. rewrite Hc, Hb, Hw, Hn.
  destruct (existsb (where_holds cond') rows) eqn:Hex; [done|].
  by rewrite map_if_none.
Qed.

Lemma update_campaign_spec E cid updates d d' :
  update_campaign E cid updates d = Ok d' →
  leads d' = leads d ∧ pipeline_runs d' = pipeline_runs d ∧
  leads_seq d' = leads_seq d ∧ pipeline_runs_seq d' = pipeline_runs_seq d ∧
  (d' = d ∨
   ∃ bound cid',
     adapt_values (map_to_list updates) = Ok bound ∧ sql_adapt cid = Ok cid' ∧
     campaigns d' = map (fun row => if sql_eq (dict_get row "id") cid'
                                    then updated_row E bound row else row)
                        (campaigns d)).
Proof.
  unfold update_campaign. intros H.
  case_bool_decide; [injection H as <-; tauto|].
  destruct (sql_update _ _ _ _ _ _ _) as [rows|] eqn:Hu; [|done].
  destruct (match updates !! "id" with Some _ => _ | None => _ end); [done|].
  injection H as <-. cbn. repeat split; try done. right.
  apply sql_update_spec in Hu as (bound & cond' & Hb & Hc & ->).
  cbn in Hc. destruct (sql_adapt cid) as [cid'|]; [|done]. injection Hc as <-.
  exists bound, cid'. repeat split; try done.
  apply map_ext. intros row. unfold where_holds. cbn. by rewrite andb_true_r.
Qed.

Lemma record_pipeline_run_spec E cid stage status duration p s e msg d d' :
  record_pipeline_run E cid stage status duration p s e msg d = Ok d' →
  campaigns d' = campaigns d ∧ leads d' = leads d ∧ leads_seq d' = leads_seq d ∧
  ∃ row, pipeline_runs d' = pipeline_runs d ++ [row] ∧
         row !! "stage" = Some (VStr stage) ∧ row !! "status" = Some (VStr status).
Proof.
  unfold record_pipeline_run. intros H.
  destruct (sql_insert _ _ _ _) as [row|] eqn:Hi; [|done].
  injection H as <-. cbn. repeat split; try done.
  exists row. split; [done|].
  unfold sql_insert in Hi.
  destruct (adapt_values _) as [bound|] eqn:Hb; [|done].
  destruct (null_violation _ _); [|injection Hi as <-]; [done|].
  unfold dict_update.
  split; apply lookup_union_Some_l; rewrite (adapt_values_lookup _ _ _ Hb);
    cbn [list_to_map foldr uncurry Datatypes.uncurry];
    repeat (rewrite lookup_insert_ne by done); by rewrite lookup_insert_eq.
Qed.

Lemma record_pipeline_run_ok E c stage status duration p s e msg d :
  - 2 ^ 63 ≤ p < 2 ^ 63 → - 2 ^ 63 ≤ s < 2 ^ 63 → - 2 ^ 63 ≤ e < 2 ^ 63 →
  ∃ d', record_pipeline_run E (VStr c) stage status duration p s e msg d = Ok d'.
Proof.
  intros Hp Hs He. unfold record_pipeline_run, sql_insert.
  cbn [adapt_values sql_adapt].
  assert (Hr : ∀ z, - 2 ^ 63 ≤ z < 2 ^ 63 →
                    (- 2 ^ 63 <=? z) && (z <? 2 ^ 63) = true).
  { intros z Hz. apply andb_true_iff. split; [apply Z.leb_le|apply Z.ltb_lt]; lia. }
  rewrite !Hr by done.
  destruct (String.eqb status "completed"), duration, msg; cbn; eauto.
Qed.

Lemma update_lead_rows_frame E cid updates rows rows' :
  update_lead_rows E cid updates rows = Ok rows' →
  length rows' = length rows ∧
  ∀ i row, rows !! i = Some row → targeted cid updates row = false →
           rows' !! i = Some row.
Proof.
  revert rows. induction updates as [|u updates IH]; intros rows H.
  - cbn in H. by injection H as <-.
  - cbn [update_lead_rows] in H.
    assert (Hweak : ∀ row, targeted cid (u :: updates) row = false →
                           targeted cid updates row = false).
    { intros row. unfold targeted. cbn [existsb].
      destruct (in_campaign cid row); [|done]. cbn.
      intros Hf. by apply orb_false_iff in Hf as [_ ?]. }
    destruct (truthy (dict_get u "id")) eqn:Hid; cbn [negb] in H.
    2:{ destruct (IH _ H) as [Hlen Hfr]. split; [done|]. intros. apply Hfr; auto. }
    case_bool_decide.
    { destruct (IH _ H) as [Hlen Hfr]. split; [done|]. intros. apply Hfr; auto. }
    destruct (sql_update _ _ _ _ _ _ _) as [rows1|] eqn:Hu; [|done].
    apply sql_update_spec in Hu as (bound & cond' & Hb & Hc & ->).
    destruct (IH _ H) as [Hlen Hfr]. rewrite length_map in Hlen.
    split; [done|]. intros i row Hi Ht. apply Hfr; [|auto].
    rewrite list_lookup_fmap, Hi. cbn. f_equal.
    cbn in Hc. destruct (sql_adapt (dict_get u "id")) as [id'|] eqn:Eid; [|done].
    destruct (sql_adapt cid) as [cid'|] eqn:Ecid; [|done].
    injection Hc as <-. unfold where_holds. cbn.
    unfold targeted, in_campaign, names_row in Ht. cbn [existsb] in Ht.
    rewrite Ecid, Hid, Eid in Ht. cbn in Ht.
    destruct (sql_eq (dict_get row "id") id'), (sql_eq (dict_get row "campaign_id") cid');
      cbn in *; done.
Qed.

Lemma update_leads_batch_spec E cid (updates : list dict) d d' :
  update_leads_batch E cid updates d = Ok d' →
  campaigns d' = campaigns d ∧ pipeline_runs d' = pipeline_runs d ∧
  leads_seq d' = leads_seq d ∧ pipeline_runs_seq d' = pipeline_runs_seq d ∧
  length (leads d') = length (leads d) ∧
  ∀ i row, leads d !! i = Some row → targeted cid updates row = false →
           leads d' !! i = Some row.
Proof.
  unfold update_leads_batch. intros H.
  assert (Hrows : ∃ rows, update_lead_rows E cid updates (leads d) = Ok rows
                          ∧ d' = mkDb (campaigns d) rows (pipeline_runs d)
                                      (leads_seq d) (pipeline_runs_seq d)).
  { destruct updates as [|u us].
    - injection H as <-. exists (leads d). split; [done|]. by destruct d.
    - destruct (update_lead_rows _ _ _ _) as [rows|]; [|done].
      injection H as <-. by exists rows. }
  destruct Hrows as (rows & Hr & ->).
  apply update_lead_rows_frame in Hr as [Hlen Hfr]. by cbn.
Qed.



Ltac literal_lookup :=
  unfold list_to_map; cbn [foldr fst snd];
  repeat (rewrite lookup_insert_ne by done);
  rewrite ?lookup_insert_eq, ?lookup_empty.

Lemma in_range_adapt z :
  - 2 ^ 63 ≤ z < 2 ^ 63 → sql_adapt (VInt z) = Ok (VInt z).
Proof.
  intros Hz. cbn.
  replace ((- 2 ^ 63 <=? z) && (z <? 2 ^ 63)) with true; [done|].
  symmetry. apply andb_true_iff. split; [apply Z.leb_le|apply Z.ltb_lt]; lia.
Qed.


Lemma create_campaign_spec E (data : dict) d cid d' bt loc :
  create_campaign E data d = Ok (cid, d') →
  data !! "id" = None →
  data !! "business_type" = Some (VStr bt) →
  data !! "location" = Some (VStr loc) →
  cid = VStr ("campaign_" ++ now_compact E)%string ∧
  leads d' = leads d ∧ pipeline_runs d' = pipeline_runs d ∧
  Forall (fun r => sql_eq (dict_get r "id") cid = false) (campaigns d) ∧
  ∃ row, campaigns d' = campaigns d ++ [row] ∧
         row !! "id" = Some cid ∧
         row !! "business_type" = Some (VStr bt) ∧
         row !! "location" = Some (VStr loc) ∧
         row !! "completed_at" = Some VNone.
Proof.
  unfold create_campaign. intros H Hid Hbt Hloc.
  assert (Hget : dict_get data "id" = VNone) by (unfold dict_get; by rewrite Hid).
  rewrite !Hget in H. cbn [truthy] in H.
  destruct (sql_insert _ _ _ _) as [row|] eqn:Hi; [|done].
  destruct (existsb _ _) eqn:Hex; [done|].
  injection H as <- <-. cbn.
  unfold sql_insert in Hi.
  destruct (adapt_values _) as [bound|] eqn:Hb; [|done].
  destruct (null_violation _ _); [done|]. injection Hi as <-.
  assert (Hlk : ∀ k v v', (list_to_map (campaign_values
                     (VStr ("campaign_" ++ now_compact E)%string) data) : dict) !! k = Some v →
                  sql_adapt v = Ok v' →
                  dict_update (campaign_defaults E) (list_to_map bound) !! k = Some v').
  { intros k v v' Hk Hv. unfold dict_update. apply lookup_union_Some_l.
    rewrite (adapt_values_lookup _ _ _ Hb). rewrite Hk. cbn. unfold adapted. by rewrite Hv. }
  assert (Hrid : dict_update (campaign_defaults E) (list_to_map bound) !! "id"
                 = Some (VStr ("campaign_" ++ now_compact E)%string)).
  { eapply Hlk; [unfold campaign_values; by literal_lookup|done]. }
  repeat split; try done.
  - apply Forall_forall. intros r Hr.
    apply not_true_is_false. intros Heq.
    assert (existsb (fun r => sql_eq (dict_get r "id")
               (dict_get (dict_update (campaign_defaults E) (list_to_map bound)) "id"))
              (campaigns d) = true); [|congruence].
    apply existsb_exists. exists r. split; [by apply list_elem_of_In|].
    unfold dict_get at 2. by rewrite Hrid.
  - eexists. split; [done|]. split; [done|].
    split; [|split].
    + eapply Hlk; [unfold campaign_values, dict_get_or; rewrite Hbt; by literal_lookup|done].
    + eapply Hlk; [unfold campaign_values, dict_get_or; rewrite Hloc; by literal_lookup|done].
    + unfold dict_update. rewrite lookup_union_r.
      * unfold campaign_defaults. by literal_lookup.
      * rewrite (adapt_values_lookup _ _ _ Hb). by literal_lookup.
Qed.

Ltac plan_start :=
  unfold run_plan, plan_attempt, bind, try_except, db_read, lift; cbv beta iota;
  cbn [plan_status plan_name plan_build validation_plan enrichment_plan
       research_plan personalization_plan];
  match goal with
  | |- context [get_leads_by_campaign ?E ?c ?s ?d] =>
      destruct (get_leads_by_campaign E c s d) as [[|?l ?ls]|]; try done
  end;
  cbv beta iota;
  match goal with |- context [?l :: ?ls] => generalize (l :: ls); intros leads end.

Lemma _validate_leads_plan E C cid w :
  _validate_leads E C cid w = run_plan E C (validation_plan C) cid w.
Proof.
  unfold _validate_leads. plan_start.
  destruct (Validator.validate_leads_batch (services C) leads) as [vs|]; [|done].
  cbv beta iota. destruct (map_result validation_update vs); done.
Qed.

Lemma _enrich_linkedin_profiles_plan E C cid w :
  _enrich_linkedin_profiles E C cid w = run_plan E C enrichment_plan cid w.
Proof.
  unfold _enrich_linkedin_profiles. plan_start.
  destruct (map_result enrichment_update leads); done.
Qed.

Lemma _research_companies_plan E C cid w :
  _research_companies E C cid w = run_plan E C (research_plan C) cid w.
Proof.
  unfold _research_companies. plan_start.
  destruct (map_result (research_update C) leads); [|done].
  unfold db_write, ret. cbn. destruct (update_leads_batch _ _ _ _); done.
Qed.

Lemma _personalize_messages_plan E C cid w :
  _personalize_messages E C cid w = run_plan E C (personalization_plan C) cid w.
Proof.
  unfold _personalize_messages. plan_start.
  destruct (map_result (personalization_update C) leads); done.
Qed.

(** Rows appended by a stage *)



Lemma update_leads_batch_runs E cid updates d d' :
  update_leads_batch E cid updates d = Ok d' →
  campaigns d' = campaigns d ∧ pipeline_runs d' = pipeline_runs d.
Proof.
  unfold update_leads_batch. destruct updates; [by intros [= <-]|].
  destruct (update_lead_rows _ _ _ _); [|done]. by intros [= <-].
Qed.

Lemma runs_are_update_leads_batch E cid updates rs l :
  preserves (runs_are rs l) (db_write (update_leads_batch E cid updates)).
Proof.
  apply preserves_db_write. intros w d [Hr Hl] Hd.
  apply update_leads_batch_runs in Hd as [_ Hp]. split; cbn; congruence.
Qed.

Lemma runs_are_update_campaign E cid updates rs l :
  preserves (runs_are rs l) (db_write (update_campaign E cid updates)).
Proof.
  apply preserves_db_write. intros w d [Hr Hl] Hd.
  apply update_campaign_spec in Hd as (_ & Hp & _). split; cbn; congruence.
Qed.

Lemma record_run_one_more E c name status duration p s e msg rs l :
  hoare (runs_are rs l)
        (db_write (record_pipeline_run E (VStr c) name status duration p s e msg))
        (fun _ => one_more_run rs l name) (fun _ => runs_are rs l).
Proof.
  apply hoare_db_write. intros w [Hr Hl].
  destruct (record_pipeline_run _ _ _ _ _ _ _ _ _ _) as [d|] eqn:Hd; [|done].
  apply record_pipeline_run_spec in Hd as (_ & _ & _ & row & Hp & Hs & _).
  split; [done|]. exists row. cbn. by rewrite Hp, Hr.
Qed.

Lemma hoare_never_raises {A} (P : world → Prop) (m : M A) Q R :
  hoare P m Q (fun _ _ => False) → hoare P m Q R.
Proof.
  intros H w Hw. specialize (H w Hw). by destruct (m w) as [w' [a|e]].
Qed.

Lemma record_failed_one_more E c name msg rs l (ex : exn) :
  hoare (runs_are rs l)
        (db_write (record_pipeline_run E (VStr c) name "failed" (Some msg) 0 0 0
                     (Some (str_of_exn ex))) ;; @raise unit ex)
        (fun _ => one_more_run rs l name) (fun _ => one_more_run rs l name).
Proof.
  eapply hoare_bind with (Q' := fun _ => one_more_run rs l name).
  - apply hoare_never_raises.
    apply hoare_db_write. intros w [Hr Hl].
    destruct (record_pipeline_run_ok E c name "failed" (Some msg) 0 0 0
                (Some (str_of_exn ex)) (store w)) as [d Hd]; try done.
    rewrite Hd.
    apply record_pipeline_run_spec in Hd as (_ & _ & _ & row & Hp & Hs & _).
    split; [done|]. exists row. cbn. by rewrite Hp, Hr.
  - intros ?. by apply hoare_raise.
Qed.

Lemma plan_attempt_rows E C p c leads rs l :
  hoare (runs_are rs l) (plan_attempt E C p (VStr c) leads)
        (fun _ => one_more_run rs l (plan_name p))
        (fun _ => one_more_run rs l (plan_name p)).
Proof.
  eapply hoare_try with (R' := fun _ => runs_are rs l).
  - apply hoare_bind_inv; [apply preserves_lift|]. intros built.
    apply hoare_bind_inv; [apply runs_are_update_leads_batch|]. intros ?.
    apply hoare_bind_inv.
    { destruct (snd built); [apply runs_are_update_campaign|apply preserves_ret]. }
    intros ?. apply record_run_one_more.
  - intros e. apply record_failed_one_more.
Qed.

Lemma run_plan_rows E C p c w :
  match get_leads_by_campaign E (VStr c) (plan_status p) (store w) with
  | Ok (_ :: _) =>
      one_more_run (pipeline_runs (store w)) (log w) (plan_name p)
                   (fst (run_plan E C p (VStr c) w))
  | _ => fst (run_plan E C p (VStr c) w) = w
  end.
Proof.
  unfold run_plan, bind, db_read.
  destruct (get_leads_by_campaign _ _ _ _) as [[|lead leads]|]; try done.
  pose proof (plan_attempt_rows E C p c (lead :: leads) _ _ w
                (conj eq_refl eq_refl)) as H.
  by destruct (plan_attempt _ _ _ _ _ w) as [w' [|]].
Qed.

Lemma insert_lead_rows_spec E cid new_leads rows seq rows' seq' :
  insert_lead_rows E cid new_leads rows seq = Ok (rows', seq') →
  ∃ new, rows' = rows ++ new ∧ length new = length new_leads.
Proof.
  revert rows seq. induction new_leads as [|lead rest IH]; intros rows seq H.
  - injection H as Hr Hs. subst. exists []. by rewrite app_nil_r.
  - cbn [insert_lead_rows] in H.
    destruct (sql_insert _ _ _ _) as [row|]; [|done].
    apply IH in H as (new & -> & Hlen). exists (row :: new).
    rewrite <- app_assoc. cbn. by rewrite Hlen.
Qed.

Lemma insert_leads_spec E cid new_leads d d' :
  insert_leads E cid new_leads d = Ok d' →
  campaigns d' = campaigns d ∧ pipeline_runs d' = pipeline_runs d ∧
  ∃ new, leads d' = leads d ++ new.
Proof.
  unfold insert_leads. destruct new_leads as [|lead rest].
  - intros [= <-]. repeat split. exists []. by rewrite app_nil_r.
  - destruct (insert_lead_rows _ _ _ _ _) as [[rows seq]|] eqn:Hi; [|done].
    intros [= <-]. cbn. repeat split.
    apply insert_lead_rows_spec in Hi as (new & -> & _). by exists new.
Qed.

Lemma _scrape_businesses_rows E C c bt loc mr rs l :
  hoare (runs_are rs l) (_scrape_businesses E C (VStr c) bt loc mr)
        (fun _ => one_more_run rs l "scraping")
        (fun _ => one_more_run rs l "scraping").
Proof.
  eapply hoare_try with (R' := fun _ => runs_are rs l).
  - apply hoare_bind_inv; [apply preserves_lift|]. intros businesses.
    eapply hoare_bind; [apply record_run_one_more|].
    intros u. by apply hoare_ret.
  - intros e.
    eapply hoare_bind with (Q' := fun _ => one_more_run rs l "scraping").
    + apply hoare_never_raises. apply hoare_db_write. intros w [Hr Hl].
      destruct (record_pipeline_run_ok E c "scraping" "failed" None 0 0 0
                  (Some (str_of_exn e)) (store w)) as [d Hd]; try done.
      rewrite Hd.
      apply record_pipeline_run_spec in Hd as (_ & _ & _ & row & Hp & Hs & _).
      split; [done|]. exists row. cbn. by rewrite Hp, Hr.
    + intros ?. by apply hoare_raise.
Qed.

Lemma _export_results_pure E C cid w : fst (_export_results E C cid w) = w.
Proof.
  unfold _export_results, bind, db_read, lift.
  by destruct (get_leads_by_campaign _ _ _ _).
Qed.

Lemma one_more_at_most rs l name w :
  one_more_run rs l name w → at_most_one_more_run rs l w.
Proof. intros [Hl (r & Hr & _)]. split; [done|]. right. by exists r. Qed.

Lemma stage_writes_at_most_one E C p c (m : M unit) :
  (∀ w, m w = run_plan E C p (VStr c) w) → writes_at_most_one_run m.
Proof.
  intros Hm rs l w [Hr Hl]. rewrite Hm.
  pose proof (run_plan_rows E C p c w) as H.
  destruct (run_plan E C p (VStr c) w) as [w' r] eqn:Hw. cbn in H.
  assert (at_most_one_more_run rs l w') as H'.
  { destruct (get_leads_by_campaign _ _ _ _) as [[|? ?]|].
    - subst w'. split; [done|]. by left.
    - rewrite <- Hr, <- Hl. by eapply one_more_at_most.
    - subst w'. split; [done|]. by left. }
  by destruct r.
Qed.

Lemma scrape_writes_at_most_one E C c bt loc mr :
  writes_at_most_one_run (_scrape_businesses E C (VStr c) bt loc mr).
Proof.
  intros rs l. eapply hoare_conseq; [apply _scrape_businesses_rows|done|..];
    intros ??; apply one_more_at_most.
Qed.

Lemma count_recorded_app l1 l2 :
  count_recorded (l1 ++ l2) = count_recorded l1 + count_recorded l2.
Proof.
  unfold count_recorded, stages_attempted.
  rewrite omap_app, List.filter_app, length_app. lia.
Qed.

Lemma progress_frame rs0 l0 k (op : db → result db) :
  (∀ d d', op d = Ok d' → pipeline_runs d' = pipeline_runs d) →
  preserves (progress rs0 l0 k) (db_write op).
Proof.
  intros Hop. apply preserves_db_write. intros w d (new & extra & Hr & Hl & Hk) Hd.
  exists new, extra. cbn. by rewrite (Hop _ _ Hd).
Qed.

Lemma progress_logger_info rs0 l0 k line R :
  hoare (progress rs0 l0 k) (logger_info line)
        (fun _ => progress rs0 l0 (k + count_recorded [line])) R.
Proof.
  apply hoare_logger_info. intros w (new & extra & Hr & Hl & Hk).
  exists new, (extra ++ [line]). cbn. rewrite Hl, app_assoc.
  repeat split; [done|]. rewrite count_recorded_app. lia.
Qed.

Lemma progress_stage {A} rs0 l0 k (m : M A) :
  writes_at_most_one_run m →
  hoare (progress rs0 l0 (k + 1)) m
        (fun _ => progress rs0 l0 k) (fun _ => progress rs0 l0 k).
Proof.
  intros Hm w (new & extra & Hr & Hl & Hk).
  specialize (Hm _ _ w (conj eq_refl eq_refl)).
  assert (∀ w', at_most_one_more_run (pipeline_runs (store w)) (log w) w' →
                progress rs0 l0 k w') as Hstep.
  { intros w' [Hl' Hr']. destruct Hr' as [Hr'|[r Hr']].
    - exists new, extra. rewrite Hr', Hl'. repeat split; [done..|lia].
    - exists (new ++ [r]), extra. rewrite Hr', Hl', Hr, app_assoc.
      repeat split; [done|]. rewrite length_app. cbn. lia. }
  destruct (m w) as [w' [a|e]]; by apply Hstep.
Qed.

Lemma progress_stage_step rs0 l0 k line (m : M unit) flag :
  count_recorded [line] = 1 →
  writes_at_most_one_run m →
  preserves (progress rs0 l0 k) (when flag (logger_info line ;; m)).
Proof.
  intros Hline Hm. apply preserves_when.
  eapply hoare_bind; [apply progress_logger_info|].
  intros ?. rewrite Hline. by apply progress_stage.
Qed.

Lemma run_writes_at_most_attempted cfg E C c bt loc mr rs0 l0 k :
  preserves (progress rs0 l0 k) (pipeline_body cfg E C (VStr c) bt loc mr).
Proof.
  unfold pipeline_body.
  apply preserves_bind.
  { apply progress_frame. intros ?? H. by apply update_campaign_spec in H as (_&?&_). }
  intros ?. eapply hoare_bind; [apply progress_logger_info|]. intros ?.
  eapply hoare_bind.
  { change (count_recorded [step1]) with 1. apply progress_stage.
    apply scrape_writes_at_most_one. }
  intros businesses. destruct businesses as [|b bs]; [apply preserves_raise|].
  eapply hoare_bind; [apply progress_logger_info|]. intros ?.
  change (count_recorded [step2]) with 0. rewrite Z.add_0_r.
  apply preserves_bind.
  { apply progress_frame. intros ?? H. by apply insert_leads_spec in H as (_&?&_). }
  intros ?. apply preserves_bind.
  { apply progress_frame. intros ?? H. by apply update_campaign_spec in H as (_&?&_). }
  intros ?. apply preserves_bind.
  { apply progress_stage_step; [done|].
    eapply stage_writes_at_most_one. apply _validate_leads_plan. }
  intros ?. apply preserves_bind.
  { apply progress_stage_step; [done|].
    eapply stage_writes_at_most_one. apply _enrich_linkedin_profiles_plan. }
  intros ?. apply preserves_bind.
  { apply progress_stage_step; [done|].
    eapply stage_writes_at_most_one. apply _research_companies_plan. }
  intros ?. apply preserves_bind.
  { apply progress_stage_step; [done|].
    eapply stage_writes_at_most_one. apply _personalize_messages_plan. }
  intros ?. eapply hoare_bind; [apply progress_logger_info|]. intros ?.
  change (count_recorded [step7]) with 0. rewrite Z.add_0_r.
  apply preserves_bind.
  { intros w Hw. pose proof (_export_results_pure E C (VStr c) w) as Hx.
    destruct (_export_results E C (VStr c) w) as [w1 [x|e]]; cbn in Hx; by subst. }
  intros csv. apply preserves_bind; [apply preserves_db_read|].
  intros stats. apply preserves_bind; [|intros ?; apply preserves_ret].
  apply progress_frame. intros ?? H. by apply update_campaign_spec in H as (_&?&_).
Qed.

Lemma update_campaign_last E c old row u d d' :
  other_campaigns c old →
  campaigns d = old ++ [row] → row !! "id" = Some (VStr c) →
  update_campaign E (VStr c) u d = Ok d' →
  (u = ∅ ∧ d' = d) ∨
  ∃ bound, adapt_values (map_to_list u) = Ok bound ∧
           campaigns d' = old ++ [updated_row E bound row].
Proof.
  intros Hold Hd Hid H. unfold update_campaign in H.
  case_bool_decide; [left; by injection H as <-|]. right.
  destruct (sql_update _ _ _ _ _ _ _) as [rows|] eqn:Hu; [|done].
  destruct (match u !! "id" with Some _ => _ | None => _ end); [done|].
  injection H as <-. cbn.
  apply sql_update_spec in Hu as (bound & cond' & Hb & Hc & ->).
  cbn in Hc. injection Hc as <-. exists bound. split; [done|].
  rewrite Hd, map_app. f_equal.
  - rewrite <- (map_id old) at 2. apply map_ext_Forall.
    eapply Forall_impl; [exact Hold|]. intros r Hr. unfold where_holds. cbn.
    by rewrite Hr.
  - cbn. unfold where_holds. cbn. unfold dict_get at 1. rewrite Hid. cbn.
    by rewrite String.eqb_refl.
Qed.

Lemma update_campaign_sets E c old u cols cols' :
  other_campaigns c old → u !! "id" = None → u ≠ ∅ → sets u cols cols' →
  hoare (campaign_is c old cols) (db_write (update_campaign E (VStr c) u))
        (fun _ => campaign_is c old cols') (fun _ => campaign_is c old cols).
Proof.
  intros Hold Hid Hne Hsets. apply hoare_db_write.
  intros w (row & Hc & Hrid & Hrow).
  destruct (update_campaign _ _ _ _) as [d|] eqn:Hd; [|by exists row].
  destruct (update_campaign_last _ _ _ _ _ _ _ Hold Hc Hrid Hd)
    as [[? _]|(bound & Hb & Hd')]; [done|].
  exists (updated_row E bound row). cbn. split; [done|]. split.
  - rewrite (updated_row_lookup_ne _ u); done.
  - unfold row_has. eapply Forall_impl; [exact Hsets|].
    intros [k v] [Hk [(v0 & Hv0 & Hv)|[Hnone Hin]]]; cbn in *.
    + by eapply updated_row_lookup.
    + rewrite (updated_row_lookup_ne _ u); try done.
      unfold row_has in Hrow. rewrite Forall_forall in Hrow.
      by apply (Hrow (k, v)).
Qed.

Lemma update_campaign_keeps E c old u cols :
  other_campaigns c old → u !! "id" = None → u ≠ ∅ → sets u cols cols →
  preserves (campaign_is c old cols) (db_write (update_campaign E (VStr c) u)).
Proof. apply update_campaign_sets. Qed.

Lemma campaign_is_frame c old cols (op : db → result db) :
  (∀ d d', op d = Ok d' → campaigns d' = campaigns d) →
  preserves (campaign_is c old cols) (db_write op).
Proof.
  intros Hop. apply preserves_db_write. intros w d (row & Hc & Hr) Hd.
  exists row. cbn. by rewrite (Hop _ _ Hd).
Qed.

Lemma campaign_is_logger_info c old cols line :
  preserves (campaign_is c old cols) (logger_info line).
Proof. by apply hoare_logger_info. Qed.

Lemma record_pipeline_run_keeps E cid name status dur p s e msg c old cols :
  preserves (campaign_is c old cols)
            (db_write (record_pipeline_run E cid name status dur p s e msg)).
Proof.
  apply campaign_is_frame. intros ?? H.
  by apply record_pipeline_run_spec in H as (?&_).
Qed.

Lemma plan_keeps_campaign E C p c old cols :
  other_campaigns c old →
  (∀ leads built counter,
     plan_build p leads = Ok built → snd built = Some counter →
     counter !! "id" = None ∧ counter ≠ ∅ ∧ sets counter cols cols) →
  preserves (campaign_is c old cols) (run_plan E C p (VStr c)).
Proof.
  intros Hold Hp. unfold run_plan.
  apply preserves_bind; [apply preserves_db_read|].
  intros [|lead leads]; [apply preserves_ret|].
  apply preserves_try.
  - eapply hoare_bind with (Q' := fun built w =>
        plan_build p (lead :: leads) = Ok built ∧ campaign_is c old cols w).
    { apply hoare_lift. intros w Hw. by destruct (plan_build _ _). }
    intros built w [Hbuilt Hw]. revert w Hw.
    change (preserves (campaign_is c old cols)
              (db_write (update_leads_batch E (VStr c) built.1.1);;
               match built.2 with
               | Some counter => db_write (update_campaign E (VStr c) counter)
               | None => ret ()
               end;;
               db_write (record_pipeline_run E (VStr c) (plan_name p) "completed"
                 (Some (elapsed C)) (Z.of_nat (length (lead :: leads)))
                 built.1.2 0 None))).
    apply preserves_bind.
    { apply campaign_is_frame. intros ?? H.
      by apply update_leads_batch_runs in H as [? _]. }
    intros ?. apply preserves_bind.
    { destruct (snd built) as [counter|] eqn:Hc; [|apply preserves_ret].
      destruct (Hp _ _ _ Hbuilt Hc) as (?&?&?). by apply update_campaign_keeps. }
    intros ?. apply record_pipeline_run_keeps.
  - intros e. apply preserves_bind; [apply record_pipeline_run_keeps|].
    intros ?. apply preserves_raise.
Qed.

Lemma sets_singleton_other k v cols :
  Forall (fun kv => fst kv ≠ k ∧ fst kv ≠ "updated_at") cols →
  sets {[k := v]} cols cols.
Proof.
  intros H. unfold sets. apply Forall_forall. intros kv Hin.
  rewrite Forall_forall in H. destruct (H kv Hin) as [Hk Hu].
  split; [done|]. right. split; [|done]. by apply lookup_singleton_ne.
Qed.

Lemma adapt_values_total kvs :
  Forall (fun kv => ∃ v', sql_adapt (snd kv) = Ok v' ∧ v' ≠ VNone) kvs →
  ∃ bound, adapt_values kvs = Ok bound ∧
           ∀ not_null, null_violation not_null bound = None.
Proof.
  induction 1 as [|[k v] kvs (v' & Hv & Hnn) _ (bound & Hb & Hnull)].
  - by exists [].
  - cbn in Hv. exists ((k, v') :: bound). cbn. rewrite Hv, Hb. split; [done|].
    intros nn. specialize (Hnull nn). unfold null_violation in *. cbn.
    destruct (mem k nn); cbn; [|done]. by destruct v'.
Qed.

Lemma update_campaign_ok E c (u : dict) d :
  u !! "id" = None →
  (∀ k v, u !! k = Some v →
          mem k campaign_columns = true ∧ ∃ v', sql_adapt v = Ok v' ∧ v' ≠ VNone) →
  ∃ d', update_campaign E (VStr c) u d = Ok d'.
Proof.
  intros Hid Hu. unfold update_campaign. case_bool_decide; [by eexists|].
  destruct (adapt_values_total (map_to_list u)) as (bound & Hb & Hnull).
  { apply Forall_forall. intros [k v] Hin. apply elem_of_map_to_list in Hin.
    by apply Hu in Hin as [_ ?]. }
  erewrite sql_update_ok; [|..|done]; [by rewrite Hid; eexists|..|done|done].
  destruct (List.find _ _) as [k|] eqn:Hf; [|done].
  apply find_some in Hf as [Hin Hk].
  apply list_elem_of_In, list_elem_of_fmap in Hin as ([k' v] & -> & Hin).
  apply elem_of_map_to_list in Hin. apply Hu in Hin as [Hm _]. cbn [fst] in Hk.
  by rewrite Hm in Hk.
Qed.

Lemma update_campaign_sets_ok E c old u cols cols' :
  other_campaigns c old → u !! "id" = None → u ≠ ∅ → sets u cols cols' →
  (∀ k v, u !! k = Some v →
          mem k campaign_columns = true ∧ ∃ v', sql_adapt v = Ok v' ∧ v' ≠ VNone) →
  hoare (campaign_is c old cols) (db_write (update_campaign E (VStr c) u))
        (fun _ => campaign_is c old cols') (fun _ _ => False).
Proof.
  intros Hold Hid Hne Hsets Hu w Hw.
  pose proof (update_campaign_sets E c old u cols cols' Hold Hid Hne Hsets w Hw) as H.
  unfold db_write in *.
  destruct (update_campaign_ok E c u (store w) Hid Hu) as [d' Hd].
  by rewrite Hd in *.
Qed.

Lemma _create_campaign_ok E bt loc mr name fe w :
  other_campaigns ("campaign_" ++ now_compact E)%string (campaigns (store w)) →
  - 2 ^ 63 ≤ mr < 2 ^ 63 →
  ∃ w', _create_campaign E bt loc mr name fe w
        = (w', Ok (VStr ("campaign_" ++ now_compact E)%string)) ∧
        log w' = log w ∧ leads (store w') = leads (store w) ∧
        pipeline_runs (store w') = pipeline_runs (store w) ∧
        campaign_is ("campaign_" ++ now_compact E)%string (campaigns (store w))
          [("business_type", VStr bt); ("location", VStr loc);
           ("completed_at", VNone)] w'.
Proof.
  intros Hold Hmr. unfold _create_campaign.
  match goal with |- context [create_campaign E ?x _] => set (data := x) end.
  assert (Hid : data !! "id" = None) by (subst data; by literal_lookup).
  assert (Hbt : data !! "business_type" = Some (VStr bt))
    by (subst data; by literal_lookup).
  assert (Hloc : data !! "location" = Some (VStr loc))
    by (subst data; by literal_lookup).
  destruct (create_campaign E data (store w)) as [[cid d]|e] eqn:Hc.
  - apply create_campaign_spec with (bt := bt) (loc := loc) in Hc
      as (-> & Hl & Hp & _ & row & Hrows & Hrid & Hrbt & Hrloc & Hrc); try done.
    eexists. split; [done|]. cbn. repeat split; try done.
    exists row. cbn. repeat split; try done. by repeat constructor.
  - exfalso. unfold create_campaign, sql_insert in Hc.
    assert (Hget : dict_get data "id" = VNone) by (unfold dict_get; by rewrite Hid).
    rewrite !Hget in Hc. cbn [truthy] in Hc. unfold campaign_values in Hc.
    assert (Hname : ∃ s, dict_get_or data "name" (VStr "") = VStr s).
    { subst data. unfold dict_get_or. literal_lookup.
      destruct name as [n|]; cbn; [destruct (String.eqb n "")|]; cbn; by eexists. }
    destruct Hname as [s Hs].
    assert (Hgbt : dict_get_or data "business_type" (VStr "") = VStr bt)
      by (unfold dict_get_or; by rewrite Hbt).
    assert (Hgloc : dict_get_or data "location" (VStr "") = VStr loc)
      by (unfold dict_get_or; by rewrite Hloc).
    assert (Hgmr : dict_get_or data "max_results" (VInt 25) = VInt mr)
      by (subst data; unfold dict_get_or; by literal_lookup).
    assert (Hfe : ∃ v, dict_get data "from_email" = v ∧ sql_adapt v = Ok v).
    { subst data. unfold dict_get. literal_lookup. cbn. destruct fe; by eexists. }
    destruct Hfe as (v & Hv & Hav).
    rewrite Hs, Hgbt, Hgloc, Hgmr, Hv in Hc. cbn [adapt_values] in Hc.
    rewrite (in_range_adapt mr Hmr), Hav in Hc. cbn in Hc.
    match type of Hc with
    | (if existsb ?f ?l then _ else _) = _ =>
        assert (Hex : existsb f l = false); [|by rewrite Hex in Hc]
    end.
    apply not_true_is_false. intros Hex. apply existsb_exists in Hex as (r & Hin & Hr).
    unfold other_campaigns in Hold. rewrite Forall_forall in Hold.
    apply list_elem_of_In in Hin. specialize (Hold r Hin).
    revert Hr. unfold dict_get at 2, dict_update.
    erewrite lookup_union_Some_l; [|by literal_lookup]. cbn. by rewrite Hold.
Qed.

Lemma hoare_ext {A} P (m m' : M A) Q R :
  (∀ w, m w = m' w) → hoare P m' Q R → hoare P m Q R.
Proof. intros Hm H w Hw. rewrite Hm. by apply H. Qed.

Lemma scrape_keeps_campaign E C c old cols bt loc mr :
  preserves (campaign_is c old cols) (_scrape_businesses E C (VStr c) bt loc mr).
Proof.
  apply preserves_try.
  - apply preserves_bind; [apply preserves_lift|]. intros ?.
    apply preserves_bind; [apply record_pipeline_run_keeps|]. intros ?.
    apply preserves_ret.
  - intros e. apply preserves_bind; [apply record_pipeline_run_keeps|].
    intros ?. apply preserves_raise.
Qed.

Lemma export_preserves E C cid (I : world → Prop) :
  preserves I (_export_results E C cid).
Proof.
  intros w Hw. pose proof (_export_results_pure E C cid w) as Hx.
  destruct (_export_results E C cid w) as [w1 [x|e]]; cbn in Hx; by subst.
Qed.

Ltac in_list := rewrite !elem_of_cons; tauto.

Ltac sets_running :=
  apply sets_singleton_other; unfold cols_running; repeat constructor; done.

Lemma stages_keep_campaign E C c old bt loc :
  other_campaigns c old →
  preserves (campaign_is c old (cols_running bt loc)) (_validate_leads E C (VStr c)) ∧
  preserves (campaign_is c old (cols_running bt loc))
            (_enrich_linkedin_profiles E C (VStr c)) ∧
  preserves (campaign_is c old (cols_running bt loc))
            (_research_companies E C (VStr c)) ∧
  preserves (campaign_is c old (cols_running bt loc))
            (_personalize_messages E C (VStr c)).
Proof.
  intros Hold. repeat split.
  - eapply hoare_ext; [apply _validate_leads_plan|].
    apply plan_keeps_campaign; [done|]. intros leads built counter Hb Hc.
    cbn in Hb. destruct (Validator.validate_leads_batch _ _); [|done].
    destruct (map_result _ _); [|done]. injection Hb as <-. injection Hc as <-.
    split; [done|]. split; [apply map_non_empty_singleton|sets_running].
  - eapply hoare_ext; [apply _enrich_linkedin_profiles_plan|].
    apply plan_keeps_campaign; [done|]. intros leads built counter Hb Hc.
    cbn in Hb. destruct (map_result _ _); [|done]. injection Hb as <-.
    injection Hc as <-.
    split; [done|]. split; [apply map_non_empty_singleton|sets_running].
  - eapply hoare_ext; [apply _research_companies_plan|].
    apply plan_keeps_campaign; [done|]. intros leads built counter Hb Hc.
    cbn in Hb. destruct (map_result _ _); [|done]. by injection Hb as <-.
  - eapply hoare_ext; [apply _personalize_messages_plan|].
    apply plan_keeps_campaign; [done|]. intros leads built counter Hb Hc.
    cbn in Hb. destruct (map_result _ _); [|done]. injection Hb as <-.
    injection Hc as <-.
    split; [done|]. split; [apply map_non_empty_singleton|sets_running].
Qed.

Lemma pipeline_body_campaign cfg E C c old bt loc mr :
  other_campaigns c old →
  hoare (campaign_is c old (cols_running bt loc))
        (pipeline_body cfg E C (VStr c) bt loc mr)
        (fun _ => campaign_is c old (cols_completed C bt loc))
        (fun _ => campaign_is c old (cols_running bt loc)).
Proof.
  intros Hold.
  destruct (stages_keep_campaign E C c old bt loc Hold) as (Hv & He & Hr & Hp).
  unfold pipeline_body.
  apply hoare_bind_inv.
  { apply update_campaign_keeps; [done|done|apply map_non_empty_singleton|sets_running]. }
  intros ?. apply hoare_bind_inv; [apply campaign_is_logger_info|].
  intros ?. apply hoare_bind_inv; [apply scrape_keeps_campaign|].
  intros [|b bs]; [by apply hoare_raise|].
  apply hoare_bind_inv; [apply campaign_is_logger_info|].
  intros ?. apply hoare_bind_inv.
  { apply campaign_is_frame. intros ?? H. by apply insert_leads_spec in H as (?&_). }
  intros ?. apply hoare_bind_inv.
  { apply update_campaign_keeps; [done|done|apply map_non_empty_singleton|sets_running]. }
  intros ?. apply hoare_bind_inv.
  { apply preserves_when, preserves_bind; [apply campaign_is_logger_info|done]. }
  intros ?. apply hoare_bind_inv.
  { apply preserves_when, preserves_bind; [apply campaign_is_logger_info|done]. }
  intros ?. apply hoare_bind_inv.
  { apply preserves_when, preserves_bind; [apply campaign_is_logger_info|done]. }
  intros ?. apply hoare_bind_inv.
  { apply preserves_when, preserves_bind; [apply campaign_is_logger_info|done]. }
  intros ?. apply hoare_bind_inv; [apply campaign_is_logger_info|].
  intros ?. apply hoare_bind_inv; [apply export_preserves|].
  intros csv. apply hoare_bind_inv; [apply preserves_db_read|].
  intros stats.
  eapply hoare_bind with (Q' := fun _ => campaign_is c old (cols_completed C bt loc));
    [|intros ?; by apply hoare_ret].
  apply update_campaign_sets; [done|by literal_lookup| |].
  - apply insert_non_empty.
  - unfold sets, cols_completed, cols_running.
    repeat (apply Forall_cons; split; [split; [done|]|]); [..|done];
      cbn [fst snd].
    + right. split; [by literal_lookup|]. in_list.
    + right. split; [by literal_lookup|]. in_list.
    + left. eexists. split; [by literal_lookup|done].
    + left. eexists. split; [by literal_lookup|done].
Qed.

Lemma run_campaign_row cfg E C bt loc mr name fe w :
  other_campaigns ("campaign_" ++ now_compact E)%string (campaigns (store w)) →
  - 2 ^ 63 ≤ mr < 2 ^ 63 →
  match run_complete_pipeline cfg E C bt loc mr name fe w with
  | (w', Ok _) =>
      campaign_is ("campaign_" ++ now_compact E)%string (campaigns (store w))
                  (cols_completed C bt loc) w'
  | (w', Raise e) =>
      campaign_is ("campaign_" ++ now_compact E)%string (campaigns (store w))
                  (cols_failed bt loc e) w'
  end.
Proof.
  intros Hold Hmr. set (c := ("campaign_" ++ now_compact E)%string) in *.
  destruct (_create_campaign_ok E bt loc mr name fe w Hold Hmr)
    as (w1 & Hw1 & _ & _ & _ & Hc).
  unfold run_complete_pipeline, bind at 1. rewrite Hw1.
  fold c in Hc |- *.
  match goal with |- match ?m w1 with _ => _ end =>
    assert (H : hoare (campaign_is c (campaigns (store w)) (cols_running bt loc)) m
                  (fun _ => campaign_is c (campaigns (store w)) (cols_completed C bt loc))
                  (fun e => campaign_is c (campaigns (store w)) (cols_failed bt loc e)));
      [|exact (H w1 Hc)]
  end.
  eapply hoare_try; [by apply pipeline_body_campaign|].
  intros e.
  eapply hoare_bind with
    (Q' := fun _ => campaign_is c (campaigns (store w)) (cols_failed bt loc e));
    [|intros ?; by apply hoare_raise].
  apply hoare_never_raises.
  apply update_campaign_sets_ok; [done|by literal_lookup|apply insert_non_empty| |].
  - unfold sets, cols_failed, cols_running.
    repeat (apply Forall_cons; split; [split; [done|]|]); [..|done];
      cbn [fst snd].
    + right. split; [by literal_lookup|]. in_list.
    + right. split; [by literal_lookup|]. in_list.
    + right. split; [by literal_lookup|]. in_list.
    + left. eexists. split; [by literal_lookup|done].
    + left. eexists. split; [by literal_lookup|done].
  - intros k v Hk.
    apply lookup_insert_Some in Hk as [[<- <-]|[_ Hk]];
      [|apply lookup_singleton_Some in Hk as [<- <-]];
      (split; [done|eexists; split; [done|done]]).
Qed.

Lemma update_campaign_leaves_rest E cid u ls rs l :
  preserves (fun w => leads_are ls w ∧ runs_are rs l w)
            (db_write (update_campaign E cid u)).
Proof.
  apply preserves_db_write. intros w d [Hls [Hr Hl]] Hd.
  apply update_campaign_spec in Hd as (Hl' & Hp & _).
  unfold leads_are, runs_are. cbn. by rewrite Hl', Hp.
Qed.

Lemma update_campaign_leaves_rest_ok E c u ls rs l :
  u !! "id" = None →
  (∀ k v, u !! k = Some v →
          mem k campaign_columns = true ∧ ∃ v', sql_adapt v = Ok v' ∧ v' ≠ VNone) →
  hoare (fun w => leads_are ls w ∧ runs_are rs l w)
        (db_write (update_campaign E (VStr c) u))
        (fun _ w => leads_are ls w ∧ runs_are rs l w) (fun _ _ => False).
Proof.
  intros Hid Hu w Hw.
  pose proof (update_campaign_leaves_rest E (VStr c) u ls rs l w Hw) as H.
  unfold db_write in *.
  destruct (update_campaign_ok E c u (store w) Hid Hu) as [d' Hd].
  by rewrite Hd in *.
Qed.

Lemma scrape_nothing_found E C c bt loc mr ls rs l :
  search_businesses C bt loc mr = Ok [] →
  hoare (fun w => leads_are ls w ∧ runs_are rs l w)
        (_scrape_businesses E C (VStr c) bt loc mr)
        (fun businesses w =>
           businesses = [] ∧ leads_are ls w ∧ one_more_run rs l "scraping" w)
        (fun _ _ => False).
Proof.
  intros Hs.
  eapply hoare_try with (R' := fun _ _ => False); [|by intros ? ? []].
  eapply hoare_bind with
    (Q' := fun b w => b = [] ∧ leads_are ls w ∧ runs_are rs l w).
  { apply hoare_lift. intros w Hw. by rewrite Hs. }
  intros b w (-> & Hls & Hr & Hl).
  destruct (record_pipeline_run_ok E c "scraping" "completed" None 0 0 0 None
              (store w)) as [d Hd]; try done.
  unfold bind, db_write. change (Z.of_nat (length (@nil dict))) with 0.
  rewrite Hd. cbn.
  apply record_pipeline_run_spec in Hd as (_ & Hl' & _ & row & Hp & Hst & _).
  split; [done|]. split; [unfold leads_are; cbn; congruence|].
  split; [done|]. exists row. cbn. by rewrite Hp, Hr.
Qed.

Lemma status_update_ok (u : dict) status rest :
  u = <["status" := VStr status]> rest →
  (rest = ∅ ∨ ∃ msg, rest = {["error_message" := VStr msg]}) →
  u !! "id" = None ∧
  (∀ k v, u !! k = Some v →
          mem k campaign_columns = true ∧ ∃ v', sql_adapt v = Ok v' ∧ v' ≠ VNone).
Proof.
  intros -> Hrest. split.
  - destruct Hrest as [->|[msg ->]]; by literal_lookup.
  - intros k v Hk. apply lookup_insert_Some in Hk as [[<- <-]|[_ Hk]].
    { split; [done|]. by eexists. }
    destruct Hrest as [->|[msg ->]]; [done|].
    apply lookup_singleton_Some in Hk as [<- <-]. split; [done|]. by eexists.
Qed.

Lemma run_nothing_found cfg E C bt loc mr name fe w :
  other_campaigns ("campaign_" ++ now_compact E)%string (campaigns (store w)) →
  - 2 ^ 63 ≤ mr < 2 ^ 63 →
  search_businesses C bt loc mr = Ok [] →
  match run_complete_pipeline cfg E C bt loc mr name fe w with
  | (w', Raise e) =>
      e = no_businesses ∧ leads_are (leads (store w)) w' ∧
      one_more_run (pipeline_runs (store w)) (log w ++ [step1]) "scraping" w'
  | (_, Ok _) => False
  end.
Proof.
  intros Hold Hmr Hs. set (c := ("campaign_" ++ now_compact E)%string) in *.
  destruct (_create_campaign_ok E bt loc mr name fe w Hold Hmr)
    as (w1 & Hw1 & Hl1 & Hls1 & Hr1 & _).
  unfold run_complete_pipeline, bind at 1. rewrite Hw1. fold c.
  set (ls := leads (store w)) in *. set (rs := pipeline_runs (store w)) in *.
  set (l := log w) in *.
  set (Q := fun w' => leads_are ls w' ∧ one_more_run rs (l ++ [step1]) "scraping" w').
  match goal with |- match ?m w1 with _ => _ end =>
    assert (H : hoare (fun w => leads_are ls w ∧ runs_are rs l w) m
                  (fun _ _ => False) (fun e w' => e = no_businesses ∧ Q w'))
  end.
  { eapply hoare_try with (R' := fun e w' => e = no_businesses ∧ Q w').
    - unfold pipeline_body.
      eapply hoare_bind with (Q' := fun _ w => leads_are ls w ∧ runs_are rs l w).
      { apply hoare_never_raises.
        apply update_campaign_leaves_rest_ok;
          eapply (status_update_ok _ "running" ∅); try done; by left. }
      intros ?.
      eapply hoare_bind with
        (Q' := fun _ w => leads_are ls w ∧ runs_are rs (l ++ [step1]) w).
      { apply hoare_logger_info. intros w' (Hls & Hr & Hl).
        unfold leads_are, runs_are. cbn. by rewrite Hl. }
      intros ?.
      eapply hoare_bind.
      { apply hoare_never_raises. by apply scrape_nothing_found. }
      intros b w' (-> & Hw'). by split.
    - intros e.
      eapply hoare_bind with (Q' := fun _ w' => e = no_businesses ∧ Q w').
      + apply hoare_never_raises. apply hoare_db_write.
        intros w' (-> & Hls & Hl & row & Hp & Hst).
        edestruct (status_update_ok
                     (<["status" := VStr "failed"]>
                        {["error_message" := VStr (str_of_exn no_businesses)]})
                     "failed") as [Hid Hu]; [done|right; by eexists|].
        destruct (update_campaign_ok E c _ (store w') Hid Hu) as [d' Hd].
        rewrite Hd.
        apply update_campaign_spec in Hd as (Hl' & Hp' & _).
        split; [done|]. split; [unfold leads_are; cbn; congruence|].
        split; [done|]. exists row. cbn. by rewrite Hp'.
      + intros ?. by apply hoare_raise. }
  specialize (H w1 ltac:(by repeat split)).
  destruct (try_except _ _ w1) as [w' [a|e]]; [done|].
  by destruct H as (-> & ? & ?).
Qed.

Lemma parse_json_fields_other E fields (row lead : dict) k :
  parse_json_fields E fields row = Ok lead → k ∉ fields → lead !! k = row !! k.
Proof.
  revert row. induction fields as [|f fields IH]; intros row H Hk.
  - by injection H as <-.
  - apply not_elem_of_cons in Hk as [Hne Hk]. cbn [parse_json_fields] in H.
    destruct (truthy (dict_get row f)); [|by apply IH].
    destruct (dict_get row f); try done.
    rewrite (IH _ H Hk). by rewrite lookup_insert_ne.
Qed.

Lemma parse_rows_spec E rows ls :
  parse_rows E rows = Ok ls →
  Forall2 (fun row lead => parse_json_fields E json_fields row = Ok lead) rows ls.
Proof.
  revert ls. induction rows as [|row rows IH]; intros ls H; cbn [parse_rows] in H.
  - injection H as <-. constructor.
  - destruct (parse_json_fields E json_fields row) as [lead|] eqn:Hp; [|done].
    destruct (parse_rows E rows) as [rest|]; [|done].
    injection H as <-. constructor; [done|by apply IH].
Qed.

Lemma get_leads_by_campaign_spec E c status d ls :
  (∀ st, status = Some st → st ≠ "") →
  get_leads_by_campaign E (VStr c) (status_arg status) d = Ok ls →
  Forall2 (fun row lead => parse_json_fields E json_fields row = Ok lead)
          (List.filter (reads c status) (leads d)) ls.
Proof.
  intros Hst H. unfold get_leads_by_campaign in H.
  assert (Heq : ∀ cond, (cond = if truthy (status_arg status)
                   then [("campaign_id", VStr c); ("status", status_arg status)]
                   else [("campaign_id", VStr c)]) →
                adapt_values cond = Ok cond ∧
                ∀ row, where_holds cond row = reads c status row).
  { intros cond ->. destruct status as [st|]; cbn.
    - destruct (String.eqb_spec st ""); [by edestruct Hst|]. cbn.
      split; [done|]. intros row. unfold where_holds, reads. cbn.
      by rewrite andb_true_r.
    - split; [done|]. intros row. unfold where_holds, reads. cbn. done. }
  destruct (Heq _ eq_refl) as [Ha Hw]. rewrite Ha in H.
  apply parse_rows_spec in H.
  erewrite List.filter_ext; [exact H|]. intros row. by rewrite Hw.
Qed.

Lemma not_targeted E c status rows ls updates i row :
  primary_key rows →
  Forall2 (fun row lead => parse_json_fields E json_fields row = Ok lead)
          (List.filter (reads c status) rows) ls →
  Forall (fun u => ∃ lead, lead ∈ ls ∧ lead !! "id" = Some (dict_get u "id"))
         updates →
  rows !! i = Some row → reads c status row = false →
  targeted (VStr c) updates row = false.
Proof.
  intros (ids & Hids & Hnd & _) Hls Hup Hi Hreads.
  apply not_true_is_false. intros Ht. unfold targeted in Ht.
  apply andb_true_iff in Ht as [Hc Hex].
  apply existsb_exists in Hex as (u & Hu & Hn).
  rewrite Forall_forall in Hup. apply list_elem_of_In in Hu.
  destruct (Hup u Hu) as (lead & Hlead & Hlid).
  apply list_elem_of_lookup in Hlead as [j Hj].
  destruct (Forall2_lookup_r _ _ _ _ _ Hls Hj) as (row0 & Hrow0 & Hparse).
  assert (Hin0 : row0 ∈ List.filter (reads c status) rows)
    by (apply list_elem_of_lookup; eauto).
  apply list_elem_of_In, filter_In in Hin0 as [Hin0 Hr0].
  apply list_elem_of_In, list_elem_of_lookup in Hin0 as [i0 Hi0].
  destruct (Forall2_lookup_l _ _ _ _ _ Hids Hi) as (m & Hm & Hrm).
  destruct (Forall2_lookup_l _ _ _ _ _ Hids Hi0) as (n & Hn0 & Hrn).
  assert (Hlead_id : lead !! "id" = Some (VInt n)).
  { rewrite (parse_json_fields_other _ _ _ _ "id" Hparse); [done|].
    unfold json_fields. rewrite !not_elem_of_cons. repeat split; try done.
    apply not_elem_of_nil. }
  rewrite Hlid in Hlead_id. injection Hlead_id as Huid.
  unfold names_row in Hn. rewrite Huid in Hn.
  apply andb_true_iff in Hn as [_ Hn]. cbn in Hn.
  destruct ((- 2 ^ 63 <=? n) && (n <? 2 ^ 63)); [|done].
  unfold dict_get in Hn. rewrite Hrm in Hn. cbn in Hn.
  apply Z.eqb_eq in Hn as ->.
  assert (i = i0) as -> by (eapply NoDup_lookup; eauto).
  rewrite Hi in Hi0. injection Hi0 as ->. congruence.
Qed.

Lemma map_result_spec {A B} (f : A → result B) xs ys :
  map_result f xs = Ok ys → Forall2 (fun x y => f x = Ok y) xs ys.
Proof.
  revert ys. induction xs as [|x xs IH]; intros ys H; cbn in H.
  - injection H as <-. constructor.
  - destruct (f x) as [y|] eqn:Hy; [|done].
    destruct (map_result f xs) as [rest|]; [|done].
    injection H as <-. constructor; [done|by apply IH].
Qed.

Lemma updates_carry_ids (f : dict → result dict) leads updates :
  (∀ lead u, f lead = Ok u → lead !! "id" = Some (dict_get u "id")) →
  map_result f leads = Ok updates →
  Forall (fun u => ∃ lead, lead ∈ leads ∧ lead !! "id" = Some (dict_get u "id"))
         updates.
Proof.
  intros Hf H. apply map_result_spec in H.
  apply Forall_forall. intros u Hu.
  apply list_elem_of_lookup in Hu as [i Hi].
  destruct (Forall2_lookup_r _ _ _ _ _ H Hi) as (lead & Hl & Hfl).
  exists lead. split; [apply list_elem_of_lookup; eauto|by apply Hf].
Qed.

Ltac update_id :=
  let lead := fresh "lead" in
  let u := fresh "u" in
  let H := fresh "H" in
  intros lead u H;
  unfold validation_update, enrichment_update, research_update,
    personalization_update, dict_index in H;
  destruct (lead !! "id") as [id|]; [|done];
  injection H as <-; unfold dict_get; by literal_lookup.

Lemma validation_update_id : ∀ lead u,
  validation_update lead = Ok u → lead !! "id" = Some (dict_get u "id").
Proof. update_id. Qed.

Lemma enrichment_update_id : ∀ lead u,
  enrichment_update lead = Ok u → lead !! "id" = Some (dict_get u "id").
Proof. update_id. Qed.

Lemma research_update_id C : ∀ lead u,
  research_update C lead = Ok u → lead !! "id" = Some (dict_get u "id").
Proof. update_id. Qed.

Lemma personalization_update_id C : ∀ lead u,
  personalization_update C lead = Ok u → lead !! "id" = Some (dict_get u "id").
Proof. update_id. Qed.

Lemma lead_outcome_id W (lead : dict) :
  lead_outcome W lead !! "id" = lead !! "id".
Proof.
  unfold lead_outcome.
  destruct (Validator._validate_single_lead_async W lead) as [v|e] eqn:Hv.
  - eapply single_lead_frame; [done|]. unfold annotation_keys.
    rewrite !not_elem_of_cons. repeat split; try done. apply not_elem_of_nil.
  - by apply failed_lead_frame.
Qed.

Lemma plans_carry_ids C :
  ids_from_leads (validation_plan C) ∧ ids_from_leads enrichment_plan ∧
  ids_from_leads (research_plan C) ∧ ids_from_leads (personalization_plan C).
Proof.
  repeat split; intros leads built Hb; cbn in Hb.
  - rewrite validate_leads_batch_map in Hb.
    destruct (map_result _ _) as [updates|] eqn:Hm; [|done]. injection Hb as <-.
    cbn. apply (updates_carry_ids _ _ _ validation_update_id) in Hm.
    eapply Forall_impl; [exact Hm|]. intros u (vl & Hvl & Hid).
    apply list_elem_of_fmap in Hvl as (lead & -> & Hlead).
    exists lead. split; [done|]. by rewrite <- lead_outcome_id with (W := services C).
  - destruct (map_result _ _) as [updates|] eqn:Hm; [|done]. injection Hb as <-.
    by apply (updates_carry_ids _ _ _ enrichment_update_id).
  - destruct (map_result _ _) as [updates|] eqn:Hm; [|done]. injection Hb as <-.
    by apply (updates_carry_ids _ _ _ (research_update_id C)).
  - destruct (map_result _ _) as [updates|] eqn:Hm; [|done]. injection Hb as <-.
    by apply (updates_carry_ids _ _ _ (personalization_update_id C)).
Qed.

Lemma untouched_outside_frame c status rows (op : db → result db) :
  (∀ d d', op d = Ok d' → leads d' = leads d) →
  preserves (untouched_outside c status rows) (db_write op).
Proof.
  intros Hop. apply preserves_db_write. intros w d Hw Hd.
  unfold untouched_outside. cbn. by rewrite (Hop _ _ Hd).
Qed.

Lemma run_plan_frame E C p c status w :
  primary_key (leads (store w)) →
  (∀ st, status = Some st → st ≠ "") →
  plan_status p = status_arg status →
  ids_from_leads p →
  untouched_outside c status (leads (store w)) (fst (run_plan E C p (VStr c) w)).
Proof.
  intros Hpk Hst Hp Hids. unfold run_plan, bind, db_read. rewrite Hp.
  destruct (get_leads_by_campaign _ _ _ _) as [[|lead ls]|] eqn:Hread;
    try by (split; [done|auto]).
  apply get_leads_by_campaign_spec in Hread; [|done].
  set (rows := leads (store w)) in *.
  assert (H : preserves (untouched_outside c status rows)
                        (plan_attempt E C p (VStr c) (lead :: ls))).
  { apply preserves_try.
    - eapply hoare_bind with (Q' := fun built w' =>
          plan_build p (lead :: ls) = Ok built ∧ untouched_outside c status rows w').
      { apply hoare_lift. intros w' Hw'. by destruct (plan_build _ _). }
      intros built w' [Hbuilt Hw']. revert w' Hw'.
      change (preserves (untouched_outside c status rows)
                (db_write (update_leads_batch E (VStr c) built.1.1);;
                 match built.2 with
                 | Some counter => db_write (update_campaign E (VStr c) counter)
                 | None => ret ()
                 end;;
                 db_write (record_pipeline_run E (VStr c) (plan_name p) "completed"
                   (Some (elapsed C)) (Z.of_nat (length (lead :: ls)))
                   built.1.2 0 None))).
      apply preserves_bind.
      { apply preserves_db_write. intros w' d [Hlen Hfr] Hd.
        apply update_leads_batch_spec in Hd as (_ & _ & _ & _ & Hlen' & Hfr').
        split; [cbn; congruence|]. intros i row Hi Hr. cbn.
        apply Hfr'; [by apply Hfr|].
        eapply not_targeted; eauto. }
      intros ?. apply preserves_bind.
      { destruct (snd built); [|apply preserves_ret].
        apply untouched_outside_frame. intros ?? H.
        by apply update_campaign_spec in H as (?&_). }
      intros ?. apply untouched_outside_frame. intros ?? H.
      by apply record_pipeline_run_spec in H as (_&?&_).
    - intros e. apply preserves_bind; [|intros ?; apply preserves_raise].
      apply untouched_outside_frame. intros ?? H.
      by apply record_pipeline_run_spec in H as (_&?&_). }
  specialize (H w ltac:(by split)).
  by destruct (plan_attempt _ _ _ _ _ w) as [w' [|]].
Qed.

(** ** Stages and the leads they read *)


Lemma processed_updates_lookup E (u : dict) k v :
  u !! k = Some v → mem k json_fields = false →
  processed_updates E u !! k = Some v.
Proof.
  intros Hu Hk. unfold processed_updates. rewrite map_lookup_imap, Hu.
  cbv [mbind option_bind]. by rewrite Hk.
Qed.

Lemma processed_updates_lookup_None E (u : dict) k :
  u !! k = None → processed_updates E u !! k = None.
Proof. intros Hu. unfold processed_updates. by rewrite map_lookup_imap, Hu. Qed.

Lemma update_lead_rows_status E c next updates : ∀ rows rows',
  update_lead_rows E (VStr c) updates rows = Ok rows' →
  Forall (sets_status next) updates →
  ∀ i row n,
    rows !! i = Some row → row !! "id" = Some (VInt n) → n ≠ 0 →
    in_campaign (VStr c) row = true →
    (row !! "status" = Some (VStr next)
     ∨ ∃ u, u ∈ updates ∧ dict_get u "id" = VInt n) →
    ∃ row', rows' !! i = Some row' ∧ row' !! "id" = row !! "id"
            ∧ row' !! "status" = Some (VStr next).
Proof.
  induction updates as [|u updates IH]; intros rows rows' H Hall i row n Hi Hid Hn Hc Hor.
  - cbn in H. injection H as <-. destruct Hor as [Hs|(u & Hu & _)].
    + by exists row.
    + by apply elem_of_nil in Hu.
  - apply Forall_cons in Hall as [[Hst Hnc] Hall].
    cbn [update_lead_rows] in H.
    destruct (truthy (dict_get u "id")) eqn:Htr; cbn [negb] in H.
    2:{ apply (IH _ _ H Hall i row n); try done.
        destruct Hor as [Hs|(u0 & Hu0 & Hid0)]; [by left|].
        apply elem_of_cons in Hu0 as [->|Hu0]; [|right; eauto].
        rewrite Hid0 in Htr. cbn in Htr.
        apply negb_false_iff, Z.eqb_eq in Htr. lia. }
    assert (Hps : processed_updates E (delete "id" u) !! "status"
                  = Some (VStr next)).
    { apply processed_updates_lookup; [|done]. by rewrite lookup_delete_ne. }
    case_bool_decide as Hempty.
    { rewrite Hempty, lookup_empty in Hps. done. }
    destruct (sql_update _ _ _ _ _ _ _) as [rows1|] eqn:Hu; [|done].
    apply sql_update_spec in Hu as (bound & cond' & Hb & Hcond & ->).
    set (row1 := if where_holds cond' row then updated_row E bound row else row).
    assert (Hi1 : ((fun r => if where_holds cond' r then updated_row E bound r else r)
                     <$> rows) !! i = Some row1).
    { by rewrite list_lookup_fmap, Hi. }
    assert (H1 : row1 !! "id" = row !! "id"
                 ∧ row1 !! "campaign_id" = row !! "campaign_id"
                 ∧ (row1 !! "status" = Some (VStr next)
                    ∨ ∃ u0, u0 ∈ updates ∧ dict_get u0 "id" = VInt n)).
    { subst row1. destruct (where_holds cond' row) eqn:Hwh.
      - split; [|split].
        + eapply updated_row_lookup_ne; [exact Hb| |done].
          apply processed_updates_lookup_None. by rewrite lookup_delete_eq.
        + eapply updated_row_lookup_ne; [exact Hb| |done].
          apply processed_updates_lookup_None. by rewrite lookup_delete_ne.
        + left. eapply updated_row_lookup; [exact Hb|exact Hps|done|done].
      - split; [done|]. split; [done|].
        destruct Hor as [Hs|(u0 & Hu0 & Hid0)]; [by left|].
        apply elem_of_cons in Hu0 as [->|Hu0]; [|right; eauto].
        exfalso. rewrite Hid0 in Hcond. cbn in Hcond.
        destruct ((- 2 ^ 63 <=? n) && (n <? 2 ^ 63)); [|done].
        injection Hcond as <-. unfold where_holds in Hwh. cbn in Hwh.
        unfold in_campaign in Hc. cbn in Hc. rewrite Hc in Hwh.
        unfold dict_get in Hwh. rewrite Hid in Hwh. cbn in Hwh.
        by rewrite Z.eqb_refl in Hwh. }
    destruct H1 as (Hid1 & Hc1 & Hor1).
    destruct (IH _ _ H Hall i row1 n) as (row' & Hr' & Hid' & Hs'); try done.
    + by rewrite Hid1.
    + unfold in_campaign, dict_get in *. by rewrite Hc1.
    + exists row'. split; [done|]. split; [congruence|done].
Qed.

Lemma update_leads_batch_rows E cid updates d d' :
  update_leads_batch E cid updates d = Ok d' →
  update_lead_rows E cid updates (leads d) = Ok (leads d').
Proof.
  unfold update_leads_batch. destruct updates as [|u us].
  - by intros [= <-].
  - destruct (update_lead_rows _ _ _ _) as [rows|]; [|done]. by intros [= <-].
Qed.

Lemma moved_to_frame c status next rows (op : db → result db) :
  (∀ d d', op d = Ok d' → leads d' = leads d) →
  preserves (moved_to c status next rows) (db_write op).
Proof.
  intros Hop. apply preserves_db_write. intros w d Hw Hd.
  unfold moved_to. cbn. by rewrite (Hop _ _ Hd).
Qed.

Lemma hoare_may_raise {A} (P : world → Prop) (m : M A) Q :
  hoare P m Q (fun _ => P) → hoare P m Q (fun _ _ => True).
Proof. intros H w Hw. specialize (H w Hw). by destruct (m w) as [? [|]]. Qed.

Lemma run_plan_moves E C p c status next w w' :
  primary_key (leads (store w)) →
  (∀ st, status = Some st → st ≠ "") →
  plan_status p = status_arg status →
  advances p next →
  run_plan E C p (VStr c) w = (w', Ok tt) →
  moved_to c status next (leads (store w)) w'.
Proof.
  intros (ids & Hids & _ & Hpos) Hst Hp Hadv Hrun.
  unfold run_plan, bind, db_read in Hrun. rewrite Hp in Hrun.
  destruct (get_leads_by_campaign _ _ _ _) as [ls|] eqn:Hread; [|done].
  apply get_leads_by_campaign_spec in Hread; [|done].
  set (rows := leads (store w)) in *.
  destruct ls as [|lead ls].
  { apply Forall2_nil_inv_r in Hread. intros i row Hi Hr.
    assert (row ∈ List.filter (reads c status) rows) as Hin.
    { apply list_elem_of_In, filter_In. split; [|done].
      apply list_elem_of_In, list_elem_of_lookup. eauto. }
    rewrite Hread in Hin. by apply elem_of_nil in Hin. }
  assert (H : hoare (fun w0 => leads (store w0) = rows)
                    (plan_attempt E C p (VStr c) (lead :: ls))
                    (fun _ => moved_to c status next rows) (fun _ _ => True)).
  { unfold plan_attempt. apply hoare_try with (R' := fun _ _ => True).
    - eapply hoare_bind with (Q' := fun built w0 =>
          plan_build p (lead :: ls) = Ok built ∧ leads (store w0) = rows).
      { apply hoare_lift. intros w0 Hw0. by destruct (plan_build _ _). }
      intros built.
      eapply hoare_bind with (Q' := fun _ => moved_to c status next rows).
      { apply hoare_db_write. intros w0 [Hbuilt Hw0].
        destruct (update_leads_batch _ _ _ _) as [d|] eqn:Hd; [|done].
        apply update_leads_batch_rows in Hd. rewrite Hw0 in Hd.
        destruct (Hadv _ _ Hbuilt) as [Hsets Hevery].
        intros i row Hi Hr. cbn [store leads].
        destruct (Forall2_lookup_l _ _ _ _ _ Hids Hi) as (n & Hn & Hrow).
        assert (0 < n) as Hn0.
        { rewrite Forall_forall in Hpos. apply Hpos.
          apply list_elem_of_lookup. eauto. }
        assert (Hin : row ∈ List.filter (reads c status) rows).
        { apply list_elem_of_In, filter_In. split; [|done].
          apply list_elem_of_In, list_elem_of_lookup. eauto. }
        apply list_elem_of_lookup in Hin as [j Hj].
        destruct (Forall2_lookup_l _ _ _ _ _ Hread Hj) as (ld & Hld & Hparse).
        assert (Hld_id : ld !! "id" = Some (VInt n)).
        { rewrite (parse_json_fields_other _ _ _ _ "id" Hparse); [done|].
          unfold json_fields. rewrite !not_elem_of_cons. repeat split; try done.
          apply not_elem_of_nil. }
        destruct (Hevery ld) as (u & Hu & Huid).
        { apply list_elem_of_lookup. eauto. }
        rewrite Hld_id in Huid. injection Huid as Huid.
        apply (update_lead_rows_status _ _ _ _ _ _ Hd Hsets i row n);
          try done; [lia| |right; eauto].
        apply andb_true_iff in Hr as [Hr _]. unfold in_campaign. by cbn. }
      intros ?. apply hoare_may_raise. apply preserves_bind.
      { destruct (snd built); [|apply preserves_ret].
        apply moved_to_frame. intros ?? H.
        by apply update_campaign_spec in H as (?&_). }
      intros ?. apply moved_to_frame. intros ?? H.
      by apply record_pipeline_run_spec in H as (_&?&_).
    - intros e. eapply hoare_bind with (Q' := fun _ _ => True).
      + apply hoare_db_write. intros w0 _. by destruct (record_pipeline_run _ _ _ _ _ _ _ _ _ _).
      + intros ?. by apply hoare_raise. }
  specialize (H w eq_refl). by rewrite Hrun in H.
Qed.

Ltac update_status :=
  let lead := fresh "lead" in
  let u := fresh "u" in
  let H := fresh "H" in
  intros lead u H;
  unfold validation_update, enrichment_update, research_update,
    personalization_update, dict_index in H;
  destruct (lead !! "id") as [id|]; [|done];
  injection H as <-; split; by literal_lookup.

Lemma validation_update_status : ∀ lead u,
  validation_update lead = Ok u → sets_status "validated" u.
Proof. update_status. Qed.

Lemma enrichment_update_status : ∀ lead u,
  enrichment_update lead = Ok u → sets_status "enriched" u.
Proof. update_status. Qed.

Lemma research_update_status C : ∀ lead u,
  research_update C lead = Ok u → sets_status "researched" u.
Proof. update_status. Qed.

Lemma personalization_update_status C : ∀ lead u,
  personalization_update C lead = Ok u → sets_status "personalized" u.
Proof. update_status. Qed.

Lemma updates_advance (f : dict → result dict) next leads updates :
  (∀ lead u, f lead = Ok u → lead !! "id" = Some (dict_get u "id")) →
  (∀ lead u, f lead = Ok u → sets_status next u) →
  map_result f leads = Ok updates →
  Forall (sets_status next) updates ∧
  ∀ lead, lead ∈ leads →
    ∃ u, u ∈ updates ∧ lead !! "id" = Some (dict_get u "id").
Proof.
  intros Hid Hs H. apply map_result_spec in H. split.
  - apply Forall_forall. intros u Hu.
    apply list_elem_of_lookup in Hu as [i Hi].
    destruct (Forall2_lookup_r _ _ _ _ _ H Hi) as (lead & _ & Hf). eauto.
  - intros lead Hl. apply list_elem_of_lookup in Hl as [i Hi].
    destruct (Forall2_lookup_l _ _ _ _ _ H Hi) as (u & Hu & Hf).
    exists u. split; [apply list_elem_of_lookup; eauto|eauto].
Qed.

Lemma plans_advance C :
  advances (validation_plan C) "validated" ∧
  advances enrichment_plan "enriched" ∧
  advances (research_plan C) "researched" ∧
  advances (personalization_plan C) "personalized".
Proof.
  refine (conj _ (conj _ (conj _ _))); intros leads built Hb; cbn in Hb.
  - rewrite validate_leads_batch_map in Hb.
    destruct (map_result _ _) as [updates|] eqn:Hm; [|done]. injection Hb as <-.
    cbn [fst snd].
    destruct (updates_advance _ _ _ _ validation_update_id
                validation_update_status Hm) as [Hs He].
    split; [done|]. intros lead Hl.
    destruct (He (lead_outcome (services C) lead)) as (u & Hu & Hid).
    { apply list_elem_of_fmap. eauto. }
    exists u. split; [done|]. by rewrite <- lead_outcome_id with (W := services C).
  - destruct (map_result _ _) as [updates|] eqn:Hm; [|done]. injection Hb as <-.
    exact (updates_advance _ _ _ _ enrichment_update_id
             enrichment_update_status Hm).
  - destruct (map_result _ _) as [updates|] eqn:Hm; [|done]. injection Hb as <-.
    exact (updates_advance _ _ _ _ (research_update_id C)
             (research_update_status C) Hm).
  - destruct (map_result _ _) as [updates|] eqn:Hm; [|done]. injection Hb as <-.
    exact (updates_advance _ _ _ _ (personalization_update_id C)
             (personalization_update_status C) Hm).
Qed.


(** ** Runs *)

Lemma row_has_lookup cols (row : dict) k v :
  row_has cols row → (k, v) ∈ cols → row !! k = Some v.
Proof.
  unfold row_has. rewrite Forall_forall. intros H Hin. exact (H (k, v) Hin).
Qed.

Lemma _create_campaign_spec E bt loc mr name fe w :
  match _create_campaign E bt loc mr name fe w with
  | (w', Ok cid) =>
      cid = VStr (new_campaign_id E) ∧ log w' = log w ∧
      pipeline_runs (store w') = pipeline_runs (store w)
  | (w', Raise _) => w' = w
  end.
Proof.
  unfold _create_campaign.
  match goal with |- context [create_campaign E ?x _] => set (data := x) end.
  destruct (create_campaign E data (store w)) as [[cid d]|e] eqn:Hc; [|done].
  apply create_campaign_spec with (bt := bt) (loc := loc) in Hc
    as (-> & _ & Hp & _); subst data; by try literal_lookup.
Qed.

Lemma run_progress cfg E C bt loc mr name fe w :
  progress (pipeline_runs (store w)) (log w) 0
           (fst (run_complete_pipeline cfg E C bt loc mr name fe w)).
Proof.
  assert (H0 : ∀ w', pipeline_runs (store w') = pipeline_runs (store w) →
                     log w' = log w →
                     progress (pipeline_runs (store w)) (log w) 0 w').
  { intros w' Hr Hl. exists [], []. rewrite !app_nil_r. by repeat split. }
  unfold run_complete_pipeline, bind at 1.
  pose proof (_create_campaign_spec E bt loc mr name fe w) as Hc.
  destruct (_create_campaign E bt loc mr name fe w) as [w1 [cid|e]];
    [|subst; by apply H0].
  destruct Hc as (-> & Hl & Hr).
  match goal with |- progress _ _ _ (fst (?m w1)) =>
    assert (H : preserves (progress (pipeline_runs (store w)) (log w) 0) m)
  end.
  { apply preserves_try; [apply run_writes_at_most_attempted|].
    intros e. apply preserves_bind; [|intros ?; apply preserves_raise].
    apply progress_frame. intros ?? H. by apply update_campaign_spec in H as (_&?&_). }
  specialize (H w1 (H0 w1 Hr Hl)).
  by destruct (try_except _ _ w1) as [w' [a|e]].
Qed.

(** C4, as amended.  An attempt of the scraping stage appends exactly one
    PipelineRun row.  An attempt of the validation, enrichment, research
    or personalization stage appends exactly one row when the stage finds
    at least one lead to work on, and none when it finds no lead.  The
    export stage appends none.  So a run appends at most as many rows as
    it attempted stages other than the export. *)
Theorem pipeline_runs_per_attempt cfg E C c bt loc mr name fe :
  (∀ w, one_more_run (pipeline_runs (store w)) (log w) "scraping"
          (fst (_scrape_businesses E C (VStr c) bt loc mr w))) ∧
  records_attempt E c VNone "validation" (_validate_leads E C (VStr c)) ∧
  records_attempt E c (VStr "validated") "linkedin_enrichment"
                  (_enrich_linkedin_profiles E C (VStr c)) ∧
  records_attempt E c (VStr "enriched") "research"
                  (_research_companies E C (VStr c)) ∧
  records_attempt E c (VStr "researched") "personalization"
                  (_personalize_messages E C (VStr c)) ∧
  (∀ w, fst (_export_results E C (VStr c) w) = w) ∧
  (∀ w, progress (pipeline_runs (store w)) (log w) 0
          (fst (run_complete_pipeline cfg E C bt loc mr name fe w))).
Proof.
  refine (conj _ (conj _ (conj _ (conj _ (conj _ (conj _ _)))))).
  - intros w.
    pose proof (_scrape_businesses_rows E C c bt loc mr _ _ w
                  (conj eq_refl eq_refl)) as H.
    by destruct (_scrape_businesses _ _ _ _ _ _ w) as [w' [a|e]].
  - intros w. rewrite _validate_leads_plan.
    apply (run_plan_rows E C (validation_plan C)).
  - intros w. rewrite _enrich_linkedin_profiles_plan.
    apply (run_plan_rows E C enrichment_plan).
  - intros w. rewrite _research_companies_plan.
    apply (run_plan_rows E C (research_plan C)).
  - intros w. rewrite _personalize_messages_plan.
    apply (run_plan_rows E C (personalization_plan C)).
  - apply _export_results_pure.
  - apply run_progress.
Qed.

(** C5, as amended.  [run_complete_pipeline] does not examine
    [business_type] or [location]: whatever they are, the empty string
    included, when the id of the new campaign is free (and [max_results]
    fits an SQL integer) the run creates the Campaign row first, and the
    row is in the store, with the given [business_type] and [location],
    when the run ends. *)
Theorem run_creates_campaign_for_any_input cfg E C bt loc mr name fe w :
  other_campaigns (new_campaign_id E) (campaigns (store w)) →
  - 2 ^ 63 ≤ mr < 2 ^ 63 →
  ∃ row,
    campaigns (store (fst (run_complete_pipeline cfg E C bt loc mr name fe w)))
    = campaigns (store w) ++ [row] ∧
    row !! "id" = Some (VStr (new_campaign_id E)) ∧
    row !! "business_type" = Some (VStr bt) ∧
    row !! "location" = Some (VStr loc).
Proof.
  intros Hold Hmr.
  pose proof (run_campaign_row cfg E C bt loc mr name fe w Hold Hmr) as H.
  destruct (run_complete_pipeline _ _ _ _ _ _ _ _ w) as [w' [a|e]];
    destruct H as (row & Hc & Hid & Hrow); exists row;
    (repeat split; [done|done|..]);
    (eapply row_has_lookup; [exact Hrow|]);
    unfold cols_completed, cols_failed; in_list.
Qed.

(** C6.  When the places search returns the empty list (the id of the new
    campaign being free), [run_complete_pipeline] raises "No businesses
    found"; the Campaign row ends with status 'failed' and that message
    as [error_message]; no lead is stored, the scrape is the only stage
    attempted and its row the only PipelineRun row written. *)
Theorem no_businesses_fails_campaign cfg E C bt loc mr name fe w :
  other_campaigns (new_campaign_id E) (campaigns (store w)) →
  - 2 ^ 63 ≤ mr < 2 ^ 63 →
  search_businesses C bt loc mr = Ok [] →
  ∃ w' row run,
    run_complete_pipeline cfg E C bt loc mr name fe w
    = (w', Raise (mkExn "Exception" "No businesses found")) ∧
    campaigns (store w') = campaigns (store w) ++ [row] ∧
    row !! "status" = Some (VStr "failed") ∧
    row !! "error_message" = Some (VStr "No businesses found") ∧
    leads (store w') = leads (store w) ∧
    pipeline_runs (store w') = pipeline_runs (store w) ++ [run] ∧
    run !! "stage" = Some (VStr "scraping") ∧
    stages_attempted (log w') = stages_attempted (log w) ++ [Scrape].
Proof.
  intros Hold Hmr Hs.
  pose proof (run_campaign_row cfg E C bt loc mr name fe w Hold Hmr) as Hrow.
  pose proof (run_nothing_found cfg E C bt loc mr name fe w Hold Hmr Hs) as Hrun.
  destruct (run_complete_pipeline _ _ _ _ _ _ _ _ w) as [w' [a|e]]; [done|].
  destruct Hrun as (-> & Hl & Hlog & run & Hp & Hst).
  destruct Hrow as (row & Hc & _ & Hrow).
  exists w', row, run. repeat split; try done.
  - eapply row_has_lookup; [exact Hrow|]. unfold cols_failed. in_list.
  - eapply (row_has_lookup _ _ "error_message"); [exact Hrow|].
    unfold cols_failed. in_list.
  - rewrite Hlog. unfold stages_attempted. by rewrite omap_app.
Qed.


(** ** The properties on concrete worlds *)

(** * Further properties of the store, the pipeline, the validator and
    their helpers *)

Lemma autoincrement_primary_key rows seq :
  autoincrement rows seq → primary_key rows.
Proof.
  intros (_ & ids & H2 & Hnd & Hr). exists ids. split; [done|]. split; [done|].
  eapply Forall_impl; [exact Hr|]. cbn. lia.
Qed.

Lemma autoincrement_same_ids rows rows' seq :
  Forall2 (fun r r' : dict => r' !! "id" = r !! "id") rows rows' →
  autoincrement rows seq → autoincrement rows' seq.
Proof.
  intros Hsame (Hseq & ids & H2 & Hnd & Hr). split; [done|].
  exists ids. split; [|done].
  clear Hnd Hr. revert ids H2.
  induction Hsame as [|r r' rows rows' Hid _ IH]; intros ids H2.
  - inversion H2; subst. constructor.
  - inversion H2 as [|? n ? ids' Hn Hrest]; subst.
    constructor; [congruence|by apply IH].
Qed.

Lemma autoincrement_snoc rows seq (row : dict) :
  autoincrement rows seq → row !! "id" = Some (VInt (seq + 1)) →
  autoincrement (rows ++ [row]) (seq + 1).
Proof.
  intros (Hseq & ids & H2 & Hnd & Hr) Hid. split; [lia|].
  exists (ids ++ [seq + 1]).
  split; [apply Forall2_app; [done|by constructor]|]. split.
  - apply NoDup_app. split; [done|]. split; [|apply NoDup_singleton].
    intros n Hn Hn'. apply list_elem_of_singleton in Hn'. subst n.
    rewrite Forall_forall in Hr. specialize (Hr _ Hn). lia.
  - apply Forall_app. split.
    + eapply Forall_impl; [exact Hr|]. cbn. lia.
    + constructor; [lia|constructor].
Qed.

Lemma autoincrement_filter (p : dict → bool) rows seq :
  autoincrement rows seq → autoincrement (List.filter p rows) seq.
Proof.
  intros (Hseq & ids & H2 & Hnd & Hr). split; [done|].
  assert (∃ ids', Forall2 (fun (row : dict) n => row !! "id" = Some (VInt n))
                          (List.filter p rows) ids'
                  ∧ NoDup ids' ∧ Forall (fun n => 0 < n ≤ seq) ids'
                  ∧ ∀ m, m ∈ ids' → m ∈ ids) as (ids' & ? & ? & ? & _);
    [|by exists ids'].
  revert Hnd Hr. induction H2 as [|r n rows ids Hn _ IH]; intros Hnd Hr.
  - exists []. cbn. repeat split; try constructor. done.
  - apply NoDup_cons in Hnd as [Hnin Hnd]. apply Forall_cons in Hr as [Hn0 Hr].
    destruct (IH Hnd Hr) as (ids' & H2' & Hnd' & Hr' & Hsub).
    cbn. destruct (p r).
    + exists (n :: ids'). split; [by constructor|]. split; [|split].
      * apply NoDup_cons. split; [|done]. intros Hin. apply Hnin. by apply Hsub.
      * by constructor.
      * intros m Hm. apply elem_of_cons in Hm as [->|Hm]; [left|right; by apply Hsub].
    + exists ids'. repeat split; try done. intros m Hm. right. by apply Hsub.
Qed.

Lemma sql_eq_sym a b : sql_eq a b = sql_eq b a.
Proof.
  destruct a, b; cbn; try done.
  - apply Z.eqb_sym.
  - unfold Qeq_bool. cbn. apply Z.eqb_sym.
  - unfold Qeq_bool. cbn. apply Z.eqb_sym.
  - unfold Qeq_bool. apply Z.eqb_sym.
  - apply String.eqb_sym.
Qed.

Lemma has_duplicate_id_snoc rows (row : dict) :
  has_duplicate_id (rows ++ [row])
  = has_duplicate_id rows
    || existsb (fun r => sql_eq (dict_get r "id") (dict_get row "id")) rows.
Proof.
  induction rows as [|r rows IH]; [done|].
  cbn [app has_duplicate_id existsb]. rewrite IH, existsb_app. cbn [existsb].
  rewrite orb_false_r, (sql_eq_sym (dict_get row "id")).
  destruct (existsb _ rows), (sql_eq _ _), (has_duplicate_id rows), (existsb _ rows);
    done.
Qed.

Lemma has_duplicate_id_same_ids rows rows' :
  Forall2 (fun r r' : dict => r' !! "id" = r !! "id") rows rows' →
  has_duplicate_id rows' = has_duplicate_id rows.
Proof.
  induction 1 as [|r r' rows rows' Hid Hrest IH]; [done|].
  cbn [has_duplicate_id]. rewrite IH. f_equal.
  unfold dict_get. rewrite Hid. clear IH.
  induction Hrest as [|x x' xs xs' Hx _ IHx]; [done|].
  cbn. by rewrite IHx, Hx.
Qed.

Lemma has_duplicate_id_filter (p : dict → bool) rows :
  has_duplicate_id rows = false → has_duplicate_id (List.filter p rows) = false.
Proof.
  induction rows as [|r rows IH]; [done|]. cbn [has_duplicate_id].
  intros H. apply orb_false_iff in H as [Hex Hd]. cbn. destruct (p r).
  - cbn. rewrite (IH Hd), orb_false_r.
    apply not_true_is_false. intros Ht. apply existsb_exists in Ht as (x & Hx & Hxe).
    apply filter_In in Hx as [Hx _].
    assert (existsb (fun r0 => sql_eq (dict_get r0 "id") (dict_get r "id")) rows = true);
      [|congruence].
    apply existsb_exists. eauto.
  - by apply IH.
Qed.

Lemma sql_update_same_ids E table columns not_null (assign : dict) cond rows rows' :
  sql_update E table columns not_null assign cond rows = Ok rows' →
  assign !! "id" = None →
  Forall2 (fun r r' : dict => r' !! "id" = r !! "id") rows rows'.
Proof.
  intros H Hid. apply sql_update_spec in H as (bound & cond' & Hb & _ & ->).
  induction rows as [|r rows IH]; [constructor|].
  cbn. constructor; [|done].
  destruct (where_holds cond' r); [|done].
  by eapply updated_row_lookup_ne.
Qed.

Lemma Forall2_same_refl (rows : list dict) :
  Forall2 (fun r r' : dict => r' !! "id" = r !! "id") rows rows.
Proof. induction rows; by constructor. Qed.

Lemma Forall2_same_trans (a b c : list dict) :
  Forall2 (fun r r' : dict => r' !! "id" = r !! "id") a b →
  Forall2 (fun r r' : dict => r' !! "id" = r !! "id") b c →
  Forall2 (fun r r' : dict => r' !! "id" = r !! "id") a c.
Proof.
  intros H. revert c. induction H as [|x y a b Hxy _ IH]; intros c Hc.
  - inversion Hc. constructor.
  - inversion Hc as [|? z ? c' Hyz Hrest]; subst.
    constructor; [congruence|by apply IH].
Qed.

Lemma update_lead_rows_same_ids E cid updates rows rows' :
  update_lead_rows E cid updates rows = Ok rows' →
  Forall2 (fun r r' : dict => r' !! "id" = r !! "id") rows rows'.
Proof.
  revert rows. induction updates as [|u updates IH]; intros rows H.
  - cbn in H. injection H as <-. apply Forall2_same_refl.
  - cbn [update_lead_rows] in H.
    destruct (truthy (dict_get u "id")); cbn [negb] in H; [|by apply IH].
    case_bool_decide; [by apply IH|].
    destruct (sql_update _ _ _ _ _ _ _) as [rows1|] eqn:Hu; [|done].
    eapply Forall2_same_trans; [|by apply IH].
    eapply sql_update_same_ids; [exact Hu|].
    unfold processed_updates. by rewrite map_lookup_imap, lookup_delete_eq.
Qed.

Lemma sql_insert_default table not_null values (defaults : dict) row k :
  sql_insert table not_null values defaults = Ok row →
  (list_to_map values : dict) !! k = None →
  row !! k = defaults !! k.
Proof.
  unfold sql_insert. intros H Hk.
  destruct (adapt_values values) as [bound|] eqn:Hb; [|done].
  destruct (null_violation _ _); [done|]. injection H as <-.
  unfold dict_update. apply lookup_union_r.
  by rewrite (adapt_values_lookup _ _ _ Hb), Hk.
Qed.

Lemma sql_insert_value table not_null values (defaults : dict) row k v :
  sql_insert table not_null values defaults = Ok row →
  (list_to_map values : dict) !! k = Some v →
  ∃ v', sql_adapt v = Ok v' ∧ row !! k = Some v'.
Proof.
  unfold sql_insert. intros H Hk.
  destruct (adapt_values values) as [bound|] eqn:Hb; [|done].
  destruct (null_violation _ _); [done|]. injection H as <-.
  pose proof (adapt_values_lookup _ _ k Hb) as Hl. rewrite Hk in Hl. cbn in Hl.
  unfold adapted in Hl. destruct (sql_adapt v) as [v'|] eqn:Hv.
  - exists v'. split; [done|]. unfold dict_update. by apply lookup_union_Some_l.
  - exfalso. clear -Hb Hk Hv.
    revert bound Hb. induction values as [|[k0 v0] values IH]; intros bound Hb; [done|].
    cbn in Hb. destruct (sql_adapt v0) as [v0'|] eqn:Hv0; [|done].
    destruct (adapt_values values) as [rest|] eqn:Hr; [|done].
    cbn in Hk. destruct (decide (k0 = k)) as [->|Hne].
    + rewrite lookup_insert_eq in Hk. congruence.
    + rewrite lookup_insert_ne in Hk by done. by eapply IH.
Qed.

Lemma insert_lead_rows_autoincrement E cid new rows seq rows' seq' :
  insert_lead_rows E cid new rows seq = Ok (rows', seq') →
  autoincrement rows seq → autoincrement rows' seq'.
Proof.
  revert rows seq. induction new as [|lead new IH]; intros rows seq H Ha.
  - cbn in H. by injection H as <- <-.
  - cbn [insert_lead_rows] in H.
    destruct (sql_insert _ _ _ _) as [row|] eqn:Hi; [|done].
    apply (IH _ _ H). apply autoincrement_snoc; [done|].
    rewrite (sql_insert_default _ _ _ _ _ "id" Hi); [|by literal_lookup].
    unfold lead_defaults. by literal_lookup.
Qed.

Lemma create_campaign_consistent E data d cid d' :
  create_campaign E data d = Ok (cid, d') → consistent d → consistent d'.
Proof.
  unfold create_campaign. intros H (Hl & Hr & Hc).
  destruct (sql_insert _ _ _ _) as [row|]; [|done].
  destruct (existsb _ _) eqn:Hex; [done|]. injection H as _ <-.
  split; [done|]. split; [done|]. cbn.
  by rewrite has_duplicate_id_snoc, Hc, Hex.
Qed.

Lemma update_campaign_consistent E cid u d d' :
  update_campaign E cid u d = Ok d' → consistent d → consistent d'.
Proof.
  unfold update_campaign. intros H (Hl & Hr & Hc).
  case_bool_decide; [by injection H as <-|].
  destruct (sql_update _ _ _ _ _ _ _) as [rows|] eqn:Hu; [|done].
  destruct (u !! "id") as [v|] eqn:Hid.
  - destruct (has_duplicate_id rows) eqn:Hdup; [done|]. injection H as <-.
    by split; [|split].
  - injection H as <-. split; [done|]. split; [done|]. cbn.
    by rewrite (has_duplicate_id_same_ids _ _ (sql_update_same_ids _ _ _ _ _ _ _ _ Hu Hid)).
Qed.

Lemma insert_leads_consistent E cid new d d' :
  insert_leads E cid new d = Ok d' → consistent d → consistent d'.
Proof.
  unfold insert_leads. intros H (Hl & Hr & Hc).
  destruct new as [|lead new]; [by injection H as <-|].
  destruct (insert_lead_rows _ _ _ _ _) as [[rows seq]|] eqn:Hi; [|done].
  injection H as <-. split; [|done]. cbn.
  by eapply insert_lead_rows_autoincrement.
Qed.

Lemma update_leads_batch_consistent E cid updates d d' :
  update_leads_batch E cid updates d = Ok d' → consistent d → consistent d'.
Proof.
  unfold update_leads_batch. intros H (Hl & Hr & Hc).
  destruct updates as [|u updates]; [by injection H as <-|].
  destruct (update_lead_rows _ _ _ _) as [rows|] eqn:Hu; [|done].
  injection H as <-. split; [|done]. cbn.
  eapply autoincrement_same_ids; [|done]. by eapply update_lead_rows_same_ids.
Qed.

Lemma record_pipeline_run_consistent E cid stage status dur p s e msg d d' :
  record_pipeline_run E cid stage status dur p s e msg d = Ok d' →
  consistent d → consistent d'.
Proof.
  unfold record_pipeline_run. intros H (Hl & Hr & Hc).
  destruct (sql_insert _ _ _ _) as [row|] eqn:Hi; [|done].
  injection H as <-. split; [done|]. split; [|done]. cbn.
  apply autoincrement_snoc; [done|].
  rewrite (sql_insert_default _ _ _ _ _ "id" Hi); by literal_lookup.
Qed.

Lemma cleanup_old_campaigns_consistent clock days d :
  consistent d → consistent (snd (cleanup_old_campaigns clock days d)).
Proof.
  intros (Hl & Hr & Hc). unfold cleanup_old_campaigns. cbn.
  split; [by apply autoincrement_filter|].
  split; [by apply autoincrement_filter|]. by apply has_duplicate_id_filter.
Qed.

Lemma preserves_logger_info (I : world → Prop) line :
  (∀ w, I w → I (mkWorld (store w) (log w ++ [line]))) →
  preserves I (logger_info line).
Proof. intros H. by apply hoare_logger_info. Qed.

Section KeptByWrites.

Variables (E : engine) (I : db → Prop).

Hypothesis HI : kept_by_writes E I.

Local Abbreviation J := (on_store I).

Lemma kept_update_campaign cid u : preserves J (db_write (update_campaign E cid u)).
Proof.
  apply preserves_db_write. intros w d Hw Hd. destruct HI as (_ & H & _).
  exact (H _ _ _ _ Hd Hw).
Qed.

Lemma kept_insert_leads cid new : preserves J (db_write (insert_leads E cid new)).
Proof.
  apply preserves_db_write. intros w d Hw Hd. destruct HI as (_ & _ & H & _).
  exact (H _ _ _ _ Hd Hw).
Qed.

Lemma kept_update_leads_batch cid us :
  preserves J (db_write (update_leads_batch E cid us)).
Proof.
  apply preserves_db_write. intros w d Hw Hd. destruct HI as (_ & _ & _ & H & _).
  exact (H _ _ _ _ Hd Hw).
Qed.

Lemma kept_record_pipeline_run cid stage status dur p s e msg :
  preserves J (db_write (record_pipeline_run E cid stage status dur p s e msg)).
Proof.
  apply preserves_db_write. intros w d Hw Hd. destruct HI as (_ & _ & _ & _ & H).
  exact (H _ _ _ _ _ _ _ _ _ _ Hd Hw).
Qed.

Lemma kept_logger_info line : preserves J (logger_info line).
Proof. by apply preserves_logger_info. Qed.

Lemma kept_run_plan C p cid : preserves J (run_plan E C p cid).
Proof.
  unfold run_plan. apply preserves_bind; [apply preserves_db_read|].
  intros [|lead leads]; [apply preserves_ret|].
  unfold plan_attempt. apply preserves_try.
  - apply preserves_bind; [apply preserves_lift|]. intros built.
    apply preserves_bind; [apply kept_update_leads_batch|]. intros ?.
    apply preserves_bind.
    { destruct (snd built); [apply kept_update_campaign|apply preserves_ret]. }
    intros ?. apply kept_record_pipeline_run.
  - intros e. apply preserves_bind; [apply kept_record_pipeline_run|].
    intros ?. apply preserves_raise.
Qed.

Lemma kept_scrape C cid bt loc mr :
  preserves J (_scrape_businesses E C cid bt loc mr).
Proof.
  unfold _scrape_businesses. apply preserves_try.
  - apply preserves_bind; [apply preserves_lift|]. intros bs.
    apply preserves_bind; [apply kept_record_pipeline_run|]. intros ?.
    apply preserves_ret.
  - intros e. apply preserves_bind; [apply kept_record_pipeline_run|].
    intros ?. apply preserves_raise.
Qed.

Lemma kept_stages C cid :
  preserves J (_validate_leads E C cid) ∧
  preserves J (_enrich_linkedin_profiles E C cid) ∧
  preserves J (_research_companies E C cid) ∧
  preserves J (_personalize_messages E C cid).
Proof.
  repeat split.
  - eapply hoare_ext; [apply _validate_leads_plan|apply kept_run_plan].
  - eapply hoare_ext; [apply _enrich_linkedin_profiles_plan|apply kept_run_plan].
  - eapply hoare_ext; [apply _research_companies_plan|apply kept_run_plan].
  - eapply hoare_ext; [apply _personalize_messages_plan|apply kept_run_plan].
Qed.

Lemma kept_pipeline_body cfg C cid bt loc mr :
  preserves J (pipeline_body cfg E C cid bt loc mr).
Proof.
  destruct (kept_stages C cid) as (Hv & He & Hr & Hp).
  unfold pipeline_body.
  apply preserves_bind; [apply kept_update_campaign|]. intros ?.
  apply preserves_bind; [apply kept_logger_info|]. intros ?.
  apply preserves_bind; [apply kept_scrape|].
  intros [|b bs]; [apply preserves_raise|].
  apply preserves_bind; [apply kept_logger_info|]. intros ?.
  apply preserves_bind; [apply kept_insert_leads|]. intros ?.
  apply preserves_bind; [apply kept_update_campaign|]. intros ?.
  apply preserves_bind.
  { apply preserves_when, preserves_bind; [apply kept_logger_info|done]. }
  intros ?. apply preserves_bind.
  { apply preserves_when, preserves_bind; [apply kept_logger_info|done]. }
  intros ?. apply preserves_bind.
  { apply preserves_when, preserves_bind; [apply kept_logger_info|done]. }
  intros ?. apply preserves_bind.
  { apply preserves_when, preserves_bind; [apply kept_logger_info|done]. }
  intros ?. apply preserves_bind; [apply kept_logger_info|]. intros ?.
  apply preserves_bind; [apply export_preserves|]. intros csv.
  apply preserves_bind; [apply preserves_db_read|]. intros stats.
  apply preserves_bind; [apply kept_update_campaign|]. intros ?.
  apply preserves_ret.
Qed.

Lemma kept_run cfg C bt loc mr name fe :
  preserves J (run_complete_pipeline cfg E C bt loc mr name fe).
Proof.
  unfold run_complete_pipeline. apply preserves_bind.
  - intros w Hw. unfold _create_campaign.
    destruct (create_campaign _ _ _) as [[cid d]|] eqn:Hc; [|done].
    destruct HI as (H & _). exact (H _ _ _ _ Hc Hw).
  - intros cid. apply preserves_try; [apply kept_pipeline_body|].
    intros e. apply preserves_bind; [apply kept_update_campaign|].
    intros ?. apply preserves_raise.
Qed.

End KeptByWrites.

Lemma consistent_kept E : kept_by_writes E consistent.
Proof.
  refine (conj _ (conj _ (conj _ (conj _ _)))).
  - intros. by eapply create_campaign_consistent.
  - intros. by eapply update_campaign_consistent.
  - intros. by eapply insert_leads_consistent.
  - intros. by eapply update_leads_batch_consistent.
  - intros. by eapply record_pipeline_run_consistent.
Qed.

(** X1.  From a store whose keys are in order, every write method that
    returns leaves a store whose keys are in order: no two campaigns share
    an id, no two leads do, no two pipeline runs do, and the ids of leads
    and runs are positive and not above the last one handed out. *)
Theorem store_writes_keep_keys E d :
  consistent d →
  (∀ data cid d', create_campaign E data d = Ok (cid, d') → consistent d') ∧
  (∀ cid u d', keys_among campaign_columns u →
               update_campaign E cid u d = Ok d' → consistent d') ∧
  (∀ cid new d', insert_leads E cid new d = Ok d' → consistent d') ∧
  (∀ cid us d', Forall (keys_among lead_columns) us →
                update_leads_batch E cid us d = Ok d' → consistent d') ∧
  (∀ cid stage status dur p s e msg d',
      record_pipeline_run E cid stage status dur p s e msg d = Ok d' →
      consistent d') ∧
  (∀ clock days, consistent (snd (cleanup_old_campaigns clock days d))).
Proof.
  intros Hd. destruct (consistent_kept E) as (Hc & Hu & Hi & Hb & Hr).
  refine (conj _ (conj _ (conj _ (conj _ (conj _ _))))).
  - intros data cid d' H. exact (Hc _ _ _ _ H Hd).
  - intros cid u d' _ H. exact (Hu _ _ _ _ H Hd).
  - intros cid new d' H. exact (Hi _ _ _ _ H Hd).
  - intros cid us d' _ H. exact (Hb _ _ _ _ H Hd).
  - intros cid stage status dur p s e msg d' H. exact (Hr _ _ _ _ _ _ _ _ _ _ H Hd).
  - intros clock days. by apply cleanup_old_campaigns_consistent.
Qed.

(** X2.  A run of the pipeline that starts from a store whose keys are in
    order ends, whether it returns or raises, with a store whose keys are
    in order; in particular the ids of the leads are then a primary
    key. *)
Theorem run_keeps_store_consistent cfg E C bt loc mr name fe w :
  consistent (store w) →
  consistent (store (fst (run_complete_pipeline cfg E C bt loc mr name fe w))) ∧
  primary_key (leads (store (fst (run_complete_pipeline cfg E C bt loc mr name fe w)))).
Proof.
  intros Hw.
  pose proof (kept_run E consistent (consistent_kept E) cfg C bt loc mr name fe w Hw)
    as H.
  assert (consistent (store (fst (run_complete_pipeline cfg E C bt loc mr name fe w))))
    as Hc.
  { by destruct (run_complete_pipeline _ _ _ _ _ _ _ _ w) as [w' [a|e]]. }
  split; [done|]. destruct Hc as (Hl & _). by eapply autoincrement_primary_key.
Qed.

(** * Campaign rows *)




Lemma find_ext {X} (f g : X → bool) (l : list X) :
  (∀ x, f x = g x) → List.find f l = List.find g l.
Proof. intros H. induction l as [|x l IH]; cbn; [done|]. by rewrite H, IH. Qed.













Lemma insert_row_stored E cid seq (lead row : dict) table :
  sql_insert table lead_not_null
    [("campaign_id", cid);
     ("place_id", dict_get lead "place_id");
     ("name", dict_get_or lead "name" (VStr ""));
     ("address", dict_get lead "address");
     ("city", dict_get lead "city");
     ("state", dict_get lead "state");
     ("postal_code", dict_get lead "postal_code");
     ("country", dict_get lead "country");
     ("phone", dict_get lead "phone");
     ("email", dict_get lead "email");
     ("website", dict_get lead "website");
     ("category", dict_get lead "category");
     ("rating", dict_get lead "rating");
     ("reviews_count", dict_get lead "reviews_count");
     ("latitude", dict_get lead "latitude");
     ("longitude", dict_get lead "longitude");
     ("status", VStr "new")]
    (lead_defaults E seq) = Ok row →
  stored_as cid seq lead row.
Proof.
  intros Hi.
  assert (Hval : ∀ k v, (list_to_map
     [("campaign_id", cid);
     ("place_id", dict_get lead "place_id");
     ("name", dict_get_or lead "name" (VStr ""));
     ("address", dict_get lead "address");
     ("city", dict_get lead "city");
     ("state", dict_get lead "state");
     ("postal_code", dict_get lead "postal_code");
     ("country", dict_get lead "country");
     ("phone", dict_get lead "phone");
     ("email", dict_get lead "email");
     ("website", dict_get lead "website");
     ("category", dict_get lead "category");
     ("rating", dict_get lead "rating");
     ("reviews_count", dict_get lead "reviews_count");
     ("latitude", dict_get lead "latitude");
     ("longitude", dict_get lead "longitude");
     ("status", VStr "new")] : dict) !! k = Some v → row !! k = adapted v).
  { intros k v Hk. destruct (sql_insert_value _ _ _ _ _ _ _ Hi Hk) as (v' & Hv & ->).
    unfold adapted. by rewrite Hv. }
  pose proof (fun k => sql_insert_default _ _ _ _ _ k Hi) as Hdef.
  unfold stored_as.
  split; [rewrite Hdef; [unfold lead_defaults|]; by literal_lookup|].
  split; [apply Hval; by literal_lookup|].
  split; [apply Hval; by literal_lookup|].
  split.
  { intros k Hk. unfold copied_columns in Hk.
    repeat (apply elem_of_cons in Hk as [->|Hk]; [apply Hval; by literal_lookup|]).
    by apply elem_of_nil in Hk. }
  split; [by rewrite (Hval "status" (VStr "new")); [|by literal_lookup]|].
  repeat split; (rewrite Hdef; [unfold lead_defaults|]; by literal_lookup).
Qed.

Lemma insert_lead_rows_stored E cid new : ∀ rows seq rows' seq',
  insert_lead_rows E cid new rows seq = Ok (rows', seq') →
  ∃ added,
    rows' = rows ++ added ∧ length added = length new ∧
    seq' = seq + Z.of_nat (length new) ∧
    ∀ k lead, new !! k = Some lead →
      ∃ row, added !! k = Some row ∧ stored_as cid (seq + Z.of_nat k + 1) lead row.
Proof.
  induction new as [|lead new IH]; intros rows seq rows' seq' H.
  - cbn in H. injection H as <- <-. exists []. rewrite app_nil_r.
    repeat split; [cbn; lia|]. intros k l Hk. by rewrite lookup_nil in Hk.
  - cbn [insert_lead_rows] in H.
    destruct (sql_insert _ _ _ _) as [row|] eqn:Hi; [|done].
    apply IH in H as (added & -> & Hlen & -> & Hall).
    exists (row :: added). rewrite <- app_assoc. split; [done|].
    split; [cbn; by rewrite Hlen|]. split; [cbn [length]; lia|].
    intros [|k] l Hk; cbn in Hk.
    + injection Hk as <-. exists row. split; [done|].
      replace (seq + Z.of_nat 0 + 1) with (seq + 1) by lia.
      by eapply insert_row_stored.
    + destruct (Hall k l Hk) as (r & Hr & Hs). exists r. split; [done|].
      by replace (seq + Z.of_nat (S k) + 1) with (seq + 1 + Z.of_nat k + 1) by lia.
Qed.

Lemma insert_leads_stored E cid new d d' :
  insert_leads E cid new d = Ok d' →
  ∃ added,
    leads d' = leads d ++ added ∧ length added = length new ∧
    leads_seq d' = leads_seq d + Z.of_nat (length new) ∧
    ∀ k lead, new !! k = Some lead →
      ∃ row, added !! k = Some row
             ∧ stored_as cid (leads_seq d + Z.of_nat k + 1) lead row.
Proof.
  unfold insert_leads. destruct new as [|lead new].
  - intros [= <-]. exists []. rewrite app_nil_r. repeat split; [cbn; lia|].
    intros k l Hk. by rewrite lookup_nil in Hk.
  - destruct (insert_lead_rows _ _ _ _ _) as [[rows seq]|] eqn:Hi; [|done].
    intros [= <-]. cbn [leads leads_seq].
    by apply insert_lead_rows_stored in Hi.
Qed.

Lemma parse_json_fields_none E fields (row : dict) :
  Forall (fun f => truthy (dict_get row f) = false) fields →
  parse_json_fields E fields row = Ok row.
Proof.
  induction 1 as [|f fields Hf _ IH]; [done|]. cbn. by rewrite Hf.
Qed.

Lemma stored_as_parse E cid id (lead row : dict) :
  stored_as cid id lead row → parse_json_fields E json_fields row = Ok row.
Proof.
  intros (_ & _ & _ & _ & _ & _ & _ & _ & Hl & Hr & Hp).
  apply parse_json_fields_none. unfold json_fields, dict_get.
  repeat (constructor; [by rewrite ?Hl, ?Hr, ?Hp|]). constructor.
Qed.


Lemma added_rows_read E c (new added : list dict) seq :
  length added = length new →
  (∀ k lead, new !! k = Some lead →
     ∃ row, added !! k = Some row
            ∧ stored_as (VStr c) (seq + Z.of_nat k + 1) lead row) →
  List.filter (where_holds [("campaign_id", VStr c)]) added = added ∧
  parse_rows E added = Ok added.
Proof.
  revert new seq. induction added as [|row added IH]; intros new seq Hlen Hall; [done|].
  destruct new as [|lead new]; [done|].
  destruct (Hall 0%nat lead eq_refl) as (r & [= <-] & Hs).
  destruct (IH new (seq + 1)) as [Hf Hp].
  { cbn in Hlen. lia. }
  { intros k l Hk. destruct (Hall (S k) l Hk) as (r & Hr & Hsr).
    exists r. split; [done|].
    by replace (seq + 1 + Z.of_nat k + 1) with (seq + Z.of_nat (S k) + 1) by lia. }
  split.
  - cbn [List.filter]. destruct Hs as (_ & Hc & _).
    unfold where_holds at 1. cbn. unfold dict_get. rewrite Hc. cbn.
    by rewrite String.eqb_refl, Hf.
  - cbn [parse_rows]. by rewrite (stored_as_parse _ _ _ _ _ Hs), Hp.
Qed.







Lemma filter_all {X} (p : X → bool) (l : list X) :
  Forall (fun x => p x = true) l → List.filter p l = l.
Proof. induction 1 as [|x l Hx _ IH]; cbn; [done|]. by rewrite Hx, IH. Qed.

Lemma Forall_filter_true {X} (p : X → bool) (l : list X) :
  Forall (fun x => p x = true) (List.filter p l).
Proof.
  apply Forall_forall. intros x Hx. by apply list_elem_of_In, filter_In in Hx as [_ ?].
Qed.

Lemma kept_row_refers cutoff (cs : list dict) (row : dict) :
  refers_to cs row = true →
  existsb (fun c => older_than cutoff c
                    && sql_eq (dict_get row "campaign_id") (dict_get c "id")) cs
  = false →
  refers_to (List.filter (fun c => negb (older_than cutoff c)) cs) row = true.
Proof.
  unfold refers_to. intros Hr Hold.
  apply existsb_exists in Hr as (c & Hc & Heq).
  apply existsb_exists. exists c. split; [|done].
  apply filter_In. split; [done|].
  destruct (older_than cutoff c) eqn:Ho; [|done].
  assert (existsb (fun c => older_than cutoff c
             && sql_eq (dict_get row "campaign_id") (dict_get c "id")) cs = true);
    [|congruence].
  apply existsb_exists. exists c. by rewrite Ho, Heq.
Qed.

Lemma sql_eq_common x a b :
  sql_eq x a = true → sql_eq x b = true → sql_eq a b = true.
Proof.
  destruct x, a, b; cbn; try done;
    rewrite ?Z.eqb_eq, ?String.eqb_eq, ?Qeq_bool_iff;
    unfold Qeq; cbn; intros; subst; try done; try lia.
  all: rewrite ?Z.mul_1_r in *; nia.
Qed.

Lemma no_duplicate_ids (l : list dict) i j (c c' : dict) :
  has_duplicate_id l = false → l !! i = Some c → l !! j = Some c' → i ≠ j →
  sql_eq (dict_get c "id") (dict_get c' "id") = false.
Proof.
  revert i j. induction l as [|x l IH]; intros i j Hd Hi Hj Hne; [done|].
  cbn [has_duplicate_id] in Hd. apply orb_false_iff in Hd as [Hex Hd].
  assert (Hx : ∀ k y, l !! k = Some y →
                      sql_eq (dict_get y "id") (dict_get x "id") = false).
  { intros k y Hk. apply not_true_is_false. intros Heq.
    assert (existsb (fun r => sql_eq (dict_get r "id") (dict_get x "id")) l = true);
      [|congruence].
    apply existsb_exists. exists y. split; [|done].
    apply list_elem_of_In, list_elem_of_lookup. eauto. }
  destruct i as [|i], j as [|j]; cbn in Hi, Hj; try done.
  - injection Hi as <-. rewrite sql_eq_sym. by eapply Hx.
  - injection Hj as <-. by eapply Hx.
  - apply (IH i j); try done. congruence.
Qed.

(** X8.  When the three statements of [cleanup_old_campaigns] read the
    same time, the cleanup returns the number of campaigns it deleted
    and leaves the campaigns that were not created before the cutoff, in
    their order.  It leaves no lead and no run of a deleted campaign; on
    a store whose keys are in order it keeps every lead and run of a
    campaign it keeps; and every lead and run it leaves still refers to a
    campaign of the store if all did before. *)
Theorem cleanup_old_campaigns_removes clock days cutoff d :
  steady clock days cutoff →
  let n := fst (cleanup_old_campaigns clock days d) in
  let d' := snd (cleanup_old_campaigns clock days d) in
  n = Z.of_nat (length (campaigns d)) - Z.of_nat (length (campaigns d')) ∧
  0 ≤ n ∧
  campaigns d' = List.filter (fun c => negb (older_than cutoff c)) (campaigns d) ∧
  (∀ row c, row ∈ leads d' ∨ row ∈ pipeline_runs d' → c ∈ campaigns d →
            older_than cutoff c = true →
            sql_eq (dict_get row "campaign_id") (dict_get c "id") = false) ∧
  (consistent d →
   (∀ row, row ∈ leads d → refers_to (campaigns d') row = true → row ∈ leads d') ∧
   (∀ row, row ∈ pipeline_runs d → refers_to (campaigns d') row = true →
           row ∈ pipeline_runs d')) ∧
  (references_hold d → references_hold d').
Proof.
  intros Hclock n d'. subst n d'. unfold cleanup_old_campaigns. cbn [fst snd].
  rewrite !Hclock. cbn [campaigns leads pipeline_runs].
  fold (older_than cutoff).
  set (of_old := fun row : dict =>
         existsb (fun c => older_than cutoff c
                           && sql_eq (dict_get row "campaign_id") (dict_get c "id"))
                 (campaigns d)).
  set (kept := List.filter (fun c => negb (older_than cutoff c)) (campaigns d)).
  assert (Hkept : ∀ rows row,
            row ∈ List.filter (fun r => negb (of_old r)) rows →
            row ∈ rows ∧ of_old row = false).
  { intros rows row Hin. apply list_elem_of_In, filter_In in Hin as [Hin Hn].
    split; [by apply list_elem_of_In|by apply negb_true_iff in Hn]. }
  assert (Hin_kept : ∀ rows row, row ∈ rows → of_old row = false →
                                 row ∈ List.filter (fun r => negb (of_old r)) rows).
  { intros rows row Hin Ho. apply list_elem_of_In, filter_In.
    split; [by apply list_elem_of_In|by rewrite Ho]. }
  assert (Hnot : ∀ row c, of_old row = false → c ∈ campaigns d →
            older_than cutoff c = true →
            sql_eq (dict_get row "campaign_id") (dict_get c "id") = false).
  { intros row c Hrow Hc Ho. apply not_true_is_false. intros Heq.
    assert (of_old row = true); [|congruence].
    apply existsb_exists. exists c. split; [by apply list_elem_of_In|].
    by rewrite Ho, Heq. }
  assert (Hback : has_duplicate_id (campaigns d) = false →
            ∀ row, refers_to kept row = true → of_old row = false).
  { intros Hdup row Hr. apply not_true_is_false. intros Ho.
    apply existsb_exists in Hr as (c & Hc & Heq).
    apply filter_In in Hc as [Hc Hn]. apply negb_true_iff in Hn.
    apply existsb_exists in Ho as (c' & Hc' & Ho').
    apply andb_true_iff in Ho' as [Ho' Heq'].
    apply list_elem_of_In, list_elem_of_lookup in Hc as [i Hi].
    apply list_elem_of_In, list_elem_of_lookup in Hc' as [j Hj].
    assert (i ≠ j) by (intros ->; congruence).
    pose proof (no_duplicate_ids _ _ _ _ _ Hdup Hi Hj ltac:(done)) as Hd.
    by rewrite (sql_eq_common _ _ _ Heq Heq') in Hd. }
  split; [done|]. split.
  { pose proof (List.filter_length_le (fun c => negb (older_than cutoff c))
                  (campaigns d)).
    subst kept. unfold older_than in *. lia. }
  split; [done|]. split.
  { intros row c [Hrow|Hrow] Hc Ho; apply Hkept in Hrow as [_ Hrow]; by eapply Hnot. }
  split.
  { intros (_ & _ & Hdup). split; intros row Hrow Hr; by auto. }
  intros [Hl Hr]. split; apply Forall_forall; intros row Hrow;
    apply Hkept in Hrow as [Hrow Ho]; rewrite Forall_forall in Hl, Hr;
    apply kept_row_refers; auto.
Qed.

(** X9.  A cleanup whose cutoff is NULL, as SQLite gives for a
    modifier it cannot read, deletes nothing; and with a steady clock a
    second cleanup finds nothing more to delete. *)
Theorem cleanup_old_campaigns_again clock days cutoff d :
  steady clock days cutoff →
  (cutoff = VNone → cleanup_old_campaigns clock days d = (0, d)) ∧
  cleanup_old_campaigns clock days (snd (cleanup_old_campaigns clock days d))
  = (0, snd (cleanup_old_campaigns clock days d)).
Proof.
  intros Hclock.
  assert (Hnone : ∀ d0, Forall (fun c => older_than cutoff c = false) (campaigns d0) →
                        cleanup_old_campaigns clock days d0 = (0, d0)).
  { intros d0 Hall. unfold cleanup_old_campaigns. rewrite !Hclock.
    fold (older_than cutoff).
    assert (Hno : ∀ row : dict,
              existsb (fun c => older_than cutoff c
                         && sql_eq (dict_get row "campaign_id") (dict_get c "id"))
                      (campaigns d0) = false).
    { intros row. apply not_true_is_false. intros Hex.
      apply existsb_exists in Hex as (c & Hc & Ho).
      rewrite Forall_forall in Hall. apply list_elem_of_In in Hc.
      by rewrite (Hall c Hc) in Ho. }
    rewrite (filter_all _ (campaigns d0)), (filter_all _ (leads d0)),
      (filter_all _ (pipeline_runs d0)).
    all: first
      [ by (apply Forall_forall; intros row _; rewrite Hno)
      | by (eapply Forall_impl; [exact Hall|]; intros c Hc;
            unfold older_than in *; rewrite Hc)
      | idtac ].
    destruct d0. cbn. f_equal. lia. }
  split.
  - intros ->. apply Hnone. apply Forall_forall. intros c _.
    unfold older_than. by destruct (dict_get c "created_at").
  - apply Hnone. unfold cleanup_old_campaigns. cbn [snd campaigns].
    rewrite !Hclock. fold (older_than cutoff).
    eapply Forall_impl; [apply Forall_filter_true|].
    intros c Hc. by apply negb_true_iff in Hc.
Qed.

Lemma stage_advances E C p c status next :
  (∀ st, status = Some st → st ≠ "") →
  plan_status p = status_arg status →
  ids_from_leads p → advances p next →
  hoare (fun w => ready_for c status (leads (store w)))
        (run_plan E C p (VStr c))
        (fun _ w' => ready_for c (Some next) (leads (store w')))
        (fun _ _ => True).
Proof.
  intros Hst Hp Hids Hadv w [Hpk Hready].
  pose proof (run_plan_frame E C p c status w Hpk Hst Hp Hids) as Hframe.
  pose proof (run_plan_moves E C p c status next w) as Hmoves.
  destruct (run_plan E C p (VStr c) w) as [w' [[]|e]]; [|done].
  specialize (Hmoves w' Hpk Hst Hp Hadv eq_refl). unfold moved_to in Hmoves.
  cbn [fst] in Hframe. destruct Hframe as [Hlen Hframe].
  set (rows := leads (store w)) in *. set (rows' := leads (store w')) in *.
  assert (Hrow : ∀ i row', rows' !! i = Some row' →
            ∃ row, rows !! i = Some row ∧ row' !! "id" = row !! "id" ∧
                   (sql_eq (dict_get row' "campaign_id") (VStr c) = true →
                    row' !! "status" = Some (VStr next))).
  { intros i row' Hi.
    destruct (lookup_lt_is_Some_2 rows i) as [row Hrow].
    { rewrite <- Hlen. by eapply lookup_lt_Some. }
    exists row. split; [done|].
    destruct (reads c status row) eqn:Hreads.
    - destruct (Hmoves i row Hrow Hreads) as (r & Hr & Hid & Hs).
      rewrite Hi in Hr. injection Hr as <-. by split.
    - rewrite (Hframe i row Hrow Hreads) in Hi.
      assert (row' = row) as -> by congruence.
      split; [done|]. intros Hc. exfalso.
      unfold reads in Hreads. rewrite Hc in Hreads. cbn in Hreads.
      destruct status as [st|]; [|done].
      unfold campaign_leads_are in Hready. rewrite Forall_forall in Hready.
      assert (row ∈ rows) as Hin by (apply list_elem_of_lookup; eauto).
      specialize (Hready row Hin Hc). unfold dict_get in Hreads.
      rewrite Hready in Hreads. cbn in Hreads. by rewrite String.eqb_refl in Hreads. }
  split.
  - destruct Hpk as (ids & Hids2 & Hnd & Hpos). exists ids. split; [|done].
    apply Forall2_same_length_lookup. split.
    { rewrite Hlen. by eapply Forall2_length. }
    intros i row' n Hi Hn. destruct (Hrow i row' Hi) as (row & Hr & Hid & _).
    rewrite Hid. destruct (Forall2_lookup_l _ _ _ _ _ Hids2 Hr) as (m & Hm & Hrm).
    congruence.
  - apply Forall_forall. intros row' Hin.
    apply list_elem_of_lookup in Hin as [i Hi].
    by destruct (Hrow i row' Hi) as (row & _ & _ & Hs).
Qed.

Lemma stages_advance E C c :
  hoare (fun w => ready_for c None (leads (store w)))
        (_validate_leads E C (VStr c))
        (fun _ w' => ready_for c (Some "validated") (leads (store w')))
        (fun _ _ => True) ∧
  hoare (fun w => ready_for c (Some "validated") (leads (store w)))
        (_enrich_linkedin_profiles E C (VStr c))
        (fun _ w' => ready_for c (Some "enriched") (leads (store w')))
        (fun _ _ => True) ∧
  hoare (fun w => ready_for c (Some "enriched") (leads (store w)))
        (_research_companies E C (VStr c))
        (fun _ w' => ready_for c (Some "researched") (leads (store w')))
        (fun _ _ => True) ∧
  hoare (fun w => ready_for c (Some "researched") (leads (store w)))
        (_personalize_messages E C (VStr c))
        (fun _ w' => ready_for c (Some "personalized") (leads (store w')))
        (fun _ _ => True).
Proof.
  destruct (plans_carry_ids C) as (Iv & Ie & Ir & Ip).
  destruct (plans_advance C) as (Av & Ae & Ar & Ap).
  refine (conj _ (conj _ (conj _ _))).
  - eapply hoare_ext; [apply _validate_leads_plan|].
    apply (stage_advances E C _ c None); by try intros st [= <-].
  - eapply hoare_ext; [apply _enrich_linkedin_profiles_plan|].
    apply (stage_advances E C _ c (Some "validated")); by try intros st [= <-].
  - eapply hoare_ext; [apply _research_companies_plan|].
    apply (stage_advances E C _ c (Some "enriched")); by try intros st [= <-].
  - eapply hoare_ext; [apply _personalize_messages_plan|].
    apply (stage_advances E C _ c (Some "researched")); by try intros st [= <-].
Qed.

Lemma leads_frame_logger (L : list dict → Prop) line R :
  hoare (fun w => L (leads (store w))) (logger_info line)
        (fun _ w => L (leads (store w))) R.
Proof. by apply hoare_logger_info. Qed.

Lemma leads_frame_write (L : list dict → Prop) (op : db → result db) :
  (∀ d d', op d = Ok d' → leads d' = leads d) →
  hoare (fun w => L (leads (store w))) (db_write op)
        (fun _ w => L (leads (store w))) (fun _ _ => True).
Proof.
  intros Hop. apply hoare_db_write. intros w Hw.
  destruct (op (store w)) as [d|] eqn:Hd; [|done]. cbn. by rewrite (Hop _ _ Hd).
Qed.

Lemma all_stages_personalize E C c bt loc mr :
  hoare (on_store consistent)
        (pipeline_body (mkConfig true true true true) E C (VStr c) bt loc mr)
        (fun _ w => campaign_leads_are c "personalized" (leads (store w)))
        (fun _ _ => True).
Proof.
  destruct (stages_advance E C c) as (Hv & He & Hr & Hp).
  pose proof (consistent_kept E) as HI.
  unfold pipeline_body. cbn [enable_validation enable_linkedin_enrichment
                            enable_research enable_personalization when].
  eapply hoare_bind; [apply hoare_may_raise, (kept_update_campaign E _ HI)|].
  intros ?. eapply hoare_bind; [apply hoare_may_raise, kept_logger_info|].
  intros ?. eapply hoare_bind; [apply hoare_may_raise, (kept_scrape E _ HI)|].
  intros [|b bs]; [by apply hoare_raise|].
  eapply hoare_bind; [apply hoare_may_raise, kept_logger_info|].
  intros ?. eapply hoare_bind; [apply hoare_may_raise, (kept_insert_leads E _ HI)|].
  intros ?.
  eapply hoare_bind with (Q' := fun _ w => ready_for c None (leads (store w))).
  { eapply (hoare_conseq _ (on_store consistent) _ _
              (fun _ => on_store consistent) _ (fun _ _ => True));
      [apply hoare_may_raise, (kept_update_campaign E _ HI)|done| |done].
    intros _ w (Hl & _). split; [|done]. by eapply autoincrement_primary_key. }
  intros ?. eapply hoare_bind.
  { eapply hoare_bind; [apply leads_frame_logger|]. intros ?. apply Hv. }
  intros ?. eapply hoare_bind.
  { eapply hoare_bind; [apply leads_frame_logger|]. intros ?. apply He. }
  intros ?. eapply hoare_bind.
  { eapply hoare_bind; [apply leads_frame_logger|]. intros ?. apply Hr. }
  intros ?. eapply hoare_bind.
  { eapply hoare_bind; [apply leads_frame_logger|]. intros ?. apply Hp. }
  intros ?.
  eapply hoare_bind with
    (Q' := fun _ w => campaign_leads_are c "personalized" (leads (store w))).
  { eapply (hoare_conseq _ (fun w => ready_for c (Some "personalized")
                                        (leads (store w))) _ _
              (fun _ w => ready_for c (Some "personalized") (leads (store w)))
              _ (fun _ _ => True));
      [apply leads_frame_logger|done| |done].
    intros _ w [_ H]. exact H. }
  intros ?. eapply hoare_bind.
  { apply hoare_may_raise.
    apply (export_preserves E C (VStr c)
             (fun w => campaign_leads_are c "personalized" (leads (store w)))). }
  intros csv. eapply hoare_bind.
  { apply hoare_may_raise.
    apply (preserves_db_read
             (fun w => campaign_leads_are c "personalized" (leads (store w)))). }
  intros stats. eapply hoare_bind.
  { apply (leads_frame_write (campaign_leads_are c "personalized")).
    intros ?? H. by apply update_campaign_spec in H as (?&_). }
  intros ?. by apply hoare_ret.
Qed.

Lemma sql_update_same_column E table columns not_null (assign : dict) cond rows rows'
      col :
  sql_update E table columns not_null assign cond rows = Ok rows' →
  assign !! col = None → col ≠ "updated_at" →
  Forall2 (fun r r' : dict => r' !! col = r !! col) rows rows'.
Proof.
  intros H Hcol Hne. apply sql_update_spec in H as (bound & cond' & Hb & _ & ->).
  induction rows as [|r rows IH]; [constructor|].
  cbn. constructor; [|done].
  destruct (where_holds cond' r); [|done].
  by eapply updated_row_lookup_ne.
Qed.

Lemma update_lead_rows_same_campaign E cid updates : ∀ rows rows',
  Forall (fun u : dict => u !! "campaign_id" = None) updates →
  update_lead_rows E cid updates rows = Ok rows' →
  Forall2 (fun r r' : dict => r' !! "campaign_id" = r !! "campaign_id") rows rows'.
Proof.
  induction updates as [|u updates IH]; intros rows rows' Hall H.
  - cbn in H. injection H as <-. induction rows; by constructor.
  - apply Forall_cons in Hall as [Hu Hall]. cbn [update_lead_rows] in H.
    destruct (truthy (dict_get u "id")); cbn [negb] in H; [|by apply IH].
    case_bool_decide; [by apply IH|].
    destruct (sql_update _ _ _ _ _ _ _) as [rows1|] eqn:Hs; [|done].
    apply (sql_update_same_column _ _ _ _ _ _ _ _ "campaign_id") in Hs; [|  |done].
    + specialize (IH _ _ Hall H). clear -Hs IH.
      revert rows' IH. induction Hs as [|x y a b Hxy _ IHs]; intros rows' IH.
      * inversion IH. constructor.
      * inversion IH as [|? z ? c' Hyz Hrest]; subst.
        constructor; [congruence|by apply IHs].
    + unfold processed_updates. by rewrite map_lookup_imap, lookup_delete_ne, Hu.
Qed.

Lemma campaign_count_same c rows rows' :
  Forall2 (fun r r' : dict => r' !! "campaign_id" = r !! "campaign_id") rows rows' →
  campaign_count c rows' = campaign_count c rows.
Proof.
  unfold campaign_count. intros H. f_equal.
  induction H as [|r r' rows rows' Hr _ IH]; [done|].
  cbn [List.filter].
  replace (dict_get r' "campaign_id") with (dict_get r "campaign_id")
    by (unfold dict_get; by rewrite Hr).
  destruct (sql_eq _ _); cbn [length]; by rewrite IH.
Qed.

Lemma count_frame c k (op : db → result db) :
  (∀ d d', op d = Ok d' → leads d' = leads d) →
  preserves (fun w => campaign_count c (leads (store w)) = k) (db_write op).
Proof.
  intros Hop. apply preserves_db_write. intros w d Hw Hd. cbn.
  by rewrite (Hop _ _ Hd).
Qed.

Lemma run_plan_keeps_count E C p cid c next k :
  advances p next →
  preserves (fun w => campaign_count c (leads (store w)) = k) (run_plan E C p cid).
Proof.
  intros Hadv. unfold run_plan.
  apply preserves_bind; [apply preserves_db_read|].
  intros [|lead leads]; [apply preserves_ret|].
  unfold plan_attempt. apply preserves_try.
  - eapply hoare_bind with (Q' := fun built w =>
        plan_build p (lead :: leads) = Ok built
        ∧ campaign_count c (Store.leads (store w)) = k).
    { apply hoare_lift. intros w Hw. by destruct (plan_build _ _). }
    intros built.
    eapply hoare_bind with
      (Q' := fun _ w => campaign_count c (Store.leads (store w)) = k).
    { apply hoare_db_write. intros w [Hb Hw].
      destruct (update_leads_batch _ _ _ _) as [d|] eqn:Hd; [|done].
      apply update_leads_batch_rows in Hd. cbn.
      destruct (Hadv _ _ Hb) as [Hsets _].
      rewrite <- Hw. apply campaign_count_same.
      eapply update_lead_rows_same_campaign; [|exact Hd].
      eapply Forall_impl; [exact Hsets|]. by intros u [_ ?]. }
    intros ?. apply preserves_bind.
    { destruct (snd built); [|apply preserves_ret].
      apply count_frame. intros ?? H. by apply update_campaign_spec in H as (?&_). }
    intros ?. apply count_frame. intros ?? H.
    by apply record_pipeline_run_spec in H as (_&?&_).
  - intros e. apply preserves_bind; [|intros ?; apply preserves_raise].
    apply count_frame. intros ?? H. by apply record_pipeline_run_spec in H as (_&?&_).
Qed.

Lemma stages_keep_count E C cid c k :
  preserves (fun w => campaign_count c (leads (store w)) = k)
            (_validate_leads E C cid) ∧
  preserves (fun w => campaign_count c (leads (store w)) = k)
            (_enrich_linkedin_profiles E C cid) ∧
  preserves (fun w => campaign_count c (leads (store w)) = k)
            (_research_companies E C cid) ∧
  preserves (fun w => campaign_count c (leads (store w)) = k)
            (_personalize_messages E C cid).
Proof.
  destruct (plans_advance C) as (Av & Ae & Ar & Ap).
  refine (conj _ (conj _ (conj _ _))).
  - eapply hoare_ext; [apply _validate_leads_plan|by eapply run_plan_keeps_count].
  - eapply hoare_ext; [apply _enrich_linkedin_profiles_plan|
                       by eapply run_plan_keeps_count].
  - eapply hoare_ext; [apply _research_companies_plan|by eapply run_plan_keeps_count].
  - eapply hoare_ext; [apply _personalize_messages_plan|
                       by eapply run_plan_keeps_count].
Qed.

Lemma _create_campaign_leads E bt loc mr name fe w w' cid :
  _create_campaign E bt loc mr name fe w = (w', Ok cid) →
  cid = VStr (new_campaign_id E) ∧ leads (store w') = leads (store w) ∧
  (consistent (store w) → consistent (store w')).
Proof.
  intros H. pose proof (_create_campaign_spec E bt loc mr name fe w) as Hs.
  rewrite H in Hs. destruct Hs as (-> & _ & _). split; [done|].
  unfold _create_campaign in H.
  destruct (create_campaign _ _ _) as [[cid d]|] eqn:Hc; [|done].
  injection H as <- _. cbn [store]. split.
  - unfold create_campaign in Hc. destruct (sql_insert _ _ _ _); [|done].
    destruct (existsb _ _); [done|]. by injection Hc as _ <-.
  - by eapply create_campaign_consistent.
Qed.

Lemma scrape_returns_found E C cid bt loc mr (P : world → Prop) :
  (∀ stage status dur p s e msg,
     preserves P (db_write (record_pipeline_run E cid stage status dur p s e msg))) →
  hoare P (_scrape_businesses E C cid bt loc mr)
        (fun bs w => search_businesses C bt loc mr = Ok bs ∧ P w)
        (fun _ _ => True).
Proof.
  intros HP. unfold _scrape_businesses.
  apply hoare_try with (R' := fun _ _ => True).
  - eapply hoare_bind with
      (Q' := fun bs w => search_businesses C bt loc mr = Ok bs ∧ P w).
    { apply hoare_lift. intros w Hw. by destruct (search_businesses C bt loc mr). }
    intros bs.
    eapply hoare_bind with
      (Q' := fun _ w => search_businesses C bt loc mr = Ok bs ∧ P w).
    { intros w [Hs Hw]. specialize (HP "scraping" "completed" None
        (Z.of_nat (length bs)) (Z.of_nat (length bs)) 0 None w Hw).
      by destruct (db_write _ w) as [w' [?|?]]. }
    intros ?. by apply hoare_ret.
  - intros e. eapply hoare_bind with (Q' := fun _ _ => True).
    + intros w _. by destruct (db_write _ w) as [w' [?|?]].
    + intros ?. by apply hoare_raise.
Qed.

Lemma insert_leads_count E c new d d' :
  insert_leads E (VStr c) new d = Ok d' →
  campaign_count c (leads d') = campaign_count c (leads d) + Z.of_nat (length new).
Proof.
  intros H. apply insert_leads_stored in H as (added & -> & Hlen & _ & Hall).
  destruct (added_rows_read E c new added _ Hlen Hall) as [Hf _].
  unfold campaign_count. rewrite List.filter_app, length_app.
  assert (List.filter (fun row => sql_eq (dict_get row "campaign_id") (VStr c)) added
          = added) as ->.
  { rewrite <- Hf at 2. apply List.filter_ext. intros r. unfold where_holds. cbn.
    by rewrite andb_true_r. }
  lia.
Qed.

Lemma pipeline_body_counts cfg E C c bt loc mr k :
  hoare (fun w => campaign_count c (leads (store w)) = k)
        (pipeline_body cfg E C (VStr c) bt loc mr)
        (fun summary w =>
           ∃ businesses,
             search_businesses C bt loc mr = Ok businesses ∧ businesses ≠ [] ∧
             summary_get summary "campaign_id" = VStr c ∧
             summary_get summary "status" = VStr "completed" ∧
             summary_get summary "total_leads" = VInt (Z.of_nat (length businesses)) ∧
             campaign_count c (leads (store w)) = k + Z.of_nat (length businesses))
        (fun _ _ => True).
Proof.
  unfold pipeline_body.
  eapply hoare_bind.
  { apply hoare_may_raise, count_frame. intros ?? H.
    by apply update_campaign_spec in H as (?&_). }
  intros ?. eapply hoare_bind;
    [apply (leads_frame_logger (fun rows => campaign_count c rows = k))|].
  intros ?. eapply hoare_bind.
  { apply scrape_returns_found. intros. apply count_frame. intros ?? H.
    by apply record_pipeline_run_spec in H as (_&?&_). }
  intros [|b bs]; [by apply hoare_raise|].
  set (businesses := b :: bs).
  set (n := Z.of_nat (length businesses)).
  destruct (stages_keep_count E C (VStr c) c (k + n)) as (Hv & He & Hr & Hp).
  eapply hoare_bind with
    (Q' := fun _ w => search_businesses C bt loc mr = Ok businesses
                      ∧ campaign_count c (leads (store w)) = k).
  { by apply hoare_logger_info. }
  intros ?. eapply hoare_bind with
    (Q' := fun _ w => search_businesses C bt loc mr = Ok businesses
                      ∧ campaign_count c (leads (store w)) = k + n).
  { apply hoare_db_write. intros w [Hs Hw].
    destruct (insert_leads _ _ _ _) as [d|] eqn:Hd; [|done].
    split; [done|]. cbn. rewrite (insert_leads_count _ _ _ _ _ Hd). subst n. lia. }
  intros ?.
  assert (Hsplit : ∀ (m : M unit),
            preserves (fun w => campaign_count c (leads (store w)) = k + n) m →
            hoare (fun w => search_businesses C bt loc mr = Ok businesses
                            ∧ campaign_count c (leads (store w)) = k + n) m
                  (fun _ w => search_businesses C bt loc mr = Ok businesses
                              ∧ campaign_count c (leads (store w)) = k + n)
                  (fun _ _ => True)).
  { intros m Hm w [Hs Hw]. specialize (Hm w Hw).
    by destruct (m w) as [w' [?|?]]. }
  assert (Hlog : ∀ line, preserves
            (fun w => campaign_count c (leads (store w)) = k + n) (logger_info line)).
  { intros line. by apply hoare_logger_info. }
  eapply hoare_bind.
  { apply Hsplit, count_frame. intros ?? H.
    by apply update_campaign_spec in H as (?&_). }
  intros ?. eapply hoare_bind.
  { apply Hsplit, preserves_when, preserves_bind; [apply Hlog|done]. }
  intros ?. eapply hoare_bind.
  { apply Hsplit, preserves_when, preserves_bind; [apply Hlog|done]. }
  intros ?. eapply hoare_bind.
  { apply Hsplit, preserves_when, preserves_bind; [apply Hlog|done]. }
  intros ?. eapply hoare_bind.
  { apply Hsplit, preserves_when, preserves_bind; [apply Hlog|done]. }
  intros ?. eapply hoare_bind; [apply Hsplit, Hlog|].
  intros ?. eapply hoare_bind.
  { intros w Hw.
    pose proof (export_preserves E C (VStr c) (fun w' => w' = w) w eq_refl) as Hx.
    destruct (_export_results E C (VStr c) w) as [w1 [x|e]]; [|done].
    cbn in Hx. subst w1. exact Hw. }
  intros csv. eapply hoare_bind.
  { apply hoare_db_read. intros w Hw.
    destruct (get_campaign_stats _ _); [exact Hw|done]. }
  intros stats. eapply hoare_bind.
  { apply Hsplit, count_frame. intros ?? H.
    by apply update_campaign_spec in H as (?&_). }
  intros ?. apply hoare_ret. intros w [Hs Hw].
  exists businesses. by repeat split.
Qed.

Lemma run_returns_body cfg E C bt loc mr name fe w w' summary :
  run_complete_pipeline cfg E C bt loc mr name fe w = (w', Ok summary) →
  ∃ w1,
    _create_campaign E bt loc mr name fe w = (w1, Ok (VStr (new_campaign_id E))) ∧
    pipeline_body cfg E C (VStr (new_campaign_id E)) bt loc mr w1 = (w', Ok summary).
Proof.
  unfold run_complete_pipeline, bind at 1. intros H.
  destruct (_create_campaign E bt loc mr name fe w) as [w1 [cid|e]] eqn:Hc; [|done].
  destruct (_create_campaign_leads _ _ _ _ _ _ _ _ _ Hc) as (-> & _).
  exists w1. split; [done|]. unfold try_except in H.
  destruct (pipeline_body _ _ _ _ _ _ _ w1) as [w2 [s|e]]; [done|].
  unfold bind, db_write, raise in H. by destruct (update_campaign _ _ _ _).
Qed.

(** X10.  When [run_complete_pipeline] returns, the search has found at
    least one business, the summary names the new campaign, says
    'completed' and counts the businesses found, and the store holds one
    more lead of that campaign for each of them. *)
Theorem run_stores_every_business cfg E C bt loc mr name fe w w' summary :
  run_complete_pipeline cfg E C bt loc mr name fe w = (w', Ok summary) →
  ∃ businesses,
    search_businesses C bt loc mr = Ok businesses ∧ businesses ≠ [] ∧
    summary_get summary "campaign_id" = VStr (new_campaign_id E) ∧
    summary_get summary "status" = VStr "completed" ∧
    summary_get summary "total_leads" = VInt (Z.of_nat (length businesses)) ∧
    campaign_count (new_campaign_id E) (leads (store w'))
    = campaign_count (new_campaign_id E) (leads (store w))
      + Z.of_nat (length businesses).
Proof.
  intros H. apply run_returns_body in H as (w1 & Hc & Hb).
  apply _create_campaign_leads in Hc as (_ & Hl & _).
  pose proof (pipeline_body_counts cfg E C (new_campaign_id E) bt loc mr _ w1 eq_refl)
    as Hq.
  rewrite Hb in Hq. destruct Hq as (bs & ? & ? & ? & ? & ? & Hn).
  exists bs. rewrite Hl in Hn. by repeat split.
Qed.

(** X11.  When a run with validation, enrichment, research and
    personalization enabled returns, from a store whose keys are in
    order, every lead of the new campaign has the status
    'personalized'. *)
Theorem full_run_personalizes E C bt loc mr name fe w w' summary :
  consistent (store w) →
  run_complete_pipeline (mkConfig true true true true) E C bt loc mr name fe w
  = (w', Ok summary) →
  campaign_leads_are (new_campaign_id E) "personalized" (leads (store w')).
Proof.
  intros Hw H. apply run_returns_body in H as (w1 & Hc & Hb).
  apply _create_campaign_leads in Hc as (_ & _ & Hcons).
  pose proof (all_stages_personalize E C (new_campaign_id E) bt loc mr w1 (Hcons Hw))
    as Hq.
  by rewrite Hb in Hq.
Qed.

Lemma runs_of_enabled_frame cfg rs0 (op : db → result db) :
  (∀ d d', op d = Ok d' → pipeline_runs d' = pipeline_runs d) →
  preserves (runs_of_enabled cfg rs0) (db_write op).
Proof.
  intros Hop. apply preserves_db_write. intros w d (new & Hr & Hall) Hd.
  exists new. cbn. by rewrite (Hop _ _ Hd).
Qed.

Lemma runs_of_enabled_logger cfg rs0 line :
  preserves (runs_of_enabled cfg rs0) (logger_info line).
Proof. by apply hoare_logger_info. Qed.

Lemma runs_of_enabled_one_more cfg rs0 name w w' :
  stage_enabled cfg name = true →
  runs_of_enabled cfg rs0 w →
  one_more_run (pipeline_runs (store w)) (log w) name w' →
  runs_of_enabled cfg rs0 w'.
Proof.
  intros Hn (new & Hr & Hall) (_ & r & Hr' & Hs).
  exists (new ++ [r]). rewrite Hr', Hr, app_assoc. split; [done|].
  apply Forall_app. split; [done|]. constructor; [by exists name|constructor].
Qed.

Lemma runs_of_enabled_plan cfg rs0 E C p c :
  stage_enabled cfg (plan_name p) = true →
  preserves (runs_of_enabled cfg rs0) (run_plan E C p (VStr c)).
Proof.
  intros Hn w Hw. pose proof (run_plan_rows E C p c w) as H.
  destruct (run_plan E C p (VStr c) w) as [w' r]. cbn [fst] in H.
  assert (runs_of_enabled cfg rs0 w').
  { destruct (get_leads_by_campaign _ _ _ _) as [[|? ?]|]; subst; try done.
    by apply (runs_of_enabled_one_more cfg rs0 (plan_name p) w w'). }
  by destruct r.
Qed.

Lemma runs_of_enabled_scrape cfg rs0 E C c bt loc mr :
  preserves (runs_of_enabled cfg rs0) (_scrape_businesses E C (VStr c) bt loc mr).
Proof.
  intros w Hw.
  pose proof (_scrape_businesses_rows E C c bt loc mr _ _ w (conj eq_refl eq_refl))
    as H.
  destruct (_scrape_businesses _ _ _ _ _ _ w) as [w' [a|e]];
    by apply (runs_of_enabled_one_more cfg rs0 "scraping" w w').
Qed.

Lemma runs_of_enabled_body cfg rs0 E C c bt loc mr :
  preserves (runs_of_enabled cfg rs0) (pipeline_body cfg E C (VStr c) bt loc mr).
Proof.
  assert (Hu : ∀ u, preserves (runs_of_enabled cfg rs0)
                      (db_write (update_campaign E (VStr c) u))).
  { intros u. apply runs_of_enabled_frame. intros ?? H.
    by apply update_campaign_spec in H as (_&?&_). }
  assert (Hstage : ∀ (flag : bool) line (m : M unit) p,
            (∀ w, m w = run_plan E C p (VStr c) w) →
            (flag = true → stage_enabled cfg (plan_name p) = true) →
            preserves (runs_of_enabled cfg rs0) (when flag (logger_info line ;; m))).
  { intros flag line m p Hm Hf. destruct flag; [|apply preserves_ret].
    apply preserves_bind; [apply runs_of_enabled_logger|]. intros ?.
    eapply hoare_ext; [exact Hm|]. apply runs_of_enabled_plan. by apply Hf. }
  unfold pipeline_body.
  apply preserves_bind; [apply Hu|]. intros ?.
  apply preserves_bind; [apply runs_of_enabled_logger|]. intros ?.
  apply preserves_bind; [apply runs_of_enabled_scrape|].
  intros [|b bs]; [apply preserves_raise|].
  apply preserves_bind; [apply runs_of_enabled_logger|]. intros ?.
  apply preserves_bind.
  { apply runs_of_enabled_frame. intros ?? H. by apply insert_leads_spec in H as (_&?&_). }
  intros ?. apply preserves_bind; [apply Hu|]. intros ?.
  apply preserves_bind.
  { apply (Hstage _ _ _ (validation_plan C)); [apply _validate_leads_plan|].
    intros Hf. unfold stage_enabled. cbn. by rewrite Hf. }
  intros ?. apply preserves_bind.
  { apply (Hstage _ _ _ enrichment_plan); [apply _enrich_linkedin_profiles_plan|].
    intros Hf. unfold stage_enabled. cbn. rewrite Hf. by rewrite ?orb_true_r. }
  intros ?. apply preserves_bind.
  { apply (Hstage _ _ _ (research_plan C)); [apply _research_companies_plan|].
    intros Hf. unfold stage_enabled. cbn. rewrite Hf. by rewrite ?orb_true_r. }
  intros ?. apply preserves_bind.
  { apply (Hstage _ _ _ (personalization_plan C)); [apply _personalize_messages_plan|].
    intros Hf. unfold stage_enabled. cbn. rewrite Hf. by rewrite ?orb_true_r. }
  intros ?. apply preserves_bind; [apply runs_of_enabled_logger|]. intros ?.
  apply preserves_bind; [apply export_preserves|]. intros csv.
  apply preserves_bind; [apply preserves_db_read|]. intros stats.
  apply preserves_bind; [apply Hu|]. intros ?. apply preserves_ret.
Qed.

(** X12.  Whether it returns or raises, a run appends to [pipeline_runs]
    only rows of the scraping stage and of the stages its configuration
    enables: a stage that is switched off records no run. *)
Theorem run_records_enabled_stages_only cfg E C bt loc mr name fe w :
  runs_of_enabled cfg (pipeline_runs (store w))
    (fst (run_complete_pipeline cfg E C bt loc mr name fe w)).
Proof.
  unfold run_complete_pipeline, bind at 1.
  pose proof (_create_campaign_spec E bt loc mr name fe w) as Hc.
  destruct (_create_campaign E bt loc mr name fe w) as [w1 [cid|e]].
  2:{ cbn. subst w1. exists []. by rewrite app_nil_r. }
  destruct Hc as (-> & _ & Hr).
  assert (H : preserves (runs_of_enabled cfg (pipeline_runs (store w)))
                (try_except
                   (pipeline_body cfg E C (VStr (new_campaign_id E)) bt loc mr)
                   (fun e =>
                      db_write (update_campaign E (VStr (new_campaign_id E))
                                  (<["status" := VStr "failed"]>
                                     {["error_message" := VStr (str_of_exn e)]})) ;;
                      raise e))).
  { apply preserves_try; [apply runs_of_enabled_body|]. intros e.
    apply preserves_bind; [|intros ?; apply preserves_raise].
    apply runs_of_enabled_frame. intros ?? H.
    by apply update_campaign_spec in H as (_&?&_). }
  specialize (H w1). 
  match goal with |- runs_of_enabled _ _ (fst ?x) => destruct x as [w' [a|e]] end;
    apply H; exists []; by rewrite app_nil_r.
Qed.

(** * The summary of a validated batch *)

Lemma single_lead_flags W (lead v : dict) :
  _validate_single_lead_async W lead = Ok v →
  ∃ company_valid details,
    _validate_company_async W (dict_get_or lead "website" (VStr ""))
                            (dict_get_or lead "name" (VStr ""))
    = Ok (company_valid, details) ∧
    v !! "email_valid"
    = Some (VBool (fst (fst (_validate_email W (dict_get_or lead "email" (VStr "")))))) ∧
    v !! "phone_valid"
    = Some (VBool (fst (_validate_phone W (dict_get_or lead "phone" (VStr ""))
                                        (dict_get_or lead "country" (VStr "US"))))) ∧
    v !! "company_valid" = Some (VBool company_valid).
Proof.
  unfold _validate_single_lead_async. intros Hr.
  destruct (fst (_validate_email _ _)) as [ev ed].
  destruct (_validate_phone _ _ _) as [pv pd].
  destruct (_validate_company_async _ _ _) as [[cv cd]|e]; [|done].
  injection Hr as <-. exists cv, cd. split; [done|].
  repeat split;
    repeat first [rewrite lookup_insert_ne by done
                 | rewrite lookup_set_details_ne by done];
    by rewrite lookup_insert_eq.
Qed.

Lemma _validate_email_true W (email : pyval) :
  fst (fst (_validate_email W email)) = true → truthy email = true.
Proof.
  unfold _validate_email. destruct email; try done.
  by destruct (truthy (VStr s)).
Qed.

Lemma _validate_phone_true W (phone country : pyval) :
  fst (_validate_phone W phone country) = true → truthy phone = true.
Proof.
  unfold _validate_phone. destruct phone; try done.
  by destruct (truthy (VStr s)).
Qed.

Lemma truthy_default_has_value (lead : dict) k :
  truthy (dict_get_or lead k (VStr "")) = true → has_value k lead = true.
Proof.
  unfold dict_get_or, has_value, dict_get. by destruct (lead !! k).
Qed.

Lemma has_value_frame (r lead : dict) k :
  r !! k = lead !! k → has_value k r = has_value k lead.
Proof. unfold has_value, dict_get. by intros ->. Qed.

Lemma lead_outcome_valid_has_value W (lead : dict) :
  (flag "email_valid" (lead_outcome W lead) = true →
   has_value "email" (lead_outcome W lead) = true) ∧
  (flag "phone_valid" (lead_outcome W lead) = true →
   has_value "phone" (lead_outcome W lead) = true).
Proof.
  unfold lead_outcome.
  destruct (_validate_single_lead_async W lead) as [v|e] eqn:Hv.
  - destruct (single_lead_flags _ _ _ Hv) as (cv & cd & _ & He & Hp & _).
    assert (Hk : ∀ k, k ∉ annotation_keys → has_value k v = has_value k lead).
    { intros k Hk. apply has_value_frame. by eapply single_lead_frame. }
    unfold flag, dict_get_or. rewrite He, Hp. cbn.
    split; intros Ht.
    + rewrite Hk; [|unfold annotation_keys; rewrite !not_elem_of_cons;
                    repeat split; try done; apply not_elem_of_nil].
      by apply truthy_default_has_value, (_validate_email_true W).
    + rewrite Hk; [|unfold annotation_keys; rewrite !not_elem_of_cons;
                    repeat split; try done; apply not_elem_of_nil].
      by eapply truthy_default_has_value, _validate_phone_true.
  - destruct (failed_lead_lookup lead e) as (He & Hp & _).
    unfold flag, dict_get_or. by rewrite He, Hp.
Qed.

Lemma count_where_split (p q : dict → bool) (rs : list dict) :
  Forall (fun r => q r = true → p r = true) rs →
  count_where q rs + count_where (fun r => p r && negb (q r)) rs = count_where p rs.
Proof.
  unfold count_where. induction 1 as [|r rs Hr _ IH]; [done|].
  cbn [List.filter]. destruct (q r) eqn:Hq.
  - rewrite (Hr eq_refl). cbn [andb negb length]. lia.
  - destruct (p r); cbn [andb negb length]; lia.
Qed.

Lemma count_where_complement (q : dict → bool) (rs : list dict) :
  count_where q rs + count_where (fun r => negb (q r)) rs = Z.of_nat (length rs).
Proof.
  unfold count_where. induction rs as [|r rs IH]; [done|].
  cbn [List.filter]. destruct (q r); cbn [negb length]; lia.
Qed.

Lemma count_where_range (p : dict → bool) (rs : list dict) :
  0 ≤ count_where p rs ≤ Z.of_nat (length rs).
Proof.
  unfold count_where. pose proof (List.filter_length_le p rs). lia.
Qed.

(** X13.  In the summary of a batch that [validate_leads_batch] returned,
    the leads with an e-mail address are the ones with a valid address
    plus the ones with an invalid one, and the same holds of the phone
    numbers: no lead is valid for a value it does not have.  The valid
    and the invalid companies add up to all the leads. *)
Theorem validation_summary_partitions W (leads results : list dict) summary :
  validate_leads_batch W leads = Ok results →
  get_validation_summary results = Ok (Some summary) →
  ∃ te ve ie tp vp ip tw vc ic,
    summary_get summary "total_leads" = VInt (Z.of_nat (length leads)) ∧
    summary_counts summary "email_validation" = Some (te, ve, ie) ∧
    summary_counts summary "phone_validation" = Some (tp, vp, ip) ∧
    summary_counts summary "company_validation" = Some (tw, vc, ic) ∧
    ve + ie = te ∧ 0 ≤ ve ∧ 0 ≤ ie ∧ te ≤ Z.of_nat (length leads) ∧
    vp + ip = tp ∧ 0 ≤ vp ∧ 0 ≤ ip ∧ tp ≤ Z.of_nat (length leads) ∧
    vc + ic = Z.of_nat (length leads) ∧ 0 ≤ vc ∧ 0 ≤ ic ∧
    0 ≤ tw ≤ Z.of_nat (length leads).
Proof.
  rewrite validate_leads_batch_map. intros [= <-] Hs.
  set (results := map (lead_outcome W) leads) in *.
  assert (Hlen : length results = length leads) by apply length_map.
  assert (Hvalid : Forall (fun r => (flag "email_valid" r = true →
                                     has_value "email" r = true)
                                    ∧ (flag "phone_valid" r = true →
                                       has_value "phone" r = true)) results).
  { subst results. apply Forall_fmap, Forall_forall. intros lead _.
    apply lead_outcome_valid_has_value. }
  unfold get_validation_summary in Hs.
  destruct results as [|r rs] eqn:Hr; [done|]. rewrite <- Hr in *.
  destruct (py_sum _ _) as [tv|]; [|done]. injection Hs as <-.
  eexists _, _, _, _, _, _, _, _, _.
  unfold summary_get, summary_counts. cbn [adict_get_or String.eqb Ascii.eqb Bool.eqb].
  split; [by rewrite Hlen|]. split; [reflexivity|]. split; [reflexivity|].
  split; [reflexivity|].
  pose proof (count_where_range (flag "email_valid") results).
  pose proof (count_where_range (flag "phone_valid") results).
  pose proof (count_where_range (flag "company_valid") results).
  pose proof (count_where_range (has_value "email") results).
  pose proof (count_where_range (has_value "phone") results).
  pose proof (count_where_range (has_value "website") results).
  pose proof (count_where_range
                (fun lead => has_value "email" lead && negb (flag "email_valid" lead))
                results).
  pose proof (count_where_range
                (fun lead => has_value "phone" lead && negb (flag "phone_valid" lead))
                results).
  pose proof (count_where_range (fun lead => negb (flag "company_valid" lead)) results).
  pose proof (count_where_split (has_value "email") (flag "email_valid") results
                ltac:(eapply Forall_impl; [exact Hvalid|]; by intros ? [? _])).
  pose proof (count_where_split (has_value "phone") (flag "phone_valid") results
                ltac:(eapply Forall_impl; [exact Hvalid|]; by intros ? [_ ?])).
  pose proof (count_where_complement (flag "company_valid") results).
  rewrite Hlen in *. repeat split; lia.
Qed.

(** * The company check *)

Lemma _check_website_async_str W (w : string) :
  ∃ valid details, _check_website_async W (VStr w) = Ok (valid, details).
Proof.
  unfold _check_website_async. destruct (negb (truthy (VStr w))); [by eexists _, _|].
  destruct (session_get W _); by eexists _, _.
Qed.

(** X14.  [_check_website_async] never raises on a string.  It requests
    the address itself when it starts with a scheme and its [https://]
    form otherwise, so that an address without scheme is checked as its
    [https://] form is; and it reports the website as valid exactly when
    the request is answered with a status from 200 to 399. *)
Theorem website_check_on_strings W (w : string) :
  (∃ valid details, _check_website_async W (VStr w) = Ok (valid, details)) ∧
  (w ≠ "" →
   _check_website_async W (VStr w) = _check_website_async W (VStr (requested_url w))) ∧
  (∀ valid details,
     _check_website_async W (VStr w) = Ok (valid, details) →
     (valid = true ↔
      w ≠ "" ∧ ∃ r, session_get W (requested_url w) = HttpResponse r
                    ∧ 200 ≤ status_code r < 400)).
Proof.
  split; [apply _check_website_async_str|]. split.
  - intros Hw. unfold requested_url.
    destruct (PyStr.startswith "http://" w || PyStr.startswith "https://" w) eqn:Hp;
      [done|].
    assert (Hs : PyStr.startswith "http://" ("https://" ++ w)
                 || PyStr.startswith "https://" ("https://" ++ w) = true)
      by (destruct w; reflexivity).
    assert (Ht : truthy (VStr w) = true).
    { cbn. by destruct (String.eqb_spec w ""). }
    assert (Ht' : truthy (VStr ("https://" ++ w)) = true) by reflexivity.
    unfold _check_website_async. by rewrite Hp, Hs, Ht, Ht'.
  - intros valid details H. unfold _check_website_async in H.
    fold (requested_url w) in H.
    destruct (truthy (VStr w)) eqn:Ht; cbn [negb] in H.
    2:{ injection H as <- _. split; [done|]. intros [Hw _].
        cbn in Ht. by destruct (String.eqb_spec w ""). }
    assert (w ≠ "") as Hw.
    { intros ->. done. }
    destruct (session_get W (requested_url w)) as [r| | |msg|msg] eqn:Hs;
      injection H as <- _; try (split; [done|]; by intros (_ & r' & [=] & _)).
    split.
    + intros Hv. apply andb_true_iff in Hv as [H1 H2].
      apply Z.leb_le in H1. apply Z.ltb_lt in H2. split; [done|]. by exists r.
    + intros (_ & r' & [= <-] & H1 & H2).
      apply andb_true_iff. split; [by apply Z.leb_le|by apply Z.ltb_lt].
Qed.

Lemma strip_length_nonempty n : 2 < PyStr.len (PyStr.strip n) → truthy (VStr n) = true.
Proof. destruct n; [done|]. done. Qed.

(** X15.  Whatever the network answers, a lead whose name has more than
    two characters once stripped is validated with [company_valid] true,
    provided its website is a string or is not given: the website can
    make the validation raise only by not being a string. *)
Theorem named_lead_is_company_valid W (lead : dict) (n : string) :
  lead !! "name" = Some (VStr n) →
  2 < PyStr.len (PyStr.strip n) →
  (∀ v, lead !! "website" = Some v → truthy v = true → ∃ s, v = VStr s) →
  ∃ v, _validate_single_lead_async W lead = Ok v ∧
       v !! "company_valid" = Some (VBool true) ∧
       flag "company_valid" (lead_outcome W lead) = true.
Proof.
  intros Hn Hlen Hweb.
  assert (Hc : ∃ details,
             _validate_company_async W (dict_get_or lead "website" (VStr ""))
                                     (dict_get_or lead "name" (VStr ""))
             = Ok (true, details)).
  { assert (Hname : dict_get_or lead "name" (VStr "") = VStr n)
      by (unfold dict_get_or; by rewrite Hn).
    rewrite Hname.
    pose proof (strip_length_nonempty n Hlen) as Htn.
    assert (Hfb : ∀ details, ∃ details',
              company_name_fallback (VStr n) details = Ok (true, details')).
    { intros details. unfold company_name_fallback. cbn [truthy] in *. rewrite Htn.
      destruct (Z.ltb_spec 2 (PyStr.len (PyStr.strip n))); [by eexists|lia]. }
    unfold _validate_company_async. cbn [truthy] in Htn |- *.
    rewrite Htn. cbn [negb]. rewrite andb_false_r.
    destruct (truthy (dict_get_or lead "website" (VStr ""))) eqn:Hw; [|apply Hfb].
    assert (∃ s, dict_get_or lead "website" (VStr "") = VStr s) as [s Hs].
    { unfold dict_get_or in *. destruct (lead !! "website") as [v|]; [|by eexists].
      by apply Hweb. }
    rewrite Hs. destruct (_check_website_async_str W s) as (valid & details & ->).
    destruct valid; [by eexists|apply Hfb]. }
  destruct Hc as [details Hc].
  destruct (_validate_single_lead_async W lead) as [v|e] eqn:Hv.
  - destruct (single_lead_flags _ _ _ Hv) as (cv & cd & Hc' & _ & _ & Hcv).
    rewrite Hc in Hc'. injection Hc' as <- _.
    exists v. split; [done|]. split; [done|].
    unfold lead_outcome. rewrite Hv. unfold flag, dict_get_or. by rewrite Hcv.
  - exfalso. unfold _validate_single_lead_async in Hv.
    destruct (fst (_validate_email _ _)) as [ev ed].
    destruct (_validate_phone _ _ _) as [pv pd]. by rewrite Hc in Hv.
Qed.

Lemma all_chars_app p (a b : string) :
  all_chars p (a ++ b)%string = all_chars p a && all_chars p b.
Proof.
  induction a as [|c a IH]; [done|].
  change (String c a ++ b)%string with (String c (a ++ b)%string).
  cbn [all_chars]. by rewrite IH, andb_assoc.
Qed.

Lemma all_chars_true s : all_chars (fun _ => true) s = true.
Proof. by induction s. Qed.

Lemma all_chars_sub_class (q0 p q : ascii → bool) rep s :
  all_chars q0 s = true →
  (∀ c, q0 c = true → p c = false → q c = true) → all_chars q rep = true →
  all_chars q (Utils.sub_class p rep s) = true.
Proof.
  intros Hs Hq Hrep. induction s as [|c s IH]; [done|].
  cbn [all_chars] in Hs. apply andb_true_iff in Hs as [Hc Hs].
  cbn [Utils.sub_class]. destruct (p c) eqn:Hp.
  - by rewrite all_chars_app, Hrep, IH.
  - cbn [all_chars]. by rewrite (Hq c Hc Hp), IH.
Qed.

Lemma all_chars_sub_spaces (q0 q : ascii → bool) rep s b :
  all_chars q0 s = true →
  (∀ c, q0 c = true → PyStr.is_space c = false → q c = true) →
  all_chars q rep = true →
  all_chars q (Utils.sub_spaces_from b rep s) = true.
Proof.
  intros Hs Hq Hrep. revert b. induction s as [|c s IH]; intros b; [done|].
  cbn [all_chars] in Hs. apply andb_true_iff in Hs as [Hc Hs].
  cbn [Utils.sub_spaces_from]. destruct (PyStr.is_space c) eqn:Hsp.
  - destruct b; [by apply IH|]. rewrite all_chars_app, Hrep. by apply IH.
  - cbn [all_chars]. rewrite (Hq c Hc Hsp). by apply IH.
Qed.

Lemma all_chars_lstrip p q s :
  all_chars q s = true → all_chars q (Utils.lstrip_chars p s) = true.
Proof.
  induction s as [|c s IH]; [done|]. intros Hs. cbn [Utils.lstrip_chars].
  destruct (p c); [|done]. cbn [all_chars] in Hs.
  apply andb_true_iff in Hs as [_ Hs]. by apply IH.
Qed.

Lemma all_chars_rstrip p q s :
  all_chars q s = true → all_chars q (Utils.rstrip_chars p s) = true.
Proof.
  induction s as [|c s IH]; [done|]. intros Hs. cbn [Utils.rstrip_chars].
  cbn [all_chars] in Hs. apply andb_true_iff in Hs as [Hc Hs].
  destruct (p c && _); [done|]. cbn [all_chars]. by rewrite Hc, IH.
Qed.

Lemma all_chars_take q n s :
  all_chars q s = true → all_chars q (PyStr.take n s) = true.
Proof.
  unfold PyStr.take. revert n. induction s as [|c s IH]; intros n Hs.
  - by destruct n.
  - cbn [all_chars] in Hs. apply andb_true_iff in Hs as [Hc Hs].
    destruct n; [done|]. cbn [substring all_chars]. by rewrite Hc, IH.
Qed.

Lemma take_length n s : (String.length (PyStr.take n s) ≤ n)%nat.
Proof.
  unfold PyStr.take. revert n. induction s as [|c s IH]; intros n.
  - destruct n; cbn; lia.
  - destruct n; [cbn; lia|]. cbn [substring String.length]. specialize (IH n). lia.
Qed.

Lemma begins_with_lstrip p s : begins_with p (Utils.lstrip_chars p s) = false.
Proof.
  induction s as [|c s IH]; [done|]. cbn [Utils.lstrip_chars].
  destruct (p c) eqn:Hc; [done|]. cbn. exact Hc.
Qed.

Lemma begins_with_rstrip p q s :
  begins_with q s = false → begins_with q (Utils.rstrip_chars p s) = false.
Proof. destruct s as [|c s]; [done|]. cbn. by destruct (p c && _). Qed.

Lemma begins_with_take q n s :
  begins_with q s = false → begins_with q (PyStr.take n s) = false.
Proof. unfold PyStr.take. destruct s as [|c s], n; done. Qed.

(** X16.  Whatever it is given, [clean_filename] returns a name that is
    not empty, has at most 100 characters, holds no double quote, none of the
    characters < > : / \ | ? * and no whitespace, and does not begin with a dot or an
    underscore. *)
Theorem clean_filename_safe (filename : string) :
  Utils.clean_filename filename ≠ "" ∧
  (String.length (Utils.clean_filename filename) ≤ 100)%nat ∧
  all_chars filename_char (Utils.clean_filename filename) = true ∧
  begins_with (fun c => Ascii.eqb c "." || Ascii.eqb c "_")
              (Utils.clean_filename filename) = false.
Proof.
  unfold Utils.clean_filename.
  destruct (String.eqb_spec filename ""); [by repeat split; cbn; try lia|].
  set (dots := fun c => Ascii.eqb c "." || Ascii.eqb c "_").
  set (s1 := Utils.sub_class Utils.unsafe_char "_" filename).
  set (s2 := Utils.sub_spaces "_" s1).
  set (s3 := Utils.strip_chars dots s2).
  set (s4 := if 100 <? PyStr.len s3 then PyStr.take 100 s3 else s3).
  assert (H1 : all_chars (fun c => negb (Utils.unsafe_char c)) s1 = true).
  { apply all_chars_sub_class with (q0 := fun _ => true);
      [apply all_chars_true| |done]. by intros c _ ->. }
  assert (H2 : all_chars filename_char s2 = true).
  { eapply all_chars_sub_spaces; [exact H1| |done].
    intros c Hc Hs. unfold filename_char. by rewrite Hc, Hs. }
  assert (H3 : all_chars filename_char s3 = true).
  { by apply all_chars_rstrip, all_chars_lstrip. }
  assert (H4 : all_chars filename_char s4 = true).
  { subst s4. destruct (_ <? _); [by apply all_chars_take|done]. }
  assert (B3 : begins_with dots s3 = false).
  { apply begins_with_rstrip, begins_with_lstrip. }
  assert (B4 : begins_with dots s4 = false).
  { subst s4. destruct (_ <? _); [by apply begins_with_take|done]. }
  assert (L4 : (String.length s4 ≤ 100)%nat).
  { subst s4. destruct (Z.ltb_spec 100 (PyStr.len s3)); [apply take_length|].
    unfold PyStr.len in *. lia. }
  destruct (String.eqb_spec s4 ""); [by repeat split; cbn; try lia|].
  by repeat split.
Qed.

Lemma lstrip_is_lstrip_chars s : PyStr.lstrip s = Utils.lstrip_chars PyStr.is_space s.
Proof.
  induction s as [|c s IH]; [done|]. cbn [PyStr.lstrip Utils.lstrip_chars].
  by rewrite IH.
Qed.

Lemma rstrip_is_rstrip_chars s : PyStr.rstrip s = Utils.rstrip_chars PyStr.is_space s.
Proof.
  induction s as [|c s IH]; [done|]. cbn [PyStr.rstrip Utils.rstrip_chars].
  by rewrite IH.
Qed.

Lemma strip_is_strip_chars s : PyStr.strip s = Utils.strip_chars PyStr.is_space s.
Proof.
  unfold PyStr.strip, Utils.strip_chars.
  by rewrite rstrip_is_rstrip_chars, lstrip_is_lstrip_chars.
Qed.

Lemma count_char_app c (a b : string) :
  count_char c (a ++ b)%string = count_char c a + count_char c b.
Proof.
  induction a as [|x a IH]; [done|].
  change (String x a ++ b)%string with (String x (a ++ b)%string).
  cbn [count_char]. rewrite IH. lia.
Qed.

Lemma count_char_nonneg c s : 0 ≤ count_char c s.
Proof.
  induction s as [|x s IH]; [done|]. cbn [count_char].
  destruct (Ascii.eqb c x); lia.
Qed.

Lemma count_char_sub_class c (p : ascii → bool) rep s :
  p c = false → count_char c rep = 0 →
  count_char c (Utils.sub_class p rep s) = count_char c s.
Proof.
  intros Hp Hrep. induction s as [|x s IH]; [done|]. cbn [Utils.sub_class].
  destruct (p x) eqn:Hx.
  - rewrite count_char_app, Hrep, IH. cbn [count_char].
    destruct (Ascii.eqb_spec c x) as [->|]; [congruence|lia].
  - cbn [count_char]. by rewrite IH.
Qed.

Lemma count_char_sub_spaces c rep s b :
  PyStr.is_space c = false → count_char c rep = 0 →
  count_char c (Utils.sub_spaces_from b rep s) = count_char c s.
Proof.
  intros Hp Hrep. revert b. induction s as [|x s IH]; intros b; [done|].
  cbn [Utils.sub_spaces_from count_char].
  destruct (PyStr.is_space x) eqn:Hx.
  - assert (Ascii.eqb c x = false) as ->.
    { destruct (Ascii.eqb_spec c x) as [->|]; [congruence|done]. }
    destruct b; [by rewrite IH|]. by rewrite count_char_app, Hrep, IH.
  - cbn [count_char]. by rewrite IH.
Qed.

Lemma count_char_lstrip c (p : ascii → bool) s :
  p c = false → count_char c (Utils.lstrip_chars p s) = count_char c s.
Proof.
  intros Hp. induction s as [|x s IH]; [done|]. cbn [Utils.lstrip_chars].
  destruct (p x) eqn:Hx; [|done]. rewrite IH. cbn [count_char].
  destruct (Ascii.eqb_spec c x) as [->|]; [congruence|lia].
Qed.

Lemma count_char_rstrip c (p : ascii → bool) s :
  p c = false → count_char c (Utils.rstrip_chars p s) = count_char c s.
Proof.
  intros Hp. induction s as [|x s IH]; [done|]. cbn [Utils.rstrip_chars].
  destruct (p x && _) eqn:Hx.
  - apply andb_true_iff in Hx as [Hx He]. apply String.eqb_eq in He.
    rewrite He in IH. cbn [count_char] in *. rewrite <- IH.
    destruct (Ascii.eqb_spec c x) as [->|]; [congruence|lia].
  - cbn [count_char]. by rewrite IH.
Qed.

Lemma count_char_doubled c s :
  count_char c (Utils.replace_char c (String c (String c EmptyString)) s)
  = 2 * count_char c s.
Proof.
  unfold Utils.replace_char. induction s as [|x s IH]; [done|].
  cbn [Utils.sub_class]. destruct (Ascii.eqb c x) eqn:Hx.
  - rewrite count_char_app, IH. cbn [count_char]. rewrite Ascii.eqb_refl, Hx. lia.
  - cbn [count_char]. rewrite Hx, IH. lia.
Qed.

Lemma count_char_absent c s : Utils.contains c s = false → count_char c s = 0.
Proof.
  induction s as [|x s IH]; [done|]. cbn [Utils.contains count_char].
  intros H. apply orb_false_iff in H as [-> H]. by rewrite IH.
Qed.

Lemma begins_with_sub_class q (p : ascii → bool) rep s :
  rep ≠ "" → begins_with q rep = false → begins_with q s = false →
  begins_with q (Utils.sub_class p rep s) = false.
Proof.
  intros Hne Hrep Hs. destruct s as [|c s]; [done|]. cbn [Utils.sub_class].
  destruct (p c); [|done]. by destruct rep.
Qed.

(** X17.  The text [sanitize_for_csv] returns has no whitespace but single
    space characters (so no line break), does not begin with a space,
    and holds each double quote of the input twice. *)
Theorem sanitize_for_csv_one_line (text : string) :
  all_chars plain_space (Utils.sanitize_for_csv text) = true ∧
  begins_with PyStr.is_space (Utils.sanitize_for_csv text) = false ∧
  count_char Utils.quote (Utils.sanitize_for_csv text)
  = 2 * count_char Utils.quote text.
Proof.
  unfold Utils.sanitize_for_csv.
  destruct (String.eqb_spec text "") as [->|_]; [done|].
  set (t1 := Utils.replace_char _ _ (Utils.replace_char _ _ text)).
  set (t2 := PyStr.strip t1).
  set (t3 := Utils.sub_spaces " " t2).
  assert (C1 : count_char Utils.quote t1 = count_char Utils.quote text).
  { unfold t1, Utils.replace_char. by rewrite !count_char_sub_class. }
  assert (C2 : count_char Utils.quote t2 = count_char Utils.quote text).
  { unfold t2. rewrite strip_is_strip_chars. unfold Utils.strip_chars.
    by rewrite count_char_rstrip, count_char_lstrip. }
  assert (C3 : count_char Utils.quote t3 = count_char Utils.quote text).
  { unfold t3, Utils.sub_spaces. by rewrite count_char_sub_spaces. }
  assert (A3 : all_chars plain_space t3 = true).
  { unfold t3, Utils.sub_spaces.
    apply all_chars_sub_spaces with (q0 := fun _ => true);
      [apply all_chars_true| |done].
    intros c _ Hc. unfold plain_space. by rewrite Hc. }
  assert (B2 : begins_with PyStr.is_space t2 = false).
  { unfold t2. rewrite strip_is_strip_chars.
    apply begins_with_rstrip, begins_with_lstrip. }
  assert (B3 : begins_with PyStr.is_space t3 = false).
  { unfold t3, Utils.sub_spaces. destruct t2 as [|c s]; [done|].
    cbn in B2. cbn [Utils.sub_spaces_from]. by rewrite B2. }
  destruct (Utils.contains Utils.quote t3) eqn:Hq.
  - split; [|split].
    + unfold Utils.replace_char.
      by apply all_chars_sub_class with (q0 := plain_space).
    + unfold Utils.replace_char. by apply begins_with_sub_class.
    + by rewrite count_char_doubled, C3.
  - split; [done|split; [done|]]. rewrite count_char_absent by done.
    rewrite <- C3, count_char_absent by done. done.
Qed.












Lemma append_if_nil cond msg errors :
  Config.append_if cond msg errors = [] ↔ cond = false ∧ errors = [].
Proof.
  unfold Config.append_if. destruct cond.
  - split; [by destruct errors|by intros [? _]].
  - intuition congruence.
Qed.

Lemma append_if_In x cond msg errors :
  In x (Config.append_if cond msg errors) ↔ In x errors ∨ (cond = true ∧ x = msg).
Proof.
  unfold Config.append_if. destruct cond.
  - rewrite in_app_iff. cbn. intuition congruence.
  - intuition congruence.
Qed.

Lemma append_if_length cond msg errors :
  length (Config.append_if cond msg errors)
  = (length errors + (if cond then 1 else 0))%nat.
Proof.
  unfold Config.append_if. destruct cond; [|lia].
  rewrite length_app. cbn. lia.
Qed.

(** X19.  [validate] reports no error exactly when [get_missing_configs]
    reports no missing key and the four numeric settings are in their
    ranges; and it never reports fewer errors than there are missing
    keys. *)
Theorem validate_agrees_with_missing_configs (self : Config.LeadPipelineConfig) :
  (Config.validate self = []
   ↔ Config.get_missing_configs self = [] ∧ settings_in_range self) ∧
  (length (Config.get_missing_configs self) ≤ length (Config.validate self))%nat.
Proof.
  unfold Config.validate, Config.get_missing_configs, settings_in_range.
  split.
  - destruct (Config.enable_campaign_creation self); cbn [andb];
      rewrite !append_if_nil, ?orb_false_iff, ?Z.ltb_ge; intuition lia.
  - destruct (Config.enable_campaign_creation self); cbn [andb];
      rewrite !append_if_length; cbn [length];
      repeat match goal with |- context [if ?b then _ else _] => destruct b end;
      lia.
Qed.

(** X20.  A configuration created with campaign creation off never gets,
    after [__post_init__] has read the environment, a validation error
    or a missing key about campaign creation: the step turns campaign
    creation on only when both the Instantly key and the sender address
    are there. *)
Theorem post_init_campaign_creation_is_configured env (self : Config.LeadPipelineConfig) :
  Config.enable_campaign_creation self = false →
  let self' := Config.__post_init__ env self in
  ¬ In "Instantly API key is required for campaign creation"
       (Config.validate self') ∧
  ¬ In "From email is required for campaign creation" (Config.validate self') ∧
  ¬ In "INSTANTLY_API_KEY" (Config.get_missing_configs self') ∧
  ¬ In "INSTANTLY_FROM_EMAIL" (Config.get_missing_configs self') ∧
  (Config.enable_campaign_creation self' = true
   ↔ Config.instantly_api_key self' ≠ "" ∧ Config.instantly_from_email self' ≠ "").
Proof.
  intros Hoff self'.
  assert (Hon : Config.enable_campaign_creation self'
                = Config.nonempty (Config.instantly_api_key self')
                  && Config.nonempty (Config.instantly_from_email self')).
  { subst self'. unfold Config.__post_init__. cbn. rewrite Hoff.
    by destruct (_ && _). }
  unfold Config.validate, Config.get_missing_configs. rewrite Hon.
  unfold Config.nonempty in *.
  destruct (String.eqb_spec (Config.instantly_api_key self') "") as [Hk|Hk],
           (String.eqb_spec (Config.instantly_from_email self') "") as [Hf|Hf];
    cbn [negb andb]; rewrite !append_if_In; cbn [In];
    repeat split; try (intuition congruence); intuition discriminate.
Qed.

Lemma slice_to_length n (places : list dict) :
  0 ≤ n → Z.of_nat (length (Scraper.slice_to n places)) ≤ n.
Proof.
  intros Hn. unfold Scraper.slice_to. destruct (Z.leb_spec 0 n); [|lia].
  rewrite length_firstn. lia.
Qed.

Lemma slice_to_nil n : Scraper.slice_to n [] = [].
Proof. unfold Scraper.slice_to. by destruct (0 <=? n); rewrite firstn_nil. Qed.

Lemma slice_to_short n (places : list dict) :
  Z.of_nat (length places) ≤ n → Scraper.slice_to n places = places.
Proof.
  intros H. unfold Scraper.slice_to. destruct (Z.leb_spec 0 n); [|lia].
  apply firstn_all2. lia.
Qed.

Lemma search_loop_returns textsearch fuel k places token max_results :
  (∀ k token, productive (textsearch k token)) →
  max_results - Z.of_nat (length places) ≤ Z.of_nat fuel →
  ∃ found, Scraper.search_loop textsearch fuel k places token max_results
           = Some (places ++ found).
Proof.
  intros Hprod. revert k places token.
  induction fuel as [|fuel IH]; intros k places token Hfuel.
  - exists []. rewrite app_nil_r. cbn.
    destruct (Z.ltb_spec (Z.of_nat (length places)) max_results); [lia|done].
  - cbn [Scraper.search_loop].
    destruct (Z.ltb_spec (Z.of_nat (length places)) max_results);
      [|by exists []; rewrite app_nil_r].
    specialize (Hprod k token).
    destruct (textsearch k token) as [status results t|];
      [|by exists []; rewrite app_nil_r].
    destruct Hprod as [->|[-> Hne]]; [by exists []; rewrite app_nil_r|].
    cbn [String.eqb Ascii.eqb Bool.eqb negb andb].
    change ("OK" =? "OK")%string with true. cbn [negb].
    destruct t as [t|]; [|by exists results].
    destruct (String.eqb t ""); [by exists results|].
    destruct (IH (S k) (places ++ results) (Some t)) as [found Hfound].
    { rewrite length_app. destruct results; [done|]. cbn [length]. lia. }
    exists (results ++ found). by rewrite Hfound, app_assoc.
Qed.

(** X21.  When every reply of the text search is an error, ZERO_RESULTS or
    OK with at least one place, [_search_places] returns after at most
    [max_results] requests, and with at most [max_results] places (none
    when [max_results] is zero or less). *)
Theorem search_places_returns textsearch (max_results : Z) :
  (∀ k token, productive (textsearch k token)) →
  ∃ places,
    Scraper._search_places textsearch (Z.to_nat max_results) max_results
    = Some places ∧
    Z.of_nat (length places) ≤ Z.max 0 max_results.
Proof.
  intros Hprod. unfold Scraper._search_places.
  destruct (Z.le_gt_cases max_results 0) as [Hle|Hpos].
  - replace (Z.to_nat max_results) with 0%nat by lia. cbn [Scraper.search_loop length].
    destruct (Z.ltb_spec (Z.of_nat 0) max_results); [lia|].
    exists []. rewrite slice_to_nil. split; [done|]. cbn [length]. lia.
  - destruct (search_loop_returns textsearch (Z.to_nat max_results) 0 [] None
                max_results Hprod) as [found ->]; [cbn [length]; lia|].
    eexists. split; [done|]. pose proof (slice_to_length max_results ([] ++ found)). lia.
Qed.

(** X22.  While the text search answers with a status other than OK and
    ZERO_RESULTS, [_search_places] asks again with the same page token
    and without counting the attempts: when every reply is such a one
    and [max_results] is positive, it does not return, however many
    requests it is given. *)
Theorem search_places_retries_forever textsearch (max_results : Z) :
  0 < max_results →
  (∀ k token, refused (textsearch k token)) →
  ∀ fuel, Scraper._search_places textsearch fuel max_results = None.
Proof.
  intros Hpos Href fuel. unfold Scraper._search_places.
  assert (H : ∀ k token,
    Scraper.search_loop textsearch fuel k [] token max_results = None);
    [|by rewrite H].
  assert (Hlt : (Z.of_nat (length (@nil dict)) <? max_results) = true)
    by (apply Z.ltb_lt; cbn [length]; lia).
  induction fuel as [|fuel IH]; intros k token; cbn [Scraper.search_loop];
    rewrite Hlt; [done|].
  specialize (Href k token).
  destruct (textsearch k token) as [status results t|]; [|done].
  destruct Href as [Hok Hzero].
  apply String.eqb_neq in Hok, Hzero. rewrite Hok, Hzero. cbn [negb].
  apply IH.
Qed.

Lemma try_ports_first can_bind port count :
  match Api.try_ports can_bind port count with
  | Ok p =>
      port ≤ p < port + Z.of_nat count ∧ valid_port p ∧ can_bind p = true ∧
      ∀ q, port ≤ q < p → valid_port q ∧ can_bind q = false
  | Raise e =>
      (e = mkExn "RuntimeError" "No free ports available" ∧
       ∀ q, port ≤ q < port + Z.of_nat count → valid_port q ∧ can_bind q = false)
      ∨ (e = mkExn "OverflowError" "bind(): port must be 0-65535." ∧
         ∃ p, port ≤ p < port + Z.of_nat count ∧ ¬ valid_port p ∧
              ∀ q, port ≤ q < p → valid_port q ∧ can_bind q = false)
  end.
Proof.
  unfold valid_port. revert port. induction count as [|count IH]; intros port.
  - cbn [Api.try_ports]. left. split; [done|]. lia.
  - cbn [Api.try_ports].
    destruct (Z.ltb_spec port 0); cbn [orb].
    { right. split; [done|]. exists port. repeat split; lia. }
    destruct (Z.ltb_spec 65535 port).
    { right. split; [done|]. exists port. repeat split; lia. }
    destruct (can_bind port) eqn:Hb.
    { repeat split; lia || done. }
    assert (Hstep : ∀ q p, port ≤ q < p →
              (∀ q, port + 1 ≤ q < p → 0 ≤ q ≤ 65535 ∧ can_bind q = false) →
              0 ≤ q ≤ 65535 ∧ can_bind q = false).
    { intros q p Hq Hrest. destruct (Z.eq_dec q port) as [->|]; [by split; [lia|]|].
      apply Hrest. lia. }
    specialize (IH (port + 1)).
    destruct (Api.try_ports can_bind (port + 1) count) as [p|e].
    + destruct IH as (Hp & Hv & Hc & Hrest).
      repeat split; try lia; try done; by eapply Hstep.
    + destruct IH as [[-> Hall]|[-> (p & Hp & Hv & Hrest)]].
      * left. split; [done|]. intros q Hq.
        apply (Hstep q (port + 1 + Z.of_nat count)); [lia|done].
      * right. split; [done|]. exists p. split; [lia|]. split; [done|].
        intros q Hq. by apply (Hstep q p).
Qed.

(** X23.  [find_free_port] looks at the ports from [start_port] upwards
    and stops at the first that is free or is no port number.  It
    returns the free one, the smallest free port among the hundred from
    [start_port]; it raises OverflowError, not RuntimeError, when it
    comes to a number outside 0..65535 first; and it raises RuntimeError
    exactly when all hundred are port numbers in use. *)
Theorem find_free_port_first_free can_bind (start_port : Z) :
  match Api.find_free_port can_bind start_port with
  | Ok p =>
      start_port ≤ p < start_port + 100 ∧ valid_port p ∧ can_bind p = true ∧
      ∀ q, start_port ≤ q < p → valid_port q ∧ can_bind q = false
  | Raise e =>
      (e = mkExn "RuntimeError" "No free ports available" ∧
       ∀ q, start_port ≤ q < start_port + 100 →
            valid_port q ∧ can_bind q = false)
      ∨ (e = mkExn "OverflowError" "bind(): port must be 0-65535." ∧
         ∃ p, start_port ≤ p < start_port + 100 ∧ ¬ valid_port p ∧
              ∀ q, start_port ≤ q < p → valid_port q ∧ can_bind q = false)
  end.
Proof. exact (try_ports_first can_bind start_port 100). Qed.

Section Tasks.

Import Api.

Lemma task_update_registered task_id u tasks task :
  tasks !! task_id = Some task →
  task_update task_id u tasks = Ok (<[task_id := dict_update task u]> tasks).
Proof. intros H. unfold task_update. by rewrite H. Qed.

(** X24.  For a registered task, the id of the new campaign being free,
    [run_pipeline_task] never raises, and the task ends as the campaign
    does: 'completed' with progress 100 and the summary of the run as
    its results when the run returns; 'failed' when the run raises, with
    the message of the exception, which is also the error message of the
    Campaign row, and with the progress 0 and the step 'Starting
    pipeline' of its start.  The other tasks are as before. *)
Theorem task_ends_as_campaign cfg E C started ended task_id request s task :
  active_tasks s !! task_id = Some task →
  other_campaigns (new_campaign_id E) (campaigns (store (pipeline s))) →
  1 ≤ leads_count request ≤ 100 →
  ∃ task' row,
    run_pipeline_task cfg E C started ended task_id request s
    = (mkServer (<[task_id := task']> (active_tasks s))
                (fst (run_complete_pipeline cfg E C (business_name request)
                        (location request) (leads_count request)
                        (Some ("API Campaign " ++ task_id)%string) (from_email request)
                        (pipeline s))),
       Ok tt) ∧
    campaigns (store (fst (run_complete_pipeline cfg E C (business_name request)
                        (location request) (leads_count request)
                        (Some ("API Campaign " ++ task_id)%string) (from_email request)
                        (pipeline s))))
    = campaigns (store (pipeline s)) ++ [row] ∧
    row !! "id" = Some (VStr (new_campaign_id E)) ∧
    task' !! "started_at" = Some (VStr started) ∧
    task' !! "completed_at" = Some (VStr ended) ∧
    match snd (run_complete_pipeline cfg E C (business_name request)
                 (location request) (leads_count request)
                 (Some ("API Campaign " ++ task_id)%string) (from_email request)
                 (pipeline s)) with
    | Ok results =>
        task' !! "status" = Some (VStr "completed") ∧
        task' !! "progress" = Some (VInt 100) ∧
        task' !! "current_step" = Some (VStr "Completed") ∧
        task' !! "results" = Some (VDict results) ∧
        task' !! "error_message" = task !! "error_message" ∧
        row !! "status" = Some (VStr "completed")
    | Raise e =>
        task' !! "status" = Some (VStr "failed") ∧
        task' !! "progress" = Some (VInt 0) ∧
        task' !! "current_step" = Some (VStr "Starting pipeline") ∧
        task' !! "results" = task !! "results" ∧
        task' !! "error_message" = Some (VStr (str_of_exn e)) ∧
        row !! "status" = Some (VStr "failed") ∧
        row !! "error_message" = Some (VStr (str_of_exn e))
    end.
Proof.
  intros Htask Hold Hcount.
  assert (Hmr : - 2 ^ 63 ≤ leads_count request < 2 ^ 63) by lia.
  pose proof (run_campaign_row cfg E C (business_name request) (location request)
                (leads_count request) (Some ("API Campaign " ++ task_id)%string)
                (from_email request) (pipeline s) Hold Hmr) as Hrow.
  unfold run_pipeline_task. rewrite (task_update_registered _ _ _ task Htask).
  destruct (run_complete_pipeline _ _ _ _ _ _ _ _ (pipeline s)) as [w' [results|e]];
    destruct Hrow as (row & Hc & Hid & Hrow); cbn [fst snd].
  - erewrite task_update_registered by apply lookup_insert_eq.
    rewrite insert_insert_eq. eexists _, row.
    split; [reflexivity|]. split; [done|]. split; [done|].
    unfold dict_update.
    repeat split;
      try (eapply row_has_lookup; [exact Hrow|]; unfold cols_completed; in_list).
    + rewrite lookup_union_r by (by literal_lookup).
      apply lookup_union_Some_l. by literal_lookup.
    + apply lookup_union_Some_l. by literal_lookup.
    + apply lookup_union_Some_l. by literal_lookup.
    + apply lookup_union_Some_l. by literal_lookup.
    + apply lookup_union_Some_l. by literal_lookup.
    + apply lookup_union_Some_l. by literal_lookup.
    + rewrite !lookup_union_r by (by literal_lookup). done.
  - cbn [active_tasks pipeline].
    erewrite task_update_registered by apply lookup_insert_eq.
    rewrite insert_insert_eq. eexists _, row.
    split; [reflexivity|]. split; [done|]. split; [done|].
    unfold dict_update.
    repeat split;
      try (eapply row_has_lookup; [exact Hrow|]; unfold cols_failed; in_list).
    + rewrite lookup_union_r by (by literal_lookup).
      apply lookup_union_Some_l. by literal_lookup.
    + apply lookup_union_Some_l. by literal_lookup.
    + apply lookup_union_Some_l. by literal_lookup.
    + rewrite lookup_union_r by (by literal_lookup).
      apply lookup_union_Some_l. by literal_lookup.
    + rewrite lookup_union_r by (by literal_lookup).
      apply lookup_union_Some_l. by literal_lookup.
    + rewrite !lookup_union_r by (by literal_lookup). done.
    + apply lookup_union_Some_l. by literal_lookup.
Qed.

(** X25.  For a task that is not registered, [run_pipeline_task] raises
    KeyError, from the handler of its [except] clause, and the pipeline
    is not run: nothing is written. *)
Theorem unregistered_task_raises cfg E C started ended task_id request s :
  active_tasks s !! task_id = None →
  run_pipeline_task cfg E C started ended task_id request s
  = (s, Raise (mkExn "KeyError" ("'" ++ task_id ++ "'")%string)).
Proof.
  intros Hnone. unfold run_pipeline_task, task_update. by rewrite Hnone, Hnone.
Qed.

End Tasks.

Import Examples.





Lemma validate_leads_batch_order_witness :
  ∃ results,
    validate_leads_batch W0 [acme; numeric_website] = Ok results ∧
    length results = 2%nat.
Proof.
  destruct (validate_leads_batch_order W0 [acme; numeric_website])
    as (results & H & Hl & _).
  exists results. exact (conj H Hl).
Defined.

Lemma numeric_website_raises :
  _validate_single_lead_async W0 numeric_website
  = Raise (attribute_error (VInt 5) "startswith").
Proof. vm_compute. reflexivity. Qed.

Lemma validate_leads_batch_isolation_witness :
  _validate_single_lead_async W0 numeric_website
  = Raise (attribute_error (VInt 5) "startswith") ∧
  ∃ rb ra bad,
    validate_leads_batch W0 [acme] = Ok rb ∧
    validate_leads_batch W0 [no_phone] = Ok ra ∧
    validate_leads_batch W0 ([acme] ++ numeric_website :: [no_phone])
    = Ok (rb ++ bad :: ra) ∧
    bad !! "validation_error"
    = Some (VStr "'int' object has no attribute 'startswith'").
Proof.
  split; [exact numeric_website_raises|].
  destruct (validate_leads_batch_isolation W0 [acme] [no_phone] numeric_website _
              numeric_website_raises)
    as (rb & ra & bad & Hb & Ha & H & _ & _ & _ & He & _).
  exists rb, ra, bad. exact (conj Hb (conj Ha (conj H He))).
Defined.

Lemma pipeline_runs_per_attempt_witness :
  fst (_export_results E0 (C0 [acme]) (VStr "c1") two_campaigns) = two_campaigns.
Proof.
  exact (proj1 (proj2 (proj2 (proj2 (proj2 (proj2
           (pipeline_runs_per_attempt all_stages E0 (C0 [acme]) "c1"
              "coffee shops" "Seattle, WA" 5 None None))))))
           two_campaigns).
Defined.

(** With all stages enabled and one business found, the run attempts six
    stages, the export among them, and writes five PipelineRun rows. *)
Lemma export_attempt_leaves_no_run :
  let w' := fst (run_complete_pipeline all_stages E0 (C0 [acme])
                   "coffee shops" "Seattle, WA" 5 None None empty_world) in
  stages_attempted (log w')
  = [Scrape; Validate; Enrich; Research; Personalize; Export] ∧
  length (pipeline_runs (store w')) = 5%nat ∧
  (length (pipeline_runs (store w')) - length (pipeline_runs (store empty_world)))%nat
  ≠ length (stages_attempted (log w')).
Proof. vm_compute. repeat split; [reflexivity..|discriminate]. Qed.

Lemma run_creates_campaign_for_any_input_witness :
  other_campaigns (new_campaign_id E0) (campaigns (store empty_world)) ∧
  - 2 ^ 63 ≤ 5 < 2 ^ 63 ∧
  ∃ row,
    campaigns (store (fst (run_complete_pipeline all_stages E0 (C0 [])
                             "" "" 5 None None empty_world)))
    = campaigns (store empty_world) ++ [row] ∧
    row !! "id" = Some (VStr (new_campaign_id E0)) ∧
    row !! "business_type" = Some (VStr "") ∧
    row !! "location" = Some (VStr "").
Proof.
  assert (H1 : other_campaigns (new_campaign_id E0) (campaigns (store empty_world)))
    by apply Forall_nil_2.
  assert (H2 : - 2 ^ 63 ≤ 5 < 2 ^ 63) by lia.
  split; [exact H1|]. split; [exact H2|].
  exact (run_creates_campaign_for_any_input all_stages E0 (C0 []) "" "" 5
           None None empty_world H1 H2).
Defined.

(** A run with an empty [business_type] and an empty [location] leaves a
    Campaign row in the store. *)
Lemma empty_input_leaves_campaign :
  let w' := fst (run_complete_pipeline all_stages E0 (C0 [])
                   "" "" 5 None None empty_world) in
  store w' ≠ store empty_world ∧ length (campaigns (store w')) = 1%nat.
Proof.
  split; [|vm_compute; reflexivity].
  intros H. apply (f_equal (fun d => length (campaigns d))) in H.
  vm_compute in H. discriminate H.
Qed.

Lemma no_businesses_fails_campaign_witness :
  other_campaigns (new_campaign_id E0) (campaigns (store empty_world)) ∧
  - 2 ^ 63 ≤ 5 < 2 ^ 63 ∧
  search_businesses (C0 []) "coffee shops" "Seattle, WA" 5 = Ok [] ∧
  ∃ w', run_complete_pipeline all_stages E0 (C0 []) "coffee shops" "Seattle, WA"
          5 None None empty_world
        = (w', Raise (mkExn "Exception" "No businesses found")).
Proof.
  assert (H1 : other_campaigns (new_campaign_id E0) (campaigns (store empty_world)))
    by apply Forall_nil_2.
  assert (H2 : - 2 ^ 63 ≤ 5 < 2 ^ 63) by lia.
  split; [exact H1|]. split; [exact H2|]. split; [reflexivity|].
  destruct (no_businesses_fails_campaign all_stages E0 (C0 []) "coffee shops"
              "Seattle, WA" 5 None None empty_world H1 H2 eq_refl)
    as (w' & row & run & H & _).
  exists w'. exact H.
Defined.









(** * Instances of the further properties *)

Import StoreExamples.

Lemma is_ok_eq {A} (r : result A) (other : A) :
  is_ok r = true → r = Ok (match r with Ok a => a | Raise _ => other end).
Proof. by destruct r. Qed.

Lemma is_ok_some_eq {A} (r : result (option A)) (other : A) :
  is_ok_some r = true →
  r = Ok (Some (match r with Ok (Some a) => a | _ => other end)).
Proof. by destruct r as [[a|]|]. Qed.

Lemma consistent_empty_world : consistent (store empty_world).
Proof.
  split; [|split]; [| |done]; (split; [done|]); exists []; repeat constructor.
Qed.

Lemma consistent_two_campaigns : consistent (store two_campaigns).
Proof.
  split; [|split]; [| |done].
  - split; [done|]. exists [1; 2; 3]. split.
    + repeat (constructor; [vm_compute; reflexivity|]). constructor.
    + split.
      * repeat (apply NoDup_cons_2;
                [rewrite ?not_elem_of_cons; repeat split; try lia; apply not_elem_of_nil|]).
        apply NoDup_nil_2.
      * repeat (constructor; [cbn; lia|]). constructor.
  - split; [done|]. exists []. repeat constructor.
Qed.

Lemma store_writes_keep_keys_witness :
  consistent (store two_campaigns) ∧
  consistent (snd (cleanup_old_campaigns june 30 (store two_campaigns))).
Proof.
  split; [exact consistent_two_campaigns|].
  exact (proj2 (proj2 (proj2 (proj2 (proj2
           (store_writes_keep_keys E0 (store two_campaigns)
              consistent_two_campaigns))))) june 30).
Defined.

Lemma run_keeps_store_consistent_witness :
  consistent (store two_campaigns) ∧
  primary_key (leads (store (fst (run_complete_pipeline all_stages E0 (C0 [acme])
                                    "coffee shops" "Seattle, WA" 5 None None
                                    two_campaigns)))).
Proof.
  split; [exact consistent_two_campaigns|].
  exact (proj2 (run_keeps_store_consistent all_stages E0 (C0 [acme])
                  "coffee shops" "Seattle, WA" 5 None None two_campaigns
                  consistent_two_campaigns)).
Defined.
















Lemma june_steady : steady june 30 (VStr "2024-06-01 00:00:00").
Proof. intros k. reflexivity. Qed.

Lemma cleanup_old_campaigns_removes_witness :
  steady june 30 (VStr "2024-06-01 00:00:00") ∧
  campaigns (snd (cleanup_old_campaigns june 30 with_spring))
  = List.filter (fun c => negb (older_than (VStr "2024-06-01 00:00:00") c))
                (campaigns with_spring).
Proof.
  split; [exact june_steady|].
  exact (proj1 (proj2 (proj2
           (cleanup_old_campaigns_removes june 30 (VStr "2024-06-01 00:00:00")
              with_spring june_steady)))).
Defined.

Lemma cleanup_old_campaigns_again_witness :
  steady june 30 (VStr "2024-06-01 00:00:00") ∧
  cleanup_old_campaigns june 30 (snd (cleanup_old_campaigns june 30 with_spring))
  = (0, snd (cleanup_old_campaigns june 30 with_spring)).
Proof.
  split; [exact june_steady|].
  exact (proj2 (cleanup_old_campaigns_again june 30 (VStr "2024-06-01 00:00:00")
                  with_spring june_steady)).
Defined.

Lemma run_completed :
  run_complete_pipeline all_stages E0 (C0 [acme]) "coffee shops" "Seattle, WA"
    5 None None empty_world
  = (after_run, Ok run_summary).
Proof.
  assert (H : is_ok (snd (run_complete_pipeline all_stages E0 (C0 [acme])
                            "coffee shops" "Seattle, WA" 5 None None empty_world))
              = true) by (vm_compute; reflexivity).
  unfold after_run, run_summary.
  destruct (run_complete_pipeline all_stages E0 (C0 [acme]) "coffee shops"
              "Seattle, WA" 5 None None empty_world) as [w [summary|e]];
    [reflexivity|discriminate H].
Qed.

Lemma run_stores_every_business_witness :
  run_complete_pipeline all_stages E0 (C0 [acme]) "coffee shops" "Seattle, WA"
    5 None None empty_world
  = (after_run, Ok run_summary) ∧
  ∃ businesses,
    search_businesses (C0 [acme]) "coffee shops" "Seattle, WA" 5 = Ok businesses ∧
    summary_get run_summary "total_leads" = VInt (Z.of_nat (length businesses)).
Proof.
  split; [exact run_completed|].
  destruct (run_stores_every_business all_stages E0 (C0 [acme]) "coffee shops"
              "Seattle, WA" 5 None None empty_world after_run run_summary
              run_completed) as (businesses & Hs & _ & _ & _ & Ht & _).
  exists businesses. exact (conj Hs Ht).
Defined.

Lemma full_run_personalizes_witness :
  consistent (store empty_world) ∧
  run_complete_pipeline all_stages E0 (C0 [acme]) "coffee shops" "Seattle, WA"
    5 None None empty_world
  = (after_run, Ok run_summary) ∧
  campaign_leads_are (new_campaign_id E0) "personalized" (leads (store after_run)).
Proof.
  split; [exact consistent_empty_world|]. split; [exact run_completed|].
  exact (full_run_personalizes E0 (C0 [acme]) "coffee shops" "Seattle, WA" 5
           None None empty_world after_run run_summary consistent_empty_world
           run_completed).
Defined.

Lemma pair_validated : validate_leads_batch W0 [acme; no_phone] = Ok validated_pair.
Proof. apply is_ok_eq. vm_compute. reflexivity. Qed.

Lemma pair_summarized : get_validation_summary validated_pair = Ok (Some pair_summary).
Proof. apply is_ok_some_eq. vm_compute. reflexivity. Qed.

Lemma validation_summary_partitions_witness :
  validate_leads_batch W0 [acme; no_phone] = Ok validated_pair ∧
  get_validation_summary validated_pair = Ok (Some pair_summary) ∧
  summary_get pair_summary "total_leads" = VInt 2.
Proof.
  split; [exact pair_validated|]. split; [exact pair_summarized|].
  destruct (validation_summary_partitions W0 [acme; no_phone] validated_pair
              pair_summary pair_validated pair_summarized)
    as (te & ve & ie & tp & vp & ip & tw & vc & ic & Htotal & _).
  exact Htotal.
Defined.

Lemma acme_name : acme !! "name" = Some (VStr "Acme Corp").
Proof. vm_compute. reflexivity. Qed.

Lemma acme_has_no_website v :
  acme !! "website" = Some v → truthy v = true → ∃ s, v = VStr s.
Proof. intros H. vm_compute in H. discriminate H. Qed.

Lemma named_lead_is_company_valid_witness :
  acme !! "name" = Some (VStr "Acme Corp") ∧
  2 < PyStr.len (PyStr.strip "Acme Corp") ∧
  ∃ v, _validate_single_lead_async W0 acme = Ok v ∧
       v !! "company_valid" = Some (VBool true).
Proof.
  assert (H : 2 < PyStr.len (PyStr.strip "Acme Corp")) by reflexivity.
  split; [exact acme_name|]. split; [exact H|].
  destruct (named_lead_is_company_valid W0 acme "Acme Corp" acme_name H
              acme_has_no_website) as (v & Hv & Hc & _).
  exists v. exact (conj Hv Hc).
Defined.

Lemma post_init_campaign_creation_is_configured_witness :
  Config.enable_campaign_creation default_config = false ∧
  ¬ In "INSTANTLY_API_KEY"
       (Config.get_missing_configs (Config.__post_init__ (fun _ => None) default_config)).
Proof.
  split; [reflexivity|].
  exact (proj1 (proj2 (proj2
           (post_init_campaign_creation_is_configured (fun _ => None)
              default_config eq_refl)))).
Defined.

Lemma endless_pages_productive k token : productive (endless_pages k token).
Proof. right. split; [reflexivity|discriminate]. Qed.

Lemma search_places_returns_witness :
  (∀ k token, productive (endless_pages k token)) ∧
  ∃ places,
    Scraper._search_places endless_pages (Z.to_nat 3) 3 = Some places ∧
    Z.of_nat (length places) ≤ Z.max 0 3.
Proof.
  split; [exact endless_pages_productive|].
  exact (search_places_returns endless_pages 3 endless_pages_productive).
Defined.

Lemma over_quota_refused k token : refused (over_quota k token).
Proof. split; discriminate. Qed.

Lemma search_places_retries_forever_witness :
  0 < 5 ∧ (∀ k token, refused (over_quota k token)) ∧
  Scraper._search_places over_quota 1000 5 = None.
Proof.
  assert (H : 0 < 5) by reflexivity.
  split; [exact H|]. split; [exact over_quota_refused|].
  exact (search_places_retries_forever over_quota 5 H over_quota_refused 1000%nat).
Defined.

Lemma task_1_registered : Api.active_tasks one_task !! "task_1" = Some pending_task.
Proof. apply lookup_singleton_eq. Qed.

Lemma task_ends_as_campaign_witness :
  Api.active_tasks one_task !! "task_1" = Some pending_task ∧
  other_campaigns (new_campaign_id E0) (campaigns (store (Api.pipeline one_task))) ∧
  1 ≤ Api.leads_count coffee_request ≤ 100 ∧
  snd (Api.run_pipeline_task all_stages E0 (C0 [acme]) "2024-01-01T00:00:00"
         "2024-01-01T00:00:01" "task_1" coffee_request one_task)
  = Ok tt.
Proof.
  assert (H1 : other_campaigns (new_campaign_id E0)
                 (campaigns (store (Api.pipeline one_task))))
    by apply Forall_nil_2.
  assert (H2 : 1 ≤ Api.leads_count coffee_request ≤ 100) by (cbn; lia).
  split; [exact task_1_registered|]. split; [exact H1|]. split; [exact H2|].
  destruct (task_ends_as_campaign all_stages E0 (C0 [acme]) "2024-01-01T00:00:00"
              "2024-01-01T00:00:01" "task_1" coffee_request one_task pending_task
              task_1_registered H1 H2) as (task' & row & H & _).
  exact (f_equal snd H).
Defined.

Lemma unregistered_task_raises_witness :
  Api.active_tasks no_task !! "task_1" = None ∧
  Api.run_pipeline_task all_stages E0 (C0 [acme]) "2024-01-01T00:00:00"
    "2024-01-01T00:00:01" "task_1" coffee_request no_task
  = (no_task, Raise (mkExn "KeyError" "'task_1'")).
Proof.
  split; [apply lookup_empty|].
  exact (unregistered_task_raises all_stages E0 (C0 [acme]) "2024-01-01T00:00:00"
           "2024-01-01T00:00:01" "task_1" coffee_request no_task (lookup_empty _)).
Defined.
